(** * ArduinoCLI: a shallow embedding of [src/ArduinoCLI.cpp]

    The development models the serial command-line dispatcher of
    hharte/ArduinoCLI: the character loop of [poll], the tokenizer
    [_splitLine], the resolver [_findCommand], the line dispatcher
    [_parseAndExecute] and the tab-completion engine [_handleTab].

    Conventions.
    - A [char] is an [ascii]; a [const char *] that points to a
      NUL-terminated string is the list of the characters before its
      terminator ([cstring]); a null pointer is [None].
    - A [char *] into writable memory is a pair of the memory region (a
      [list ascii], one element per byte) and an offset; the string it
      designates is read with [cstr_at].
    - [size_t] values are [nat]s below [SIZE_MAX]; the subtractions and the
      addition of the source that can wrap are written with [size_sub] and
      [size_add].  [int] values are in [Z].
    - An access outside an allocated region, or through a null pointer, is
      undefined behaviour in C++: the model raises the sticky ghost flag
      [undefined] and leaves the region as it is.
    - The [Stream] is the list of the bytes waiting to be read and the list
      of the bytes written.  Bytes arrive between two calls
      ([serial_receive]), not while a call runs.
    - A command handler is a function from its arguments to the calls of
      the public interface it makes ([api_call]). *)

From Stdlib Require Import Ascii String ZArith Lia.
From stdpp Require Import base list numbers pretty.

Local Open Scope nat_scope.

(** ** Characters and C strings *)

Abbreviation cstring := (list ascii).

Definition NUL : ascii := "000"%char.
Definition ETX : ascii := "003"%char.   (* Ctrl+C *)
Definition BEL : ascii := "007"%char.   (* '\a' *)
Definition BS : ascii := "008"%char.    (* '\b' *)
Definition TAB : ascii := "009"%char.   (* '\t' *)
Definition LF : ascii := "010"%char.    (* '\n' *)
Definition VT : ascii := "011"%char.    (* '\v' *)
Definition FF : ascii := "012"%char.    (* '\f' *)
Definition CR : ascii := "013"%char.    (* '\r' *)
Definition SPACE : ascii := " "%char.
Definition DEL : ascii := "127"%char.

(** A string literal of the source. *)
Definition lit (s : string) : cstring := list_ascii_of_string s.

(** <ctype.h>, "C" locale. *)
Definition isprint (c : ascii) : bool :=
  (32 <=? nat_of_ascii c) && (nat_of_ascii c <=? 126).

Definition isspace (c : ascii) : bool :=
  (c =? SPACE)%char || (c =? TAB)%char || (c =? LF)%char ||
  (c =? VT)%char || (c =? FF)%char || (c =? CR)%char.

(** [size_t]: 16 bits wide on the AVR boards, 32 on the ARM ones.  The
    model fixes the narrower one; no statement below depends on the value
    beyond [SIZE_MAX] being at least 65535. *)
Definition SIZE_MAX : nat := Z.to_nat 65535.

Definition size_sub (a b : nat) : nat :=
  if b <=? a then a - b else a + S SIZE_MAX - b.

Definition size_add (a b : nat) : nat :=
  if a + b <=? SIZE_MAX then a + b else a + b - S SIZE_MAX.

(** [strlen(s)] *)
Definition strlen (s : cstring) : nat := length s.

(** [strcmp(a, b) == 0] *)
Fixpoint strcmp_eq (a b : cstring) : bool :=
  match a, b with
  | [], [] => true
  | x :: a', y :: b' => (x =? y)%char && strcmp_eq a' b'
  | _, _ => false
  end.

(** [strncmp(a, b, n) == 0]: at most [n] characters are compared, and the
    comparison stops after a terminator common to both. *)
Fixpoint strncmp_eq (a b : cstring) (n : nat) : bool :=
  match n with
  | 0 => true
  | S n' =>
      match a, b with
      | [], [] => true
      | x :: a', y :: b' => (x =? y)%char && strncmp_eq a' b' n'
      | _, _ => false
      end
  end.

(** [strchr(s, c) != NULL], for [c] other than the terminator. *)
Definition strchr_found (s : cstring) (c : ascii) : bool :=
  existsb (fun x => (x =? c)%char) s.

(** ** The command table *)

(** What a command handler may do with the [ArduinoCLI *] it is given:
    calls of the public interface, in order.  Handlers are supplied by
    the sketch and are not part of the library; re-entering [poll] or
    [processInput], or reconfiguring the instance, from inside a handler
    is outside the model. *)
Inductive api_call :=
| CallStop
| CallStart
| CallPrint (bytes : cstring)
| CallPrintHelp.

(** [cli_command_handler_t]: from [argc] and the strings of [argv] to the
    calls the handler makes. *)
Definition cli_command_handler_t := Z → list cstring → list api_call.

Record CLI_Command_t := {
  name : option cstring;
  func : option cli_command_handler_t;
  max_args : Z;
  help_text : option cstring
}.

(** ** [_findCommand] *)

(** The three locals of the scan; a [const CLI_Command_t *] into the table
    is the index of the entry it points to. *)
Record find_locals := {
  found_cmd : option nat;
  exact_match : option nat;
  match_count : Z
}.

(** One iteration of the [for] loop, on entry [i]. *)
Definition find_iter (prefix : cstring) (prefix_len : nat)
    (i : nat) (c : CLI_Command_t) (v : find_locals) : find_locals :=
  match name c with
  | None => v
  | Some n =>
      let v1 :=
        if strcmp_eq prefix n
        then {| found_cmd := found_cmd v; exact_match := Some i;
                match_count := match_count v |}
        else v in
      if strncmp_eq prefix n prefix_len
      then {| found_cmd := match found_cmd v1 with
                           | None => Some i
                           | Some j => Some j
                           end;
              exact_match := exact_match v1;
              match_count := (match_count v1 + 1)%Z |}
      else v1
  end.

Fixpoint find_scan (prefix : cstring) (prefix_len : nat)
    (i : nat) (cmds : list CLI_Command_t) (v : find_locals) : find_locals :=
  match cmds with
  | [] => v
  | c :: cmds' =>
      find_scan prefix prefix_len (S i) cmds' (find_iter prefix prefix_len i c v)
  end.

Definition _findCommand (cmds : list CLI_Command_t) (prefix : cstring)
    : option nat :=
  let prefix_len := strlen prefix in
  if prefix_len =? 0 then None
  else
    let v := find_scan prefix prefix_len 0 cmds
               {| found_cmd := None; exact_match := None; match_count := 0 |} in
    match exact_match v with
    | Some i => Some i
    | None => if (match_count v =? 1)%Z then found_cmd v else None
    end.

(** ** Writable memory *)

(** A region of [char]s: the line buffer, or the array behind the
    [char *line] handed to [processInput]. *)
Abbreviation region := (list ascii).

Fixpoint until_nul (l : list ascii) : cstring :=
  match l with
  | [] => []
  | c :: l' => if (c =? NUL)%char then [] else c :: until_nul l'
  end.

(** The string a [char *] at offset [p] of region [m] designates.  A
    region without terminator after [p] is read up to its end. *)
Definition cstr_at (m : region) (p : nat) : cstring := until_nul (drop p m).

(** [strspn(s, accept)] and [strcspn(s, reject)] *)
Fixpoint strspn (s accept : cstring) : nat :=
  match s with
  | c :: s' => if strchr_found accept c then S (strspn s' accept) else 0
  | [] => 0
  end.

Fixpoint strcspn (s reject : cstring) : nat :=
  match s with
  | c :: s' => if strchr_found reject c then 0 else S (strcspn s' reject)
  | [] => 0
  end.

(** ** [_splitLine] *)

(** The delimiter string [" \t\r\n\a"]. *)
Definition delimiters : cstring := [SPACE; TAB; CR; LF; BEL].

Definition is_delim (c : ascii) : bool := strchr_found delimiters c.

(** [strtok_r(s, " \t\r\n\a", &saveptr)] on the string at offset [s] of
    [m] (for a continuation call, [s] is the saved pointer).  The result is
    the token's offset (or [None] for [NULL]), the region after the
    in-place write of the terminator, and the new saved pointer. *)
Definition strtok_r (m : region) (s : nat) : option nat * region * nat :=
  let tok := s + strspn (cstr_at m s) delimiters in
  match cstr_at m tok with
  | [] => (None, m, tok)
  | _ :: _ =>
      let e := tok + strcspn (cstr_at m tok) delimiters in
      match m !! e with
      | Some c =>
          if (c =? NUL)%char then (Some tok, m, e)
          else (Some tok, <[e := NUL]> m, S e)
      | None => (Some tok, m, e)
      end
  end.

Record split_result := {
  sr_argc : nat;                     (* the returned [argc] *)
  sr_line : region;                  (* the line after tokenizing *)
  sr_argv : list (option nat);       (* [argv_local] afterwards *)
  sr_undefined : bool                (* a store outside [argv_local] *)
}.

(** The [while] loop; [fuel] bounds the iterations and
    [S (length line)] is always enough ([splitLine_spec]). *)
Fixpoint split_loop (fuel : nat) (max_args_local : nat)
    (token : option nat) (m : region) (saveptr : nat)
    (argv_local : list (option nat)) (argc : nat) (ub : bool)
    : split_result :=
  let finish :=
    {| sr_argc := argc; sr_line := m;
       sr_argv := <[argc := None]> argv_local;
       sr_undefined := ub || negb (argc <? length argv_local) |} in
  match fuel with
  | 0 => finish
  | S fuel' =>
      match token with
      | Some t =>
          if argc <? size_sub max_args_local 1 then
            let '(token', m', saveptr') := strtok_r m saveptr in
            split_loop fuel' max_args_local token' m' saveptr'
              (<[argc := Some t]> argv_local) (S argc)
              (ub || negb (argc <? length argv_local))
          else finish
      | None => finish
      end
  end.

(** [_splitLine(line, argv_local, max_args_local)], with [line] at offset
    [line] of region [m]. *)
Definition _splitLine (m : region) (line : nat)
    (argv_local : list (option nat)) (max_args_local : nat) : split_result :=
  let '(token, m', saveptr) := strtok_r m line in
  split_loop (S (length m)) max_args_local token m' saveptr argv_local 0 false.

(** The strings [argv[0..argc-1]] as a handler reads them. *)
Definition argv_strings (r : split_result) : list cstring :=
  (λ o : option nat,
     match o with Some t => cstr_at (sr_line r) t | None => [] end)
  <$> take (sr_argc r) (sr_argv r).

(** The tokens of a line in the words of the specification: the maximal
    runs of characters that are not delimiters.  Used only to state what
    [_splitLine] computes. *)
Fixpoint tokens_of_line (s : cstring) : list cstring :=
  match s with
  | [] => []
  | c :: s' =>
      if is_delim c then tokens_of_line s'
      else
        let rest := tokens_of_line s' in
        match s', rest with
        | d :: _, w :: ws => if is_delim d then [c] :: rest else (c :: w) :: ws
        | _, _ => [c] :: rest
        end
  end.


(** ** The [ArduinoCLI] object *)

Definition CLI_DEFAULT_MAX_LINE_LEN : nat := 64.
Definition CLI_DEFAULT_MAX_ARGS : nat := 8.
Definition CLI_DEFAULT_PROMPT : cstring := lit "> ".
Definition CLI_MAX_PROMPT_LEN : nat := 18.

(** The fields of the class, the two directions of the [Stream] it refers
    to, and three ghost fields: [undefined] (see the conventions),
    [dispatched] (the lines that passed the checks of [processInput]) and
    [invoked] (the handler calls made: table index, [argc], and the
    strings of [argv]). *)
Record ArduinoCLI := mkCLI {
  serial_rx : list ascii;            (* _serial: bytes waiting to be read *)
  serial_tx : list ascii;            (* _serial: bytes written, oldest first *)
  _commands : list CLI_Command_t;    (* _commandCount is its length *)
  _isRunning : bool;
  _lineBuffer : option region;
  _maxLineLen : nat;
  _bufferPos : nat;
  _argv : option (list (option nat));
  _maxArgs : nat;
  _prompt : cstring;
  undefined : bool;
  dispatched : list cstring;
  invoked : list (nat * Z * list cstring)
}.

Definition set_serial_rx (v : list ascii) (s : ArduinoCLI) : ArduinoCLI :=
  mkCLI v (serial_tx s) (_commands s) (_isRunning s) (_lineBuffer s)
    (_maxLineLen s) (_bufferPos s) (_argv s) (_maxArgs s) (_prompt s)
    (undefined s) (dispatched s) (invoked s).
Definition set_serial_tx (v : list ascii) (s : ArduinoCLI) : ArduinoCLI :=
  mkCLI (serial_rx s) v (_commands s) (_isRunning s) (_lineBuffer s)
    (_maxLineLen s) (_bufferPos s) (_argv s) (_maxArgs s) (_prompt s)
    (undefined s) (dispatched s) (invoked s).
Definition set_isRunning (v : bool) (s : ArduinoCLI) : ArduinoCLI :=
  mkCLI (serial_rx s) (serial_tx s) (_commands s) v (_lineBuffer s)
    (_maxLineLen s) (_bufferPos s) (_argv s) (_maxArgs s) (_prompt s)
    (undefined s) (dispatched s) (invoked s).
Definition set_lineBuffer (v : option region) (s : ArduinoCLI) : ArduinoCLI :=
  mkCLI (serial_rx s) (serial_tx s) (_commands s) (_isRunning s) v
    (_maxLineLen s) (_bufferPos s) (_argv s) (_maxArgs s) (_prompt s)
    (undefined s) (dispatched s) (invoked s).
Definition set_maxLineLen (v : nat) (s : ArduinoCLI) : ArduinoCLI :=
  mkCLI (serial_rx s) (serial_tx s) (_commands s) (_isRunning s) (_lineBuffer s)
    v (_bufferPos s) (_argv s) (_maxArgs s) (_prompt s)
    (undefined s) (dispatched s) (invoked s).
Definition set_bufferPos (v : nat) (s : ArduinoCLI) : ArduinoCLI :=
  mkCLI (serial_rx s) (serial_tx s) (_commands s) (_isRunning s) (_lineBuffer s)
    (_maxLineLen s) v (_argv s) (_maxArgs s) (_prompt s)
    (undefined s) (dispatched s) (invoked s).
Definition set_argv (v : option (list (option nat))) (s : ArduinoCLI)
    : ArduinoCLI :=
  mkCLI (serial_rx s) (serial_tx s) (_commands s) (_isRunning s) (_lineBuffer s)
    (_maxLineLen s) (_bufferPos s) v (_maxArgs s) (_prompt s)
    (undefined s) (dispatched s) (invoked s).
Definition set_maxArgs (v : nat) (s : ArduinoCLI) : ArduinoCLI :=
  mkCLI (serial_rx s) (serial_tx s) (_commands s) (_isRunning s) (_lineBuffer s)
    (_maxLineLen s) (_bufferPos s) (_argv s) v (_prompt s)
    (undefined s) (dispatched s) (invoked s).
Definition set_prompt (v : cstring) (s : ArduinoCLI) : ArduinoCLI :=
  mkCLI (serial_rx s) (serial_tx s) (_commands s) (_isRunning s) (_lineBuffer s)
    (_maxLineLen s) (_bufferPos s) (_argv s) (_maxArgs s) v
    (undefined s) (dispatched s) (invoked s).
Definition set_undefined (v : bool) (s : ArduinoCLI) : ArduinoCLI :=
  mkCLI (serial_rx s) (serial_tx s) (_commands s) (_isRunning s) (_lineBuffer s)
    (_maxLineLen s) (_bufferPos s) (_argv s) (_maxArgs s) (_prompt s)
    v (dispatched s) (invoked s).
Definition set_dispatched (v : list cstring) (s : ArduinoCLI) : ArduinoCLI :=
  mkCLI (serial_rx s) (serial_tx s) (_commands s) (_isRunning s) (_lineBuffer s)
    (_maxLineLen s) (_bufferPos s) (_argv s) (_maxArgs s) (_prompt s)
    (undefined s) v (invoked s).
Definition set_invoked (v : list (nat * Z * list cstring)) (s : ArduinoCLI)
    : ArduinoCLI :=
  mkCLI (serial_rx s) (serial_tx s) (_commands s) (_isRunning s) (_lineBuffer s)
    (_maxLineLen s) (_bufferPos s) (_argv s) (_maxArgs s) (_prompt s)
    (undefined s) (dispatched s) v.

(** Raise [undefined] when [b] holds. *)
Definition flag_undefined (b : bool) (s : ArduinoCLI) : ArduinoCLI :=
  if b then set_undefined true s else s.

(** *** The stream *)

(** [_serial.write]/[print] of a sequence of bytes. *)
Definition serial_write (bytes : list ascii) (s : ArduinoCLI) : ArduinoCLI :=
  set_serial_tx (serial_tx s ++ bytes) s.

(** [_serial.println(x)]: [x] followed by CR LF. *)
Definition serial_println (bytes : list ascii) (s : ArduinoCLI) : ArduinoCLI :=
  serial_write [CR; LF] (serial_write bytes s).

(** [_serial.print(int)]: the decimal digits, with a sign when negative. *)
Definition serial_print_int (n : Z) (s : ArduinoCLI) : ArduinoCLI :=
  serial_write (lit (pretty n)) s.

(** Bytes that arrive on the line between two calls of [poll]. *)
Definition serial_receive (bytes : list ascii) (s : ArduinoCLI) : ArduinoCLI :=
  set_serial_rx (serial_rx s ++ bytes) s.

(** *** Configuration *)

Definition setMaxLineLen (len : nat) (s : ArduinoCLI) : ArduinoCLI :=
  if 0 <? len then set_maxLineLen len s else s.

Definition setMaxArgs (num : nat) (s : ArduinoCLI) : ArduinoCLI :=
  if 0 <? num then set_maxArgs (size_add num 1) s else s.

(** [strncpy] into the 18-byte [_prompt], then the terminator at index 17. *)
Definition setPrompt (prompt : option cstring) (s : ArduinoCLI) : ArduinoCLI :=
  match prompt with
  | Some p => set_prompt (take (CLI_MAX_PROMPT_LEN - 1) p) s
  | None => s
  end.

(** *** Buffers *)

(** [malloc(n * sizeof(T))]: null, or a region of [n] elements of
    unspecified content, as drawn from [heap]. *)
Definition malloc {A} (n : nat) (heap : option (list A)) : option (list A) :=
  match heap with
  | Some l => if length l =? n then Some l else None
  | None => None
  end.

Definition _freeBuffers (s : ArduinoCLI) : ArduinoCLI :=
  set_argv None (set_lineBuffer None s).

Definition _allocateBuffers (heap_line : option region)
    (heap_argv : option (list (option nat))) (s : ArduinoCLI)
    : bool * ArduinoCLI :=
  let s0 := _freeBuffers s in
  let s1 := set_lineBuffer (malloc (_maxLineLen s0) heap_line) s0 in
  let s2 := set_argv (malloc (_maxArgs s1) heap_argv) s1 in
  match _lineBuffer s2, _argv s2 with
  | Some _, Some _ => (true, s2)
  | _, _ =>
      (false,
       _freeBuffers
         (serial_println (lit "Error: CLI buffer allocation failed!") s2))
  end.

(** A store [_lineBuffer[i] = c]. *)
Definition buffer_store (i : nat) (c : ascii) (s : ArduinoCLI) : ArduinoCLI :=
  match _lineBuffer s with
  | Some buf =>
      if i <? length buf then set_lineBuffer (Some (<[i := c]> buf)) s
      else set_undefined true s
  | None => set_undefined true s
  end.

(** [strncpy(_lineBuffer + dst, src, n)]: [n] bytes are stored, the string
    [src] first and terminators after its end. *)
Fixpoint buffer_strncpy (dst : nat) (src : cstring) (n : nat)
    (s : ArduinoCLI) : ArduinoCLI :=
  match n with
  | 0 => s
  | S n' =>
      match src with
      | c :: src' => buffer_strncpy (S dst) src' n' (buffer_store dst c s)
      | [] => buffer_strncpy (S dst) [] n' (buffer_store dst NUL s)
      end
  end.

Definition _resetBuffer (s : ArduinoCLI) : ArduinoCLI :=
  let s1 :=
    match _lineBuffer s with
    | Some _ => buffer_store 0 NUL s
    | None => s
    end in
  set_bufferPos 0 s1.

Definition _printPrompt (s : ArduinoCLI) : ArduinoCLI :=
  serial_write (_prompt s) (serial_write [CR; LF] s).

Definition _printChar (c : ascii) (s : ArduinoCLI) : ArduinoCLI :=
  serial_write [c] s.

Definition start (s : ArduinoCLI) : ArduinoCLI :=
  _printPrompt (set_isRunning true s).

Definition stop (s : ArduinoCLI) : ArduinoCLI := set_isRunning false s.

Definition isRunning (s : ArduinoCLI) : bool := _isRunning s.

(** The constructor, on a stream with [rx] waiting to be read. *)
Definition ArduinoCLI_new (rx : list ascii) (commands : list CLI_Command_t)
    (heap_line : option region) (heap_argv : option (list (option nat)))
    : ArduinoCLI :=
  let s :=
    {| serial_rx := rx; serial_tx := []; _commands := commands;
       _isRunning := false; _lineBuffer := None;
       _maxLineLen := CLI_DEFAULT_MAX_LINE_LEN; _bufferPos := 0;
       _argv := None; _maxArgs := CLI_DEFAULT_MAX_ARGS + 1;
       _prompt := take (CLI_MAX_PROMPT_LEN - 1) CLI_DEFAULT_PROMPT;
       undefined := false; dispatched := []; invoked := [] |} in
  _resetBuffer (snd (_allocateBuffers heap_line heap_argv s)).

(** *** [printHelp] *)

Definition printHelp_entry (c : CLI_Command_t) (s : ArduinoCLI) : ArduinoCLI :=
  match name c with
  | None => s
  | Some n =>
      let s1 := serial_write n (serial_write (lit "  ") s) in
      let nameLen := Z.of_nat (strlen n) in
      let padding := (15 - nameLen)%Z in
      let padding := if (padding <? 1)%Z then 1%Z else padding in
      let s2 := serial_write (replicate (Z.to_nat padding) SPACE) s1 in
      let s3 := serial_write (lit "- ") s2 in
      let s4 := serial_write (default [] (help_text c)) s3 in
      let s5 := serial_write (lit " (max args: ") s4 in
      let s6 := serial_print_int (max_args c) s5 in
      serial_println (lit ")") s6
  end.

Definition printHelp (s : ArduinoCLI) : ArduinoCLI :=
  foldl (λ acc c, printHelp_entry c acc)
    (serial_println (lit "Available commands:") s) (_commands s).

(** *** Running a handler *)

Definition api_exec (s : ArduinoCLI) (a : api_call) : ArduinoCLI :=
  match a with
  | CallStop => stop s
  | CallStart => start s
  | CallPrint bytes => serial_write bytes s
  | CallPrintHelp => printHelp s
  end.

(** [cmd->func(this, argc, _argv)] for the entry at index [i]. *)
Definition call_handler (i : nat) (h : cli_command_handler_t)
    (argc : Z) (argv : list cstring) (s : ArduinoCLI) : ArduinoCLI :=
  foldl api_exec (set_invoked (invoked s ++ [(i, argc, argv)]) s) (h argc argv).

(** ** [_parseAndExecute] and [processInput] *)

(** The number of characters the loop that skips leading [isspace]
    characters steps over. *)
Fixpoint skip_isspace (s : cstring) : nat :=
  match s with
  | c :: s' => if isspace c then S (skip_isspace s') else 0
  | [] => 0
  end.

(** The second scan of the table, made for the wording of the error. *)
Fixpoint count_prefix_matches (arg0 : cstring) (prefix_len : nat)
    (cmds : list CLI_Command_t) (match_count : Z) : Z :=
  match cmds with
  | [] => match_count
  | c :: cmds' =>
      count_prefix_matches arg0 prefix_len cmds'
        match name c with
        | Some n =>
            if strncmp_eq arg0 n prefix_len then (match_count + 1)%Z
            else match_count
        | None => match_count
        end
  end.

Definition report_not_found (arg0 : cstring) (s : ArduinoCLI) : ArduinoCLI :=
  let match_count :=
    count_prefix_matches arg0 (strlen arg0) (_commands s) 0 in
  let s1 := serial_println [] s in
  if (1 <? match_count)%Z then
    serial_println (lit "'.")
      (serial_write arg0 (serial_write (lit "Error: Ambiguous command '") s1))
  else
    serial_println (lit "'. Type 'help' for list.")
      (serial_write arg0 (serial_write (lit "Error: Unknown command '") s1)).

Definition report_too_many (cmd : CLI_Command_t) (user_args : Z)
    (s : ArduinoCLI) : ArduinoCLI :=
  let s1 := serial_println [] s in
  let s2 := serial_write (lit "Error: Too many arguments for '") s1 in
  let s3 := serial_write (default [] (name cmd)) s2 in
  let s4 := serial_write (lit "' (max: ") s3 in
  let s5 := serial_print_int (max_args cmd) s4 in
  let s6 := serial_write (lit ", got: ") s5 in
  let s7 := serial_print_int user_args s6 in
  serial_println (lit ").") s7.

(** [_parseAndExecute(line)], with [line] at offset 0 of region [m]; the
    region is returned as the tokenizer leaves it.  When [line] is the
    line buffer itself (the call from [poll]), the caller stores the
    returned region back; a handler has no access to the buffer, so it
    cannot observe the delay. *)
Definition _parseAndExecute (m : region) (s : ArduinoCLI)
    : region * ArduinoCLI :=
  match _lineBuffer s, _argv s with
  | Some _, Some argv_array =>
      let line := skip_isspace (cstr_at m 0) in
      match cstr_at m line with
      | [] => (m, s)
      | _ :: _ =>
          let r := _splitLine m line argv_array (_maxArgs s) in
          let s1 :=
            flag_undefined (sr_undefined r) (set_argv (Some (sr_argv r)) s) in
          let argc := Z.of_nat (sr_argc r) in
          if (argc =? 0)%Z then (sr_line r, s1)
          else
            let argv := argv_strings r in
            let arg0 := hd [] argv in
            match _findCommand (_commands s1) arg0 with
            | None => (sr_line r, report_not_found arg0 s1)
            | Some i =>
                match _commands s1 !! i with
                | None => (sr_line r, s1)
                | Some cmd =>
                    let user_args := (argc - 1)%Z in
                    if (max_args cmd <? user_args)%Z then
                      (sr_line r, report_too_many cmd user_args s1)
                    else
                      match func cmd with
                      | Some h =>
                          (sr_line r,
                           call_handler i h argc argv (serial_println [] s1))
                      | None => (sr_line r, s1)
                      end
                end
            end
      end
  | _, _ => (m, s)
  end.

Definition processInput (m : region) (s : ArduinoCLI) : region * ArduinoCLI :=
  if negb (_isRunning s) || negb (bool_decide (is_Some (_lineBuffer s)))
     || negb (bool_decide (is_Some (_argv s)))
  then (m, s)
  else _parseAndExecute m (set_dispatched (dispatched s ++ [cstr_at m 0]) s).

(** ** Tab completion *)

(** The loop that collects [matches]; [break] when the array is full. *)
Fixpoint tab_scan (current_word : cstring) (current_len commandCount : nat)
    (cmds : list CLI_Command_t) (matches : list cstring) : list cstring :=
  match cmds with
  | [] => matches
  | c :: cmds' =>
      match name c with
      | Some n =>
          if strncmp_eq current_word n current_len then
            if length matches <? commandCount
            then tab_scan current_word current_len commandCount cmds'
                   (matches ++ [n])
            else matches
          else tab_scan current_word current_len commandCount cmds' matches
      | None => tab_scan current_word current_len commandCount cmds' matches
      end
  end.

(** The [while (true)] loop of [_findLcp]: [rest] is what is left of
    [first] from index [lcp_len] on. *)
Fixpoint lcp_loop (rest : cstring) (others : list cstring) (lcp_len : nat)
    : nat :=
  match rest with
  | [] => lcp_len
  | current_char :: rest' =>
      if forallb
           (λ m : cstring,
              match m !! lcp_len with
              | Some d => (d =? current_char)%char
              | None => false
              end) others
      then lcp_loop rest' others (S lcp_len)
      else lcp_len
  end.

Definition _findLcp (matches : list cstring) (count : nat) : nat :=
  if count =? 0 then 0
  else if count =? 1 then strlen (hd [] matches)
  else lcp_loop (hd [] matches) (take (count - 1) (tl matches)) 0.

(** [_handleTab].  The sum [_bufferPos + remaining_len] is written without
    wrap-around: [remaining_len] is at most the length of a command name,
    and a name shares the address space with the line buffer and with
    [current_word], so the sum stays below [SIZE_MAX]. *)
Definition _handleTab (s : ArduinoCLI) : ArduinoCLI :=
  match _lineBuffer s with
  | None => s
  | Some buf =>
      let pos := _bufferPos s in
      (* char current_word[CLI_DEFAULT_MAX_LINE_LEN]; strncpy; terminator *)
      let current_word := until_nul (take pos buf) in
      let s :=
        flag_undefined
          (negb (pos <? CLI_DEFAULT_MAX_LINE_LEN)
           || ((length buf <? pos) && (length current_word =? length buf)))
          s in
      if strchr_found current_word SPACE then serial_write [BEL] s
      else
        let current_len := strlen current_word in
        if current_len =? 0 then s
        else
          let matches :=
            tab_scan current_word current_len (length (_commands s))
              (_commands s) [] in
          let match_count := length matches in
          if match_count =? 0 then serial_write [BEL] s
          else if match_count =? 1 then
            let completion := hd [] matches in
            let completion_len := strlen completion in
            let remaining_len := size_sub completion_len current_len in
            if pos + remaining_len <? size_sub (_maxLineLen s) 2 then
              let s1 :=
                buffer_strncpy pos (drop current_len completion)
                  remaining_len s in
              let s2 := buffer_store (pos + remaining_len) SPACE s1 in
              let s3 := buffer_store (pos + remaining_len + 1) NUL s2 in
              let s4 := serial_write (drop current_len completion) s3 in
              let s5 := serial_write [SPACE] s4 in
              set_bufferPos (pos + (remaining_len + 1)) s5
            else serial_write [BEL] s
          else
            let lcp_len := _findLcp matches match_count in
            if current_len <? lcp_len then
              let remaining_len := size_sub lcp_len current_len in
              if pos + remaining_len <? size_sub (_maxLineLen s) 1 then
                let s1 :=
                  buffer_strncpy pos (drop current_len (hd [] matches))
                    remaining_len s in
                let s2 := buffer_store (pos + remaining_len) NUL s1 in
                let s3 :=
                  serial_write (drop current_len (hd [] matches)) s2 in
                set_bufferPos (pos + remaining_len) s3
              else serial_write [BEL] s
            else
              let s1 := serial_println [] s in
              let s2 :=
                foldl (λ acc m, serial_write (lit "  ") (serial_write m acc))
                  s1 matches in
              let s3 := _printPrompt s2 in
              serial_write (default [] ((λ b, cstr_at b 0) <$> _lineBuffer s3))
                s3
  end.

(** ** [poll] *)

(** The body of the [while] loop for the byte [c] just read. *)
Definition poll_byte (c : ascii) (s : ArduinoCLI) : ArduinoCLI :=
  if (c =? CR)%char || (c =? LF)%char then
    let s1 :=
      if 0 <? _bufferPos s then
        let s0 := buffer_store (_bufferPos s) NUL s in
        match _lineBuffer s0 with
        | Some buf =>
            let '(buf', s') := processInput buf s0 in
            set_lineBuffer (Some buf') s'
        | None => s0
        end
      else s in
    let s2 := _resetBuffer s1 in
    let s3 := if _isRunning s2 then _printPrompt s2 else s2 in
    match serial_rx s3 with
    | next_c :: rest =>
        if ((c =? CR)%char && (next_c =? LF)%char)
           || ((c =? LF)%char && (next_c =? CR)%char)
        then set_serial_rx rest s3
        else s3
    | [] => s3
    end
  else if (c =? TAB)%char then _handleTab s
  else if (c =? DEL)%char || (c =? BS)%char then
    if 0 <? _bufferPos s then
      let s1 := set_bufferPos (_bufferPos s - 1) s in
      let s2 := buffer_store (_bufferPos s1) NUL s1 in
      serial_write [BS; SPACE; BS] s2
    else s
  else if (c =? ETX)%char then
    _printPrompt (serial_println (lit "^C") (_resetBuffer s))
  else if isprint c then
    if _bufferPos s <? size_sub (_maxLineLen s) 1 then
      let s1 := buffer_store (_bufferPos s) c s in
      let s2 := set_bufferPos (_bufferPos s1 + 1) s1 in
      let s3 := buffer_store (_bufferPos s2) NUL s2 in
      _printChar c s3
    else serial_write [BEL] s
  else s.

(** The [while (_serial.available() > 0)] loop.  Every iteration reads at
    least one byte, so as many iterations as there are bytes waiting are
    enough ([poll_loop_drains]). *)
Fixpoint poll_loop (fuel : nat) (s : ArduinoCLI) : ArduinoCLI :=
  match fuel with
  | 0 => s
  | S fuel' =>
      match serial_rx s with
      | [] => s
      | c :: rest => poll_loop fuel' (poll_byte c (set_serial_rx rest s))
      end
  end.

Definition poll (s : ArduinoCLI) : ArduinoCLI :=
  if negb (_isRunning s) || negb (bool_decide (is_Some (_lineBuffer s)))
  then s
  else poll_loop (length (serial_rx s)) s.

(** ** Notions used in the statements *)

(** Entry [i] of the table has the (non-null) name [n]. *)
Definition entry_named (cmds : list CLI_Command_t) (i : nat) (n : cstring)
    : Prop :=
  ∃ c, cmds !! i = Some c ∧ name c = Some n.

(** Entry [i] of the table has a name that starts with [t]. *)
Definition entry_starts_with (cmds : list CLI_Command_t) (i : nat)
    (t : cstring) : Prop :=
  ∃ n, entry_named cmds i n ∧ t `prefix_of` n.

(** The indices, from [i] on, of the entries whose name satisfies [f]. *)
Fixpoint matching_indices (f : cstring → bool) (i : nat)
    (cmds : list CLI_Command_t) : list nat :=
  match cmds with
  | [] => []
  | c :: cmds' =>
      match name c with
      | Some n =>
          if f n then i :: matching_indices f (S i) cmds'
          else matching_indices f (S i) cmds'
      | None => matching_indices f (S i) cmds'
      end
  end.

(** The tokens still to come when the loop is at its test: the one just
    returned by [strtok_r], and those of the text after [saveptr]. *)
Definition pending_tokens (token : option nat) (m : region) (saveptr : nat)
    : list cstring :=
  match token with
  | Some t => cstr_at m t :: tokens_of_line (cstr_at m saveptr)
  | None => []
  end.

(** The invariant of the line buffer: it is allocated, the cursor is
    below the capacity, and the byte under the cursor is the terminator. *)
Definition buffer_inv (s : ArduinoCLI) : Prop :=
  ∃ buf, _lineBuffer s = Some buf
         ∧ _bufferPos s < _maxLineLen s
         ∧ buf !! _bufferPos s = Some NUL.

(** What construction establishes besides: no undefined behaviour so far,
    both buffers allocated, the capacities in the fields not above the
    sizes of the allocations, and a line capacity not above the size of
    the local array of [_handleTab]. *)
Definition cli_wf (s : ArduinoCLI) : Prop :=
  undefined s = false
  ∧ ∃ buf argv_array,
      _lineBuffer s = Some buf ∧ _argv s = Some argv_array
      ∧ _maxLineLen s ≤ length buf
      ∧ _maxLineLen s ≤ CLI_DEFAULT_MAX_LINE_LEN
      ∧ 1 ≤ _maxArgs s ≤ length argv_array.

Definition cli_inv (s : ArduinoCLI) : Prop := cli_wf s ∧ buffer_inv s.

(** [s'] differs from [s] at most in the bytes written, the running
    flag, the handler calls recorded and the content of [_argv]. *)
Definition frame (s s' : ArduinoCLI) : Prop :=
  serial_rx s' = serial_rx s
  ∧ _commands s' = _commands s
  ∧ _lineBuffer s' = _lineBuffer s
  ∧ _maxLineLen s' = _maxLineLen s
  ∧ _bufferPos s' = _bufferPos s
  ∧ _maxArgs s' = _maxArgs s
  ∧ _prompt s' = _prompt s
  ∧ undefined s' = undefined s
  ∧ dispatched s' = dispatched s
  ∧ length <$> _argv s' = length <$> _argv s
  ∧ (∃ out, serial_tx s' = serial_tx s ++ out)
  ∧ (∃ calls, invoked s' = invoked s ++ calls).

(** The names, in table order, of the entries whose name satisfies [f]. *)
Fixpoint matching_names (f : cstring → bool) (cmds : list CLI_Command_t)
    : list cstring :=
  match cmds with
  | [] => []
  | c :: cmds' =>
      match name c with
      | Some n =>
          if f n then n :: matching_names f cmds' else matching_names f cmds'
      | None => matching_names f cmds'
      end
  end.

(** [s'] differs from [s] at most in the line buffer, the cursor and the
    bytes written. *)
Definition edit_frame (s s' : ArduinoCLI) : Prop :=
  serial_rx s' = serial_rx s
  ∧ _commands s' = _commands s
  ∧ _isRunning s' = _isRunning s
  ∧ _maxLineLen s' = _maxLineLen s
  ∧ _argv s' = _argv s
  ∧ _maxArgs s' = _maxArgs s
  ∧ _prompt s' = _prompt s
  ∧ undefined s' = undefined s
  ∧ dispatched s' = dispatched s
  ∧ invoked s' = invoked s.

(** CR and LF pair up, in either order. *)
Definition paired (c next_c : ascii) : bool :=
  ((c =? CR)%char && (next_c =? LF)%char)
  || ((c =? LF)%char && (next_c =? CR)%char).

(** [s'] has the same running flag as [s], and no line was dispatched
    and no handler called on the way from [s] to [s']. *)
Definition quiet (s s' : ArduinoCLI) : Prop :=
  dispatched s' = dispatched s
  ∧ invoked s' = invoked s
  ∧ _isRunning s' = _isRunning s.

(** The words of a line as the dispatcher sees them: the white space in
    front ([isspace]) is stepped over, the rest is cut into tokens, and at
    most [max_args - 1] of them are kept. *)
Definition line_words (max_args : nat) (text : cstring) : list cstring :=
  take (max_args - 1) (tokens_of_line (drop (skip_isspace text) text)).

(** What the dispatcher does once the words of the line are known. *)
Definition dispatch_words (toks : list cstring) (s1 : ArduinoCLI)
    : ArduinoCLI :=
  match toks with
  | [] => s1
  | arg0 :: _ =>
      match _findCommand (_commands s1) arg0 with
      | None => report_not_found arg0 s1
      | Some i =>
          match _commands s1 !! i with
          | None => s1
          | Some cmd =>
              let argc := Z.of_nat (length toks) in
              if (max_args cmd <? argc - 1)%Z
              then report_too_many cmd (argc - 1) s1
              else
                match func cmd with
                | Some h => call_handler i h argc toks (serial_println [] s1)
                | None => s1
                end
          end
      end
  end.

(** The names, in table order, of the entries whose name starts with
    [word]. *)
Definition names_starting_with (word : cstring) (cmds : list CLI_Command_t)
    : list cstring :=
  matching_names (λ n, bool_decide (word `prefix_of` n)) cmds.

(** The line of the help text for one entry; an entry without name has
    none. *)
Definition help_line (c : CLI_Command_t) : list ascii :=
  match name c with
  | None => []
  | Some n =>
      lit "  " ++ n ++ replicate (Nat.max 1 (15 - length n)) SPACE
      ++ lit "- " ++ default [] (help_text c)
      ++ lit " (max args: " ++ lit (pretty (max_args c)) ++ lit ")"
      ++ [CR; LF]
  end.


(** ** Instances used in the examples *)

(** A handler that prints ["ok"], and one that stops the session. *)
Definition handler_ok : cli_command_handler_t := λ _ _, [CallPrint (lit "ok")].

Definition command (n : string) (h : cli_command_handler_t) (max : Z)
    : CLI_Command_t :=
  {| name := Some (lit n); func := Some h; max_args := max;
     help_text := Some (lit "") |}.

(** The table of the specification's resolver example. *)
Definition help_halt_table : list CLI_Command_t :=
  [command "help" handler_ok 0; command "halt" handler_ok 0].

(** The table of the specification's completion example, with
    [max_args = 2] for [read]. *)
Definition read_table : list CLI_Command_t :=
  [command "read" handler_ok 2; command "reset" handler_ok 0;
   command "run" handler_ok 1].

(** A table with one command whose name has 62 characters. *)
Definition long_table : list CLI_Command_t :=
  [{| name := Some (replicate 62 "a"%char); func := None; max_args := 0;
      help_text := None |}].

(** A started instance with the default configuration, both allocations
    having succeeded, after the bytes [typed] have gone through [poll]. *)
Definition session (cmds : list CLI_Command_t) (typed : string) : ArduinoCLI :=
  poll (serial_receive (lit typed)
          (start (ArduinoCLI_new [] cmds (Some (replicate 64 NUL))
                    (Some (replicate 9 None))))).

(** A table with two names that have more in common than their first
    character. *)
Definition restart_table : list CLI_Command_t :=
  [command "reset" handler_ok 0; command "restart" handler_ok 0].

(** A table with one command, which accepts eight arguments. *)
Definition sum_table : list CLI_Command_t := [command "sum" handler_ok 8].


(** * Properties *)

(** Reduce the field updates and the stream writes, and nothing else. *)
Ltac cli_simpl :=
  cbn [set_serial_rx set_serial_tx set_isRunning set_lineBuffer
       set_maxLineLen set_bufferPos set_argv set_maxArgs set_prompt
       set_undefined set_dispatched set_invoked
       serial_write serial_println serial_print_int
       _printPrompt _printChar start stop _freeBuffers
       serial_rx serial_tx _commands _isRunning _lineBuffer _maxLineLen
       _bufferPos _argv _maxArgs _prompt undefined dispatched invoked].

Tactic Notation "cli_simpl" "in" hyp(H) :=
  cbn [set_serial_rx set_serial_tx set_isRunning set_lineBuffer
       set_maxLineLen set_bufferPos set_argv set_maxArgs set_prompt
       set_undefined set_dispatched set_invoked
       serial_write serial_println serial_print_int
       _printPrompt _printChar start stop _freeBuffers
       serial_rx serial_tx _commands _isRunning _lineBuffer _maxLineLen
       _bufferPos _argv _maxArgs _prompt undefined dispatched invoked] in H.

(** ** Characters and strings *)

Lemma ascii_eqb_true (x y : ascii) : (x =? y)%char = true ↔ x = y.
Proof. apply Ascii.eqb_eq. Qed.

Lemma strcmp_eq_true (a b : cstring) : strcmp_eq a b = true ↔ a = b.
Proof.
  revert b; induction a as [|x a IH]; intros [|y b]; simpl; try easy.
  rewrite andb_true_iff, ascii_eqb_true, IH. split.
  - intros [-> ->]; reflexivity.
  - intros [= -> ->]; auto.
Qed.

(** With [n] the length of [a], [strncmp(a, b, n) == 0] says that [b]
    starts with [a]. *)
Lemma strncmp_eq_prefix (a b : cstring) :
  strncmp_eq a b (strlen a) = true ↔ a `prefix_of` b.
Proof.
  unfold strlen. revert b; induction a as [|x a IH]; intros b; simpl.
  - split; [intros _; apply prefix_nil | reflexivity].
  - destruct b as [|y b].
    + split; [discriminate | intros H; exfalso; by apply prefix_nil_not in H].
    + rewrite andb_true_iff, ascii_eqb_true, IH. split.
      * intros [-> H]. by apply prefix_cons.
      * intros H. split; [by apply prefix_cons_inv_1 in H
                         | by apply prefix_cons_inv_2 in H].
Qed.

(** ** The resolver *)

Lemma matching_indices_elem (f : cstring → bool) (cmds : list CLI_Command_t) :
  ∀ i j, j ∈ matching_indices f i cmds ↔
         i ≤ j ∧ ∃ n, entry_named cmds (j - i) n ∧ f n = true.
Proof.
  unfold entry_named.
  induction cmds as [|c cmds IH]; intros i j; simpl.
  - split; [intros H; by apply elem_of_nil in H|].
    intros (_ & n & (c & Hc & _) & _). discriminate.
  - assert (Hstep : j ∈ matching_indices f (S i) cmds ↔
              S i ≤ j ∧ ∃ n, (∃ c', (c :: cmds) !! (j - i) = Some c'
                                      ∧ name c' = Some n) ∧ f n = true).
    { rewrite IH. split.
      - intros (Hle & n & (c' & Hc' & Hn) & Hf). split; [done|].
        exists n. split; [|done]. exists c'. split; [|done].
        replace (j - i) with (S (j - S i)) by lia. done.
      - intros (Hle & n & (c' & Hc' & Hn) & Hf). split; [done|].
        exists n. split; [|done]. exists c'. split; [|done].
        replace (j - i) with (S (j - S i)) in Hc' by lia. done. }
    assert (Hhere : ∀ n, name c = Some n → f n = true →
              (j = i ∨ j ∈ matching_indices f (S i) cmds) ↔
              i ≤ j ∧ ∃ n, (∃ c', (c :: cmds) !! (j - i) = Some c'
                                    ∧ name c' = Some n) ∧ f n = true).
    { intros n Hn Hf. rewrite Hstep. split.
      - intros [-> | (Hle & H)]; [|split; [lia | done]].
        split; [done|]. exists n. split; [|done]. exists c.
        by rewrite Nat.sub_diag.
      - intros (Hle & H). destruct (decide (j = i)) as [|Hne]; [by left|].
        right. split; [lia | done]. }
    assert (Hskip : (∀ n, name c = Some n → f n = false) →
              j ∈ matching_indices f (S i) cmds ↔
              i ≤ j ∧ ∃ n, (∃ c', (c :: cmds) !! (j - i) = Some c'
                                    ∧ name c' = Some n) ∧ f n = true).
    { intros Hno. rewrite Hstep. split.
      - intros (Hle & H). split; [lia | done].
      - intros (Hle & n & (c' & Hc' & Hn) & Hf).
        destruct (decide (j = i)) as [->|Hne].
        + rewrite Nat.sub_diag in Hc'. simpl in Hc'. injection Hc' as <-.
          rewrite (Hno n Hn) in Hf. discriminate.
        + split; [lia|]. exists n. split; [|done]. by exists c'. }
    destruct (name c) as [n|] eqn:Hn.
    + destruct (f n) eqn:Hf.
      * rewrite elem_of_cons. by apply (Hhere n).
      * apply Hskip. intros n' [= <-]. done.
    + apply Hskip. intros n' [=].
Qed.

Lemma matching_indices_ge (f : cstring → bool) (cmds : list CLI_Command_t)
    (i j : nat) :
  j ∈ matching_indices f i cmds → i ≤ j.
Proof. intros H. by apply matching_indices_elem in H as [? _]. Qed.

Lemma matching_indices_NoDup (f : cstring → bool)
    (cmds : list CLI_Command_t) :
  ∀ i, NoDup (matching_indices f i cmds).
Proof.
  induction cmds as [|c cmds IH]; intros i; simpl; [constructor|].
  destruct (name c) as [n|]; [|apply IH].
  destruct (f n); [|apply IH].
  constructor; [|apply IH].
  intros H. apply matching_indices_ge in H. lia.
Qed.

Lemma matching_indices_last (f : cstring → bool) (cmds : list CLI_Command_t) :
  ∀ i j, last (matching_indices f i cmds) = Some j →
         ∀ k, k ∈ matching_indices f i cmds → k ≤ j.
Proof.
  induction cmds as [|c cmds IH]; intros i j; simpl; [discriminate|].
  destruct (name c) as [n|]; [|apply IH].
  destruct (f n); [|apply IH].
  intros Hlast k Hk.
  destruct (matching_indices f (S i) cmds) as [|x l] eqn:Hm.
  - simpl in Hlast. injection Hlast as <-.
    apply list_elem_of_singleton in Hk. lia.
  - change (last (i :: x :: l)) with (last (x :: l)) in Hlast.
    rewrite <- Hm in Hlast, Hk.
    apply elem_of_cons in Hk as [-> | Hk]; [|by eapply IH].
    assert (j ∈ matching_indices f (S i) cmds) as Hj.
    { by apply last_Some_elem_of. }
    apply matching_indices_ge in Hj. lia.
Qed.

(** What the scan leaves in its three locals. *)
Lemma find_scan_locals (prefix : cstring) (prefix_len : nat)
    (cmds : list CLI_Command_t) :
  ∀ i v,
    let P := matching_indices (λ n, strncmp_eq prefix n prefix_len) i cmds in
    let E := matching_indices (strcmp_eq prefix) i cmds in
    find_scan prefix prefix_len i cmds v =
      {| found_cmd := match found_cmd v with
                      | Some j => Some j
                      | None => head P
                      end;
         exact_match := match last E with
                        | Some j => Some j
                        | None => exact_match v
                        end;
         match_count := (match_count v + Z.of_nat (length P))%Z |}.
Proof.
  induction cmds as [|c cmds IH]; intros i v; simpl.
  - destruct v as [fc em mc]; simpl. f_equal; [by destruct fc | lia].
  - rewrite IH. unfold find_iter.
    destruct (name c) as [n|]; [|done].
    destruct (strcmp_eq prefix n), (strncmp_eq prefix n prefix_len); simpl;
      f_equal; try lia; try (by destruct (found_cmd v)).
    all: destruct (matching_indices (strcmp_eq prefix) (S i) cmds)
           as [|x l]; [done|].
    all: change (last (i :: x :: l)) with (last (x :: l)).
    all: destruct (last (x :: l)) eqn:Hl; [done|].
    all: by apply last_None in Hl.
Qed.

(** [_findCommand] in closed form. *)
Lemma findCommand_closed (cmds : list CLI_Command_t) (t : cstring) :
  _findCommand cmds t =
    match t with
    | [] => None
    | _ :: _ =>
        match last (matching_indices (strcmp_eq t) 0 cmds) with
        | Some i => Some i
        | None =>
            match matching_indices (λ n, strncmp_eq t n (strlen t)) 0 cmds with
            | [i] => Some i
            | _ => None
            end
        end
    end.
Proof.
  unfold _findCommand. destruct t as [|x t]; [done|].
  change (strlen (x :: t) =? 0) with false. cbv iota.
  rewrite find_scan_locals. cbn [exact_match match_count found_cmd].
  destruct (last _) as [i|]; [done|].
  destruct (matching_indices _ 0 cmds) as [|i [|j l]]; try done.
  cbn [length]. destruct (_ =? _)%Z eqn:H; [|done].
  apply Z.eqb_eq in H. lia.
Qed.

(** C1. Resolution of a token [t] against any command table: the empty
    token fails; for a non-empty token, when some entry is named exactly
    [t], an entry named [t] is returned, whatever else starts with [t] --
    the last one in table order, hence that very entry when no other
    entry has the same name; without an exact match, an entry whose name
    starts with [t] is returned when it is the only such entry, and
    resolution fails when there is no such entry or more than one. *)
Theorem findCommand_resolution (cmds : list CLI_Command_t) (t : cstring) :
  (t = [] → _findCommand cmds t = None) ∧
  (t ≠ [] →
     ((∃ i, entry_named cmds i t) →
        ∃ i, _findCommand cmds t = Some i ∧ entry_named cmds i t
             ∧ ∀ j, entry_named cmds j t → j ≤ i)
     ∧ (∀ i, entry_named cmds i t →
             (∀ j, entry_named cmds j t → j = i) →
             _findCommand cmds t = Some i)
     ∧ ((¬ ∃ i, entry_named cmds i t) →
          (∀ i, entry_starts_with cmds i t →
                (∀ j, entry_starts_with cmds j t → j = i) →
                _findCommand cmds t = Some i)
          ∧ ((¬ ∃ i, entry_starts_with cmds i t) → _findCommand cmds t = None)
          ∧ (∀ i j, i ≠ j → entry_starts_with cmds i t →
                    entry_starts_with cmds j t →
                    _findCommand cmds t = None))).
Proof.
  assert (HE : ∀ i, i ∈ matching_indices (strcmp_eq t) 0 cmds
                    ↔ entry_named cmds i t).
  { intros i. rewrite matching_indices_elem, Nat.sub_0_r. split.
    - intros (_ & n & Hn & Heq). by apply strcmp_eq_true in Heq as <-.
    - intros Hn. split; [lia|]. exists t. split; [done|].
      by apply strcmp_eq_true. }
  assert (HP : ∀ i, i ∈ matching_indices (λ n, strncmp_eq t n (strlen t)) 0 cmds
                    ↔ entry_starts_with cmds i t).
  { intros i. rewrite matching_indices_elem, Nat.sub_0_r.
    unfold entry_starts_with. split.
    - intros (_ & n & Hn & Hp). exists n. split; [done|].
      by apply strncmp_eq_prefix.
    - intros (n & Hn & Hp). split; [lia|]. exists n. split; [done|].
      by apply strncmp_eq_prefix. }
  pose proof (matching_indices_NoDup (λ n, strncmp_eq t n (strlen t)) cmds 0)
    as Hnd.
  pose proof (matching_indices_last (strcmp_eq t) cmds 0) as Hlast.
  rewrite findCommand_closed. split; [by intros ->|].
  intros Hne. destruct t as [|x t]; [done|]. clear Hne.
  assert (Hexact : (∃ i, entry_named cmds i (x :: t)) →
            ∃ i, match last (matching_indices (strcmp_eq (x :: t)) 0 cmds) with
                 | Some i => Some i
                 | None =>
                     match matching_indices
                             (λ n, strncmp_eq (x :: t) n (strlen (x :: t)))
                             0 cmds with
                     | [i] => Some i
                     | _ => None
                     end
                 end = Some i
                 ∧ entry_named cmds i (x :: t)
                 ∧ ∀ j, entry_named cmds j (x :: t) → j ≤ i).
  { intros [i Hi]. apply HE in Hi.
    destruct (last (matching_indices (strcmp_eq (x :: t)) 0 cmds))
      as [k|] eqn:Hk.
    + exists k. split; [done|]. split.
      * apply HE. by apply last_Some_elem_of.
      * intros j Hj. apply (Hlast k eq_refl). by apply HE.
    + apply last_None in Hk. rewrite Hk in Hi. by apply elem_of_nil in Hi. }
  split; [exact Hexact|]. split.
  - intros i Hi Huniq. destruct Hexact as (k & Hk & Hnamed & _); [eauto|].
    rewrite Hk. f_equal. by apply Huniq.
  - intros Hnone.
    assert (last (matching_indices (strcmp_eq (x :: t)) 0 cmds) = None) as ->.
    { destruct (last _) as [k|] eqn:Hk; [|done]. exfalso. apply Hnone.
      exists k. apply HE. by apply last_Some_elem_of. }
    destruct (matching_indices (λ n, strncmp_eq (x :: t) n (strlen (x :: t)))
                0 cmds) as [|a [|b l]] eqn:HM.
    + split; [|split; [done | done]].
      intros i Hi _. apply HP in Hi. by apply elem_of_nil in Hi.
    + split; [|split].
      * intros i Hi _. apply HP in Hi. apply list_elem_of_singleton in Hi.
        by subst.
      * intros Hno. exfalso. apply Hno. exists a. apply HP.
        by apply list_elem_of_singleton.
      * intros i j Hij Hi Hj. apply HP in Hi, Hj.
        apply list_elem_of_singleton in Hi, Hj. congruence.
    + split; [|split; [done | done]].
      intros i Hi Huniq.
      assert (a = i) by (apply Huniq, HP, elem_of_cons; by left).
      assert (b = i).
      { apply Huniq, HP, elem_of_cons. right. apply elem_of_cons. by left. }
      subst. apply NoDup_cons_1_1 in Hnd. exfalso. apply Hnd, elem_of_cons.
      by left.
Qed.

(** ** Strings in memory *)

Lemma until_nul_length (l : list ascii) : length (until_nul l) ≤ length l.
Proof.
  induction l as [|c l IH]; simpl; [lia|].
  destruct (c =? NUL)%char; simpl; lia.
Qed.

Lemma until_nul_no_nul (l : list ascii) : NUL ∉ until_nul l.
Proof.
  induction l as [|c l IH]; simpl; [apply not_elem_of_nil|].
  destruct (c =? NUL)%char eqn:Hc; [apply not_elem_of_nil|].
  apply not_elem_of_cons. split; [|done].
  intros <-. by rewrite Ascii.eqb_refl in Hc.
Qed.

Lemma until_nul_lookup (l : list ascii) (i : nat) :
  i < length (until_nul l) → l !! i = until_nul l !! i.
Proof.
  revert i; induction l as [|c l IH]; intros i; simpl; [lia|].
  destruct (c =? NUL)%char; simpl; [lia|].
  destruct i as [|i]; [done|]. intros H. apply IH. lia.
Qed.

(** Right after the string comes its terminator, or the end of the
    region. *)
Lemma until_nul_end (l : list ascii) :
  l !! length (until_nul l) = Some NUL ∨ l !! length (until_nul l) = None.
Proof.
  induction l as [|c l IH]; simpl; [by right|].
  destruct (c =? NUL)%char eqn:Hc; simpl; [|done].
  left. by apply Ascii.eqb_eq in Hc as ->.
Qed.

Lemma until_nul_drop (l : list ascii) (k : nat) :
  k ≤ length (until_nul l) → until_nul (drop k l) = drop k (until_nul l).
Proof.
  revert k; induction l as [|c l IH]; intros k; simpl.
  - by rewrite drop_nil.
  - destruct k as [|k]; [done|].
    destruct (c =? NUL)%char; simpl; [lia|].
    intros H. apply IH. lia.
Qed.

(** Storing a terminator at index [e] cuts the string there. *)
Lemma until_nul_insert (l : list ascii) (e : nat) :
  until_nul (<[e := NUL]> l) = take e (until_nul l).
Proof.
  revert e; induction l as [|c l IH]; intros e; simpl.
  - by rewrite take_nil.
  - destruct e as [|e]; simpl.
    + by destruct (c =? NUL)%char.
    + destruct (c =? NUL)%char; [done|]. simpl. by rewrite IH.
Qed.

Lemma until_nul_id (l : list ascii) : NUL ∉ l → until_nul l = l.
Proof.
  induction l as [|c l IH]; [done|]. intros H.
  apply not_elem_of_cons in H as [Hc Hl]. simpl.
  destruct (c =? NUL)%char eqn:E.
  - apply Ascii.eqb_eq in E. congruence.
  - by rewrite IH.
Qed.

Lemma until_nul_app_nul (w rest : list ascii) :
  NUL ∉ w → until_nul (w ++ NUL :: rest) = w.
Proof.
  induction w as [|c w IH]; [done|]. intros H.
  apply not_elem_of_cons in H as [Hc Hl]. simpl.
  destruct (c =? NUL)%char eqn:E.
  - apply Ascii.eqb_eq in E. congruence.
  - by rewrite IH.
Qed.

Lemma cstr_at_length (m : region) (p : nat) :
  p + length (cstr_at m p) ≤ max p (length m).
Proof.
  unfold cstr_at. pose proof (until_nul_length (drop p m)) as H.
  rewrite length_drop in H. lia.
Qed.

Lemma cstr_at_shift (m : region) (p k : nat) :
  k ≤ length (cstr_at m p) → cstr_at m (p + k) = drop k (cstr_at m p).
Proof.
  unfold cstr_at. intros H. rewrite <- until_nul_drop by done.
  by rewrite drop_drop.
Qed.

Lemma cstr_at_lookup (m : region) (p i : nat) :
  i < length (cstr_at m p) → m !! (p + i) = cstr_at m p !! i.
Proof.
  unfold cstr_at. intros H. rewrite <- until_nul_lookup by done.
  by rewrite lookup_drop.
Qed.

Lemma cstr_at_end (m : region) (p : nat) :
  m !! (p + length (cstr_at m p)) = Some NUL
  ∨ m !! (p + length (cstr_at m p)) = None.
Proof.
  unfold cstr_at. rewrite <- lookup_drop. apply until_nul_end.
Qed.

Lemma cstr_at_insert_nul (m : region) (p e : nat) :
  p ≤ e → cstr_at (<[e := NUL]> m) p = take (e - p) (cstr_at m p).
Proof.
  unfold cstr_at. intros H.
  rewrite drop_insert_ge by done. apply until_nul_insert.
Qed.

Lemma cstr_at_insert_after (m : region) (p e : nat) :
  p + length (cstr_at m p) ≤ e → cstr_at (<[e := NUL]> m) p = cstr_at m p.
Proof.
  intros H. rewrite cstr_at_insert_nul by lia. apply take_ge. lia.
Qed.

Lemma cstr_at_nil (m : region) (p : nat) :
  m !! p = Some NUL ∨ m !! p = None → cstr_at m p = [].
Proof.
  unfold cstr_at. rewrite <- (Nat.add_0_r p) at 1 2. rewrite <- !lookup_drop.
  destruct (drop p m) as [|c l]; [done|]. simpl.
  intros [[= ->] | [=]]. done.
Qed.

(** ** The tokenizer *)

Lemma strspn_le (s accept : cstring) : strspn s accept ≤ length s.
Proof.
  induction s as [|c s IH]; simpl; [lia|].
  destruct (strchr_found accept c); simpl; lia.
Qed.

Lemma strcspn_le (s reject : cstring) : strcspn s reject ≤ length s.
Proof.
  induction s as [|c s IH]; simpl; [lia|].
  destruct (strchr_found reject c); simpl; lia.
Qed.

Lemma strcspn_stops (s reject : cstring) :
  strcspn s reject < length s →
  ∃ d, s !! strcspn s reject = Some d ∧ strchr_found reject d = true.
Proof.
  induction s as [|c s IH]; simpl; [lia|].
  destruct (strchr_found reject c) eqn:Hc; simpl.
  - intros _. by exists c.
  - intros H. apply IH. lia.
Qed.

Lemma is_delim_not_nul (d : ascii) : is_delim d = true → d ≠ NUL.
Proof. intros H ->. discriminate. Qed.

Lemma strspn_cons (c : ascii) (s : cstring) :
  strspn (c :: s) delimiters
  = if is_delim c then S (strspn s delimiters) else 0.
Proof. reflexivity. Qed.

Lemma strcspn_cons (c : ascii) (s : cstring) :
  strcspn (c :: s) delimiters
  = if is_delim c then 0 else S (strcspn s delimiters).
Proof. reflexivity. Qed.

Lemma tokens_of_line_cons (c : ascii) (s : cstring) :
  tokens_of_line (c :: s) =
    if is_delim c then tokens_of_line s
    else
      match s, tokens_of_line s with
      | d :: _, w :: ws =>
          if is_delim d then [c] :: tokens_of_line s else (c :: w) :: ws
      | _, _ => [c] :: tokens_of_line s
      end.
Proof. by destruct s. Qed.

Lemma tokens_of_line_skip (s : cstring) :
  tokens_of_line s = tokens_of_line (drop (strspn s delimiters) s).
Proof.
  induction s as [|c s IH]; [done|].
  rewrite strspn_cons, tokens_of_line_cons.
  destruct (is_delim c) eqn:Hc; [done|].
  rewrite drop_0, tokens_of_line_cons. by rewrite Hc.
Qed.

Lemma strspn_stops (s : cstring) (c : ascii) (r : cstring) :
  drop (strspn s delimiters) s = c :: r → is_delim c = false.
Proof.
  induction s as [|x s IH]; [done|]. rewrite strspn_cons.
  destruct (is_delim x) eqn:Hx; [done|].
  rewrite drop_0. by intros [= <- <-].
Qed.

Lemma tokens_of_line_first (c : ascii) (r : cstring) :
  is_delim c = false →
  tokens_of_line (c :: r) =
    take (strcspn (c :: r) delimiters) (c :: r)
    :: tokens_of_line (drop (S (strcspn (c :: r) delimiters)) (c :: r)).
Proof.
  revert c; induction r as [|d r IH]; intros c Hc.
  - rewrite tokens_of_line_cons, strcspn_cons, Hc. done.
  - rewrite tokens_of_line_cons, strcspn_cons, Hc.
    destruct (is_delim d) eqn:Hd.
    + rewrite strcspn_cons, Hd. cbn [take drop].
      rewrite tokens_of_line_cons, Hd, drop_0.
      by destruct (tokens_of_line r).
    + rewrite (IH d Hd). done.
Qed.

Lemma strcspn_pos (c : ascii) (r : cstring) :
  is_delim c = false → 1 ≤ strcspn (c :: r) delimiters.
Proof. intros H. rewrite strcspn_cons, H. lia. Qed.

Lemma tokens_of_line_length (s : cstring) :
  length (tokens_of_line s) ≤ length s.
Proof.
  induction s as [|c s IH]; [done|]. rewrite tokens_of_line_cons.
  cbn [length] in *.
  destruct (is_delim c); [lia|].
  destruct s as [|d s']; [simpl; lia|].
  destruct (tokens_of_line (d :: s')) as [|w ws]; [simpl; lia|].
  destruct (is_delim d); cbn [length] in *; lia.
Qed.

(** Every token is a non-empty run of characters that are not
    delimiters. *)
Lemma tokens_of_line_wf (s : cstring) :
  Forall (λ w, w ≠ [] ∧ Forall (λ c, is_delim c = false) w)
    (tokens_of_line s).
Proof.
  induction s as [|c s IH]; [constructor|]. rewrite tokens_of_line_cons.
  destruct (is_delim c) eqn:Hc; [done|].
  destruct s as [|d s']; [by repeat constructor|].
  destruct (tokens_of_line (d :: s')) as [|w ws].
  - by repeat constructor.
  - destruct (is_delim d).
    + constructor; [|done]. by repeat constructor.
    + inversion IH as [|? ? [Hw1 Hw2] Hws]; subst.
      constructor; [|done]. split; [done|]. by constructor.
Qed.

(** One call of [strtok_r] against [tokens_of_line]. *)
Lemma strtok_r_spec (m : region) (s : nat) :
  match strtok_r m s with
  | (None, m', save') =>
      m' = m ∧ s ≤ save' ∧ tokens_of_line (cstr_at m s) = []
  | (Some t, m', save') =>
      tokens_of_line (cstr_at m s)
        = cstr_at m' t :: tokens_of_line (cstr_at m' save')
      ∧ s ≤ t
      ∧ t + length (cstr_at m' t) ≤ save'
      ∧ length m' = length m
      ∧ ∀ q, q + length (cstr_at m q) ≤ s → cstr_at m' q = cstr_at m q
  end.
Proof.
  unfold strtok_r.
  pose proof (strspn_le (cstr_at m s) delimiters) as Hn1.
  set (n1 := strspn (cstr_at m s) delimiters) in *.
  rewrite (tokens_of_line_skip (cstr_at m s)). fold n1.
  rewrite (cstr_at_shift m s n1 Hn1).
  destruct (drop n1 (cstr_at m s)) as [|c r] eqn:Hr;
    [split; [done|split; [lia|done]]|].
  assert (Hc : is_delim c = false) by (by eapply strspn_stops).
  assert (Htok : cstr_at m (s + n1) = c :: r)
    by (by rewrite cstr_at_shift, Hr).
  pose proof (strcspn_le (c :: r) delimiters) as Hn2.
  pose proof (strcspn_pos c r Hc) as Hn2'.
  rewrite (tokens_of_line_first c r Hc).
  set (n2 := strcspn (c :: r) delimiters) in *.
  destruct (decide (n2 < length (c :: r))) as [Hlt|Hge].
  - (* the token is followed by a delimiter, which is overwritten *)
    destruct (strcspn_stops (c :: r) delimiters Hlt) as (d & Hd & Hdd).
    fold n2 in Hd.
    assert (m !! (s + n1 + n2) = Some d) as ->.
    { rewrite cstr_at_lookup by (rewrite Htok; done). by rewrite Htok. }
    assert ((d =? NUL)%char = false) as ->.
    { apply Ascii.eqb_neq. by apply is_delim_not_nul. }
    assert (Hcut : cstr_at (<[s + n1 + n2 := NUL]> m) (s + n1)
                   = take n2 (c :: r)).
    { rewrite cstr_at_insert_nul by lia. rewrite Htok. f_equal. lia. }
    rewrite Hcut. split; [|split; [lia|split; [|split]]].
    + f_equal. f_equal.
      replace (S (s + n1 + n2)) with (s + n1 + n2 + 1) by lia.
      unfold cstr_at at 1.
      rewrite <- drop_drop, (drop_insert_ge _ (s + n1 + n2)) by lia.
      rewrite Nat.sub_diag.
      assert (Hm : drop (s + n1 + n2) m = d :: drop (s + n1 + n2 + 1) m).
      { replace (s + n1 + n2 + 1) with (S (s + n1 + n2)) by lia.
        apply drop_S.
        rewrite cstr_at_lookup by (rewrite Htok; done). by rewrite Htok. }
      rewrite Hm. simpl. rewrite drop_0.
      change (until_nul (drop (s + n1 + n2 + 1) m))
        with (cstr_at m (s + n1 + n2 + 1)).
      replace (s + n1 + n2 + 1) with (s + n1 + S n2) by lia.
      rewrite cstr_at_shift by (rewrite Htok; simpl in *; lia).
      by rewrite Htok.
    + rewrite length_take. lia.
    + apply length_insert.
    + intros q Hq. apply cstr_at_insert_after. lia.
  - (* the token runs up to the terminator of the line *)
    assert (n2 = length (c :: r)) as Hn2eq by lia.
    assert (Hend : m !! (s + n1 + n2) = Some NUL ∨ m !! (s + n1 + n2) = None).
    { rewrite Hn2eq, <- Htok. apply cstr_at_end. }
    assert (Hres :
      tokens_of_line (take n2 (c :: r) ++ []) = tokens_of_line (c :: r) →
      take n2 (c :: r) :: tokens_of_line (drop (S n2) (c :: r))
        = cstr_at m (s + n1) :: tokens_of_line (cstr_at m (s + n1 + n2))
      ∧ s ≤ s + n1
      ∧ s + n1 + length (cstr_at m (s + n1)) ≤ s + n1 + n2
      ∧ length m = length m
      ∧ ∀ q, q + length (cstr_at m q) ≤ s → cstr_at m q = cstr_at m q).
    { intros _. rewrite (cstr_at_nil m (s + n1 + n2) Hend), Htok.
      rewrite take_ge, drop_ge by lia. split; [done|].
      split; [lia|]. split; [lia|]. done. }
    destruct Hend as [-> | ->]; [rewrite Ascii.eqb_refl|]; apply Hres.
    all: by rewrite app_nil_r, take_ge by lia.
Qed.

Lemma strtok_r_pending (m : region) (s : nat) :
  let '(token, m', save') := strtok_r m s in
  tokens_of_line (cstr_at m s) = pending_tokens token m' save'
  ∧ length m' = length m
  ∧ (∀ q, q + length (cstr_at m q) ≤ s → cstr_at m' q = cstr_at m q)
  ∧ s ≤ save'
  ∧ match token with
    | Some t => t + length (cstr_at m' t) ≤ save'
    | None => True
    end.
Proof.
  pose proof (strtok_r_spec m s) as H.
  destruct (strtok_r m s) as [[[t|] m'] save']; simpl.
  - destruct H as (H1 & H2 & H3 & H4 & H5).
    repeat split; try done. lia.
  - destruct H as (-> & H1 & H2). done.
Qed.

(** The loop of [_splitLine], from any of its states: [ts] are the token
    pointers stored so far. *)
Lemma split_loop_spec (max_args_local : nat) :
  ∀ fuel token m saveptr argv_local argc ub ts,
    length (pending_tokens token m saveptr) < fuel →
    length ts = argc →
    (∀ t, t ∈ ts → t + length (cstr_at m t) ≤ saveptr) →
    match token with
    | Some t => t + length (cstr_at m t) ≤ saveptr
    | None => True
    end →
    let r := split_loop fuel max_args_local token m saveptr argv_local argc ub in
    let k := Nat.min (length (pending_tokens token m saveptr))
               (size_sub max_args_local 1 - argc) in
    sr_argc r = argc + k
    ∧ (argc + k < length argv_local →
       take argc argv_local = Some <$> ts →
       sr_undefined r = ub
       ∧ argv_strings r
         = (cstr_at m <$> ts) ++ take k (pending_tokens token m saveptr)
       ∧ sr_argv r !! (argc + k) = Some None
       ∧ length (sr_argv r) = length argv_local).
Proof.
  induction fuel as [|fuel IH];
    intros token m saveptr argv_local argc ub ts Hfuel Hts Hstable Htok;
    [lia|].
  cbn [split_loop].
  set (fin := {| sr_argc := argc; sr_line := m;
                 sr_argv := <[argc := None]> argv_local;
                 sr_undefined := ub || negb (argc <? length argv_local) |}).
  assert (Hfinish : ∀ k, k = 0 →
    sr_argc fin = argc + k
    ∧ (argc + k < length argv_local →
       take argc argv_local = Some <$> ts →
       sr_undefined fin = ub
       ∧ argv_strings fin
         = (cstr_at m <$> ts) ++ take k (pending_tokens token m saveptr)
       ∧ sr_argv fin !! (argc + k) = Some None
       ∧ length (sr_argv fin) = length argv_local)).
  { intros k ->. subst fin. cbn [sr_argc sr_undefined sr_argv].
    split; [lia|]. rewrite Nat.add_0_r. intros Hlen Htake.
    unfold argv_strings. cbn [sr_argc sr_argv sr_line].
    rewrite take_insert_ge, Htake, take_0, app_nil_r by lia.
    rewrite list_lookup_insert_eq, length_insert by done.
    assert ((argc <? length argv_local) = true) as Hin
      by (apply Nat.ltb_lt; lia).
    rewrite Hin, orb_false_r, <- list_fmap_compose. done. }
  destruct token as [t|]; [|apply Hfinish; done].
  destruct (argc <? size_sub max_args_local 1) eqn:Hroom;
    [|apply Hfinish; apply Nat.ltb_ge in Hroom; lia].
  clear Hfinish fin. apply Nat.ltb_lt in Hroom.
  pose proof (strtok_r_pending m saveptr) as Hstep.
  destruct (strtok_r m saveptr) as [[token' m'] save'].
  destruct Hstep as (Hpend & Hlen & Hkeep & Hmono & Htok').
  cbn [pending_tokens] in *. rewrite Hpend in *.
  specialize (IH token' m' save' (<[argc := Some t]> argv_local) (S argc)
                (ub || negb (argc <? length argv_local)) (ts ++ [t])).
  cbv zeta in IH. destruct IH as [IH1 IH2].
  - cbn [length] in Hfuel. lia.
  - rewrite length_app. simpl. lia.
  - intros q Hq.
    assert (q + length (cstr_at m q) ≤ saveptr) as Hq'.
    { apply elem_of_app in Hq as [Hq | Hq]; [by apply Hstable|].
      apply list_elem_of_singleton in Hq as ->. done. }
    rewrite (Hkeep q Hq'). lia.
  - done.
  - set (P' := pending_tokens token' m' save') in *.
    set (R := split_loop _ _ _ _ _ _ _ _) in *.
    set (k' := Nat.min (length P') (size_sub max_args_local 1 - S argc)) in *.
    assert (Hk : Nat.min (length (cstr_at m t :: P'))
                   (size_sub max_args_local 1 - argc) = S k')
      by (subst k'; cbn [length]; lia).
    rewrite Hk. split; [lia|]. intros Hin Htake.
    assert ((argc <? length argv_local) = true) as Hin'
      by (apply Nat.ltb_lt; lia).
    rewrite Hin', orb_false_r in IH2.
    destruct IH2 as (U1 & U2 & U3 & U4).
    { rewrite length_insert. lia. }
    { rewrite (take_S_r _ _ (Some t))
        by (apply list_lookup_insert_eq; lia).
      rewrite take_insert_ge, Htake, fmap_app by lia. done. }
    split; [done|]. split; [|split].
    + rewrite U2, fmap_app, <- app_assoc. cbn [take fmap list_fmap app].
      f_equal; [|f_equal; apply Hkeep; done].
      apply list_fmap_ext. intros i q Hq. apply Hkeep, Hstable.
      by eapply list_elem_of_lookup_2.
    + rewrite <- U3. f_equal. lia.
    + by rewrite U4, length_insert.
Qed.

(** What [_splitLine] computes: [argc] is the number of tokens of the
    line, capped at [max_args_local - 1]; and when [argv_local] has
    [max_args_local] elements (at least one), no store leaves it, the
    strings of [argv] are the first [argc] tokens, and [argv[argc]] is
    null. *)
Lemma splitLine_spec (m : region) (line : nat)
    (argv_local : list (option nat)) (max_args_local : nat) :
  let r := _splitLine m line argv_local max_args_local in
  let toks := tokens_of_line (cstr_at m line) in
  sr_argc r = Nat.min (length toks) (size_sub max_args_local 1)
  ∧ (1 ≤ max_args_local ≤ length argv_local →
     sr_undefined r = false
     ∧ argv_strings r = take (size_sub max_args_local 1) toks
     ∧ sr_argv r !! sr_argc r = Some None
     ∧ length (sr_argv r) = length argv_local).
Proof.
  unfold _splitLine.
  pose proof (strtok_r_pending m line) as Hstep.
  destruct (strtok_r m line) as [[token m'] save'].
  destruct Hstep as (Hpend & Hlen & Hkeep & Hmono & Htok).
  cbv zeta. rewrite Hpend.
  pose proof (split_loop_spec max_args_local (S (length m)) token m' save'
                argv_local 0 false []) as H.
  cbv zeta in H. rewrite Nat.sub_0_r in H. destruct H as [H1 H2].
  - rewrite <- Hpend.
    pose proof (tokens_of_line_length (cstr_at m line)).
    pose proof (cstr_at_length m line). lia.
  - done.
  - intros t Ht. by apply elem_of_nil in Ht.
  - done.
  - split; [by rewrite H1|]. intros Hmax.
    assert (Hsub : size_sub max_args_local 1 = max_args_local - 1).
    { unfold size_sub. destruct (1 <=? max_args_local) eqn:E; [done|].
      apply Nat.leb_gt in E. lia. }
    destruct H2 as (U1 & U2 & U3 & U4); [lia | done |].
    rewrite H1. split; [done|]. split; [|done].
    rewrite U2. simpl. rewrite <- take_take. apply take_ge.
    rewrite length_take. lia.
Qed.


Lemma strchr_found_elem (s : cstring) (c : ascii) :
  strchr_found s c = true ↔ c ∈ s.
Proof.
  unfold strchr_found. induction s as [|x s IH]; simpl.
  - split; [discriminate | intros H; by apply elem_of_nil in H].
  - rewrite orb_true_iff, IH, elem_of_cons, Ascii.eqb_eq.
    split; (intros [-> | H]; [by left | by right]).
Qed.

Lemma is_delim_elem (c : ascii) : is_delim c = true ↔ c ∈ delimiters.
Proof. apply strchr_found_elem. Qed.

Lemma is_delim_false (c : ascii) : is_delim c = false ↔ c ∉ delimiters.
Proof.
  rewrite <- is_delim_elem. destruct (is_delim c); split; done.
Qed.

(** Delimiters in front of a line produce nothing. *)
Lemma tokens_of_line_delims (ds s : cstring) :
  Forall (λ c, c ∈ delimiters) ds →
  tokens_of_line (ds ++ s) = tokens_of_line s.
Proof.
  induction 1 as [|d ds Hd _ IH]; [done|].
  rewrite <- app_comm_cons, tokens_of_line_cons.
  apply is_delim_elem in Hd. by rewrite Hd.
Qed.

(** A run of other characters up to a delimiter, or up to the end of the
    line, is one token. *)
Lemma tokens_of_line_word (w : cstring) (d : ascii) (s : cstring) :
  w ≠ [] → Forall (λ c, c ∉ delimiters) w → d ∈ delimiters →
  tokens_of_line (w ++ d :: s) = w :: tokens_of_line s.
Proof.
  intros Hne Hw Hd. apply is_delim_elem in Hd.
  induction Hw as [|c w Hc Hw IH]; [done|].
  apply is_delim_false in Hc.
  rewrite <- app_comm_cons, tokens_of_line_cons, Hc.
  destruct w as [|c' w].
  - cbn [app]. rewrite (tokens_of_line_cons d s), Hd.
    by destruct (tokens_of_line s).
  - cbn [app] in IH |- *. rewrite IH by done.
    inversion Hw as [|? ? Hc' _]; subst. apply is_delim_false in Hc'.
    by rewrite Hc'.
Qed.

Lemma tokens_of_line_last_word (w : cstring) :
  w ≠ [] → Forall (λ c, c ∉ delimiters) w → tokens_of_line w = [w].
Proof.
  intros Hne Hw.
  induction Hw as [|c w Hc Hw IH]; [done|].
  apply is_delim_false in Hc. rewrite tokens_of_line_cons, Hc.
  destruct w as [|c' w]; [done|].
  rewrite IH by done.
  inversion Hw as [|? ? Hc' _]; subst. apply is_delim_false in Hc'.
  by rewrite Hc'.
Qed.

(** C6. [_splitLine] on a NUL-terminated line, with room for the result:
    the strings of [argv] are the leading tokens of the line, where a token
    is a maximal run of characters other than space, tab, CR, LF and bell;
    [argc] is their number; no token is empty or contains a delimiter; a
    line of delimiters only gives [argc = 0]; and the line
    ["  set  x 1 "] gives the tokens ["set"], ["x"], ["1"] and
    [argc = 3]. *)
Theorem splitLine_tokenizes (argv_local : list (option nat))
    (max_args_local : nat) (line : cstring) (rest : region) :
  1 ≤ max_args_local ≤ length argv_local →
  NUL ∉ line →
  let r := _splitLine (line ++ NUL :: rest) 0 argv_local max_args_local in
  delimiters = [SPACE; TAB; CR; LF; BEL]
  ∧ argv_strings r = take (max_args_local - 1) (tokens_of_line line)
  ∧ sr_argc r = length (argv_strings r)
  ∧ sr_undefined r = false
  ∧ Forall (λ w, w ≠ [] ∧ Forall (λ c, c ∉ delimiters) w) (argv_strings r)
  ∧ (Forall (λ c, c ∈ delimiters) line → sr_argc r = 0)
  ∧ (line = lit "  set  x 1 " → 4 ≤ max_args_local →
     argv_strings r = [lit "set"; lit "x"; lit "1"] ∧ sr_argc r = 3).
Proof.
  intros Hmax Hline r.
  pose proof (splitLine_spec (line ++ NUL :: rest) 0 argv_local
                max_args_local) as [Hc Hs].
  cbv zeta in Hc, Hs. fold r in Hc, Hs.
  destruct (Hs Hmax) as (U1 & U2 & U3 & U4). clear Hs.
  assert (Hstr : cstr_at (line ++ NUL :: rest) 0 = line).
  { unfold cstr_at. rewrite drop_0. by apply until_nul_app_nul. }
  rewrite Hstr in *.
  assert (Hsub : size_sub max_args_local 1 = max_args_local - 1).
  { unfold size_sub. destruct (1 <=? max_args_local) eqn:E; [done|].
    apply Nat.leb_gt in E. lia. }
  rewrite Hsub in *.
  split; [done|]. split; [done|].
  split; [rewrite U2, length_take, Hc; lia|]. split; [done|].
  split; [|split].
  - rewrite U2. apply Forall_take.
    eapply Forall_impl; [apply tokens_of_line_wf|].
    intros w [Hw1 Hw2]. split; [done|].
    eapply Forall_impl; [exact Hw2|]. intros c. apply is_delim_false.
  - intros Hd. rewrite Hc.
    rewrite <- (app_nil_r line), tokens_of_line_delims by done. done.
  - intros -> H4. rewrite Hc, U2.
    assert (tokens_of_line (lit "  set  x 1 ")
            = [lit "set"; lit "x"; lit "1"]) as -> by reflexivity.
    split; [apply take_ge|]; cbn [length]; lia.
Qed.




(** *** The line after tokenizing *)

















(** ** Frames *)

Lemma frame_refl (s : ArduinoCLI) : frame s s.
Proof.
  repeat split; try done; exists []; by rewrite app_nil_r.
Qed.

Lemma frame_trans (s1 s2 s3 : ArduinoCLI) :
  frame s1 s2 → frame s2 s3 → frame s1 s3.
Proof.
  intros (A1 & A2 & A3 & A4 & A5 & A6 & A7 & A8 & A9 & A10 & [o1 A11] & [c1 A12])
         (B1 & B2 & B3 & B4 & B5 & B6 & B7 & B8 & B9 & B10 & [o2 B11] & [c2 B12]).
  repeat split; try congruence.
  - exists (o1 ++ o2). rewrite B11, A11. by rewrite app_assoc.
  - exists (c1 ++ c2). rewrite B12, A12. by rewrite app_assoc.
Qed.

Lemma frame_serial_write (bytes : list ascii) (s : ArduinoCLI) :
  frame s (serial_write bytes s).
Proof.
  repeat split; try done; cli_simpl; [by exists bytes|].
  exists []; by rewrite app_nil_r.
Qed.

Lemma frame_set_isRunning (b : bool) (s : ArduinoCLI) :
  frame s (set_isRunning b s).
Proof. repeat split; try done; exists []; cli_simpl; by rewrite app_nil_r. Qed.

Lemma frame_set_invoked_app calls (s : ArduinoCLI) :
  frame s (set_invoked (invoked s ++ calls) s).
Proof.
  repeat split; try done; cli_simpl; [|by exists calls].
  exists []; by rewrite app_nil_r.
Qed.

Lemma frame_printPrompt (s : ArduinoCLI) : frame s (_printPrompt s).
Proof.
  unfold _printPrompt.
  eapply frame_trans; [apply (frame_serial_write [CR; LF])|].
  apply frame_serial_write.
Qed.

Lemma frame_serial_println (bytes : list ascii) (s : ArduinoCLI) :
  frame s (serial_println bytes s).
Proof.
  unfold serial_println.
  eapply frame_trans; apply frame_serial_write.
Qed.

Lemma frame_printHelp_entry (c : CLI_Command_t) (s : ArduinoCLI) :
  frame s (printHelp_entry c s).
Proof.
  unfold printHelp_entry. destruct (name c) as [n|]; [|apply frame_refl].
  cbv zeta. unfold serial_print_int.
  repeat (eapply frame_trans;
          [|first [apply frame_serial_println | apply frame_serial_write]]).
  apply frame_refl.
Qed.

Lemma frame_printHelp (s : ArduinoCLI) : frame s (printHelp s).
Proof.
  unfold printHelp.
  eapply frame_trans; [apply (frame_serial_println (lit "Available commands:"))|].
  generalize (serial_println (lit "Available commands:") s) as s0.
  generalize (_commands s) as cmds.
  induction cmds as [|c cmds IH]; intros s0; simpl; [apply frame_refl|].
  eapply frame_trans; [apply (frame_printHelp_entry c)|]. apply IH.
Qed.

Lemma frame_api_exec (s : ArduinoCLI) (a : api_call) : frame s (api_exec s a).
Proof.
  destruct a; simpl.
  - apply frame_set_isRunning.
  - unfold start. eapply frame_trans; [apply (frame_set_isRunning true)|].
    apply frame_printPrompt.
  - apply frame_serial_write.
  - apply frame_printHelp.
Qed.

Lemma invoked_api_exec (s : ArduinoCLI) (a : api_call) :
  invoked (api_exec s a) = invoked s.
Proof.
  destruct a; try done. cbn [api_exec]. unfold printHelp.
  assert (∀ cmds s0,
            invoked (foldl (λ acc c, printHelp_entry c acc) s0 cmds)
            = invoked s0) as H.
  { induction cmds as [|c cmds IH]; intros s0; [done|].
    cbn [foldl]. rewrite IH. unfold printHelp_entry. by destruct (name c). }
  by rewrite H.
Qed.

Lemma frame_run_handler (calls : list api_call) (s : ArduinoCLI) :
  frame s (foldl api_exec s calls) ∧ invoked (foldl api_exec s calls) = invoked s.
Proof.
  revert s; induction calls as [|a calls IH]; intros s; simpl.
  - split; [apply frame_refl | done].
  - destruct (IH (api_exec s a)) as [H1 H2]. split.
    + eapply frame_trans; [apply frame_api_exec | done].
    + by rewrite H2, invoked_api_exec.
Qed.

Lemma frame_call_handler i h argc argv (s : ArduinoCLI) :
  frame s (call_handler i h argc argv s)
  ∧ invoked (call_handler i h argc argv s) = invoked s ++ [(i, argc, argv)].
Proof.
  unfold call_handler.
  destruct (frame_run_handler (h argc argv)
              (set_invoked (invoked s ++ [(i, argc, argv)]) s)) as [H1 H2].
  split; [|done].
  eapply frame_trans; [apply frame_set_invoked_app | done].
Qed.

Lemma split_loop_line_length (max_args_local : nat) :
  ∀ fuel token m saveptr argv_local argc ub,
    length (sr_line (split_loop fuel max_args_local token m saveptr
                       argv_local argc ub)) = length m.
Proof.
  induction fuel as [|fuel IH]; intros token m saveptr argv_local argc ub;
    [done|].
  cbn [split_loop]. destruct token as [t|]; [|done].
  destruct (argc <? size_sub max_args_local 1); [|done].
  pose proof (strtok_r_pending m saveptr) as Hstep.
  destruct (strtok_r m saveptr) as [[token' m'] save'].
  destruct Hstep as (_ & Hlen & _). by rewrite IH.
Qed.

Lemma splitLine_line_length (m : region) (line : nat)
    (argv_local : list (option nat)) (max_args_local : nat) :
  length (sr_line (_splitLine m line argv_local max_args_local)) = length m.
Proof.
  unfold _splitLine.
  pose proof (strtok_r_pending m line) as Hstep.
  destruct (strtok_r m line) as [[token m'] save'].
  destruct Hstep as (_ & Hlen & _). by rewrite split_loop_line_length.
Qed.

Lemma frame_report_not_found (arg0 : cstring) (s : ArduinoCLI) :
  frame s (report_not_found arg0 s).
Proof.
  unfold report_not_found. cbv zeta.
  destruct (_ <? _)%Z;
    repeat (eapply frame_trans;
            [|first [apply frame_serial_println | apply frame_serial_write]]);
    apply frame_refl.
Qed.

Lemma frame_report_too_many (cmd : CLI_Command_t) (user_args : Z)
    (s : ArduinoCLI) :
  frame s (report_too_many cmd user_args s).
Proof.
  unfold report_too_many, serial_print_int. cbv zeta.
  repeat (eapply frame_trans;
          [|first [apply frame_serial_println | apply frame_serial_write]]).
  apply frame_refl.
Qed.

Lemma frame_set_argv (argv_array argv' : list (option nat)) (s : ArduinoCLI) :
  _argv s = Some argv_array → length argv' = length argv_array →
  frame s (set_argv (Some argv') s).
Proof.
  intros H1 H2. repeat split; try done; cli_simpl.
  - rewrite H1. simpl. by rewrite H2.
  - exists []; by rewrite app_nil_r.
  - exists []; by rewrite app_nil_r.
Qed.

(** A line that goes through [_parseAndExecute] changes nothing outside
    the frame, and the tokenizer keeps the size of the line's region. *)
Lemma frame_parseAndExecute (m : region) (s : ArduinoCLI)
    (argv_array : list (option nat)) :
  _argv s = Some argv_array →
  1 ≤ _maxArgs s ≤ length argv_array →
  frame s (snd (_parseAndExecute m s))
  ∧ length (fst (_parseAndExecute m s)) = length m.
Proof.
  intros Hargv Hmax. unfold _parseAndExecute. rewrite Hargv.
  destruct (_lineBuffer s) as [buf|]; [|split; [apply frame_refl | done]].
  destruct (cstr_at m (skip_isspace (cstr_at m 0))) as [|c0 l0] eqn:Hline;
    [split; [apply frame_refl | done]|].
  set (r := _splitLine m (skip_isspace (cstr_at m 0)) argv_array (_maxArgs s)).
  pose proof (splitLine_spec m (skip_isspace (cstr_at m 0)) argv_array
                (_maxArgs s)) as [_ Hs].
  cbv zeta in Hs. fold r in Hs. destruct (Hs Hmax) as (U1 & U2 & U3 & U4).
  pose proof (splitLine_line_length m (skip_isspace (cstr_at m 0)) argv_array
                (_maxArgs s)) as Hlen. fold r in Hlen.
  cbv zeta. rewrite U1. cbn [flag_undefined].
  pose proof (frame_set_argv argv_array (sr_argv r) s Hargv U4) as F1.
  set (s1 := set_argv (Some (sr_argv r)) s) in *.
  destruct (_ =? 0)%Z; [done|].
  destruct (_findCommand _ _) as [i|].
  - destruct (_commands s1 !! i) as [cmd|]; [|done].
    destruct (_ <? _)%Z.
    + split; [|done]. eapply frame_trans; [exact F1|].
      apply frame_report_too_many.
    + destruct (func cmd) as [h|]; [|done]. split; [|done]. cbn [snd].
      eapply frame_trans; [exact F1|].
      eapply frame_trans; [apply (frame_serial_println [])|].
      apply frame_call_handler.
  - split; [|done]. eapply frame_trans; [exact F1|].
    apply frame_report_not_found.
Qed.

Lemma frame_cli_wf (s s' : ArduinoCLI) : frame s s' → cli_wf s → cli_wf s'.
Proof.
  intros (A1 & A2 & A3 & A4 & A5 & A6 & A7 & A8 & A9 & A10 & _ & _)
         (W1 & buf & av & W2 & W3 & W4 & W5 & W6).
  split; [congruence|].
  rewrite W3 in A10. destruct (_argv s') as [av'|] eqn:E; [|done].
  simpl in A10. injection A10 as A10.
  exists buf, av'. rewrite A3, A4, A6, A10. done.
Qed.

Lemma frame_buffer_inv (s s' : ArduinoCLI) :
  frame s s' → buffer_inv s → buffer_inv s'.
Proof.
  intros (A1 & A2 & A3 & A4 & A5 & _) (buf & B1 & B2 & B3).
  exists buf. rewrite A3, A4, A5. done.
Qed.

Lemma frame_cli_inv (s s' : ArduinoCLI) : frame s s' → cli_inv s → cli_inv s'.
Proof.
  intros F [W B]. split; [by eapply frame_cli_wf | by eapply frame_buffer_inv].
Qed.

(** ** Stores into the line buffer *)

Lemma buffer_store_in (i : nat) (c : ascii) (s : ArduinoCLI) (buf : region) :
  _lineBuffer s = Some buf → i < length buf →
  buffer_store i c s = set_lineBuffer (Some (<[i := c]> buf)) s.
Proof.
  intros H1 H2. unfold buffer_store. rewrite H1.
  assert ((i <? length buf) = true) as -> by (apply Nat.ltb_lt; lia). done.
Qed.

Lemma set_lineBuffer_twice v w (s : ArduinoCLI) :
  set_lineBuffer v (set_lineBuffer w s) = set_lineBuffer v s.
Proof. done. Qed.

Lemma buffer_strncpy_in (n : nat) :
  ∀ dst src s buf,
    _lineBuffer s = Some buf → dst + n ≤ length buf → n ≤ length src →
    buffer_strncpy dst src n s
    = set_lineBuffer
        (Some (take dst buf ++ take n src ++ drop (dst + n) buf)) s.
Proof.
  induction n as [|n IH]; intros dst src s buf Hbuf Hlen Hsrc.
  - cbn [buffer_strncpy take]. rewrite Nat.add_0_r, app_nil_l, take_drop.
    destruct s; cli_simpl in Hbuf; subst; done.
  - destruct src as [|c src]; [simpl in Hsrc; lia|].
    cbn [buffer_strncpy].
    rewrite (buffer_store_in dst c s buf) by (done || lia).
    rewrite (IH (S dst) src _ (<[dst := c]> buf)); cycle 1.
    + done.
    + rewrite length_insert. lia.
    + simpl in Hsrc. lia.
    + rewrite set_lineBuffer_twice. f_equal. f_equal.
      rewrite (take_S_r _ _ c) by (apply list_lookup_insert_eq; lia).
      rewrite take_insert_ge by lia.
      rewrite drop_insert_lt by lia.
      rewrite <- app_assoc. replace (S dst + n) with (dst + S n) by lia.
      reflexivity.
Qed.

Lemma insert_app_drop {A} (pre buf : list A) (k : nat) (x : A) :
  length pre = k → k < length buf →
  <[k := x]> (pre ++ drop k buf) = pre ++ x :: drop (S k) buf.
Proof.
  intros Hpre Hk.
  rewrite insert_app_r_alt by lia. rewrite Hpre, Nat.sub_diag.
  destruct (lookup_lt_is_Some_2 buf k Hk) as [y Hy].
  by rewrite (drop_S _ y _ Hy).
Qed.

(** The stores of the single-match path. *)
Lemma tab_single_stores (s : ArduinoCLI) (buf : region) (src : cstring)
    (pos rem : nat) :
  _lineBuffer s = Some buf → pos + rem + 1 < length buf → rem ≤ length src →
  buffer_store (pos + rem + 1) NUL
    (buffer_store (pos + rem) SPACE (buffer_strncpy pos src rem s))
  = set_lineBuffer
      (Some ((take pos buf ++ take rem src ++ [SPACE])
             ++ NUL :: drop (pos + rem + 2) buf)) s.
Proof.
  intros Hbuf Hlen Hsrc.
  rewrite (buffer_strncpy_in rem pos src s buf) by (done || lia).
  assert (Hpre : length (take pos buf ++ take rem src) = pos + rem).
  { rewrite length_app, !length_take. lia. }
  rewrite (buffer_store_in (pos + rem) SPACE _
             (take pos buf ++ take rem src ++ drop (pos + rem) buf)); cycle 1.
  { done. }
  { rewrite !length_app, !length_take, length_drop. lia. }
  rewrite set_lineBuffer_twice.
  rewrite (app_assoc (take pos buf)), insert_app_drop by (done || lia).
  rewrite (buffer_store_in (pos + rem + 1) NUL _
             ((take pos buf ++ take rem src) ++ SPACE :: drop (S (pos + rem)) buf));
    cycle 1.
  { done. }
  { rewrite length_app, Hpre. cbn [length]. rewrite length_drop. lia. }
  rewrite set_lineBuffer_twice. f_equal. f_equal.
  replace ((take pos buf ++ take rem src) ++ SPACE :: drop (S (pos + rem)) buf)
    with (((take pos buf ++ take rem src) ++ [SPACE])
          ++ drop (pos + rem + 1) buf).
  2:{ rewrite <- (app_assoc _ [SPACE]). cbn [app].
      replace (pos + rem + 1) with (S (pos + rem)) by lia. done. }
  rewrite insert_app_drop.
  - replace (S (pos + rem + 1)) with (pos + rem + 2) by lia.
    by rewrite <- (app_assoc (take pos buf)).
  - rewrite length_app, Hpre. cbn [length]. lia.
  - lia.
Qed.

(** The stores of the longest-common-prefix path. *)
Lemma tab_lcp_stores (s : ArduinoCLI) (buf : region) (src : cstring)
    (pos rem : nat) :
  _lineBuffer s = Some buf → pos + rem < length buf → rem ≤ length src →
  buffer_store (pos + rem) NUL (buffer_strncpy pos src rem s)
  = set_lineBuffer
      (Some ((take pos buf ++ take rem src)
             ++ NUL :: drop (pos + rem + 1) buf)) s.
Proof.
  intros Hbuf Hlen Hsrc.
  rewrite (buffer_strncpy_in rem pos src s buf) by (done || lia).
  assert (Hpre : length (take pos buf ++ take rem src) = pos + rem).
  { rewrite length_app, !length_take. lia. }
  rewrite (buffer_store_in (pos + rem) NUL _
             (take pos buf ++ take rem src ++ drop (pos + rem) buf)); cycle 1.
  { done. }
  { rewrite !length_app, !length_take, length_drop. lia. }
  rewrite set_lineBuffer_twice.
  rewrite (app_assoc (take pos buf)), insert_app_drop by (done || lia).
  replace (S (pos + rem)) with (pos + rem + 1) by lia. done.
Qed.

Lemma lcp_loop_bound (rest : cstring) (others : list cstring) :
  ∀ lcp_len, lcp_loop rest others lcp_len ≤ lcp_len + length rest.
Proof.
  induction rest as [|c rest IH]; intros k; simpl; [lia|].
  destruct (forallb _ others); [|lia].
  specialize (IH (S k)). lia.
Qed.

Lemma findLcp_bound (matches : list cstring) (count : nat) :
  _findLcp matches count ≤ length (hd [] matches).
Proof.
  unfold _findLcp. destruct (count =? 0); [lia|].
  destruct (count =? 1); [done|].
  pose proof (lcp_loop_bound (hd [] matches)
                (take (count - 1) (tl matches)) 0). lia.
Qed.

Lemma tab_scan_names (current_word : cstring) (current_len commandCount : nat)
    (cmds : list CLI_Command_t) :
  ∀ matches,
    length matches + length cmds ≤ commandCount →
    tab_scan current_word current_len commandCount cmds matches
    = matches
      ++ matching_names (λ n, strncmp_eq current_word n current_len) cmds.
Proof.
  induction cmds as [|c cmds IH]; intros matches Hlen; simpl.
  - by rewrite app_nil_r.
  - simpl in Hlen. destruct (name c) as [n|]; [|apply IH; lia].
    destruct (strncmp_eq current_word n current_len); [|apply IH; lia].
    assert ((length matches <? commandCount) = true) as ->
      by (apply Nat.ltb_lt; lia).
    rewrite IH by (rewrite length_app; simpl; lia).
    by rewrite <- app_assoc.
Qed.

Lemma matching_names_indices (f : cstring → bool) (cmds : list CLI_Command_t) :
  ∀ i, Forall2 (λ j n, entry_named cmds (j - i) n)
         (matching_indices f i cmds) (matching_names f cmds).
Proof.
  induction cmds as [|c cmds IH]; intros i; simpl; [constructor|].
  assert (Hshift : Forall2 (λ j n, entry_named (c :: cmds) (j - i) n)
                     (matching_indices f (S i) cmds) (matching_names f cmds)).
  { pose proof (IH (S i)) as H.
    assert (Hge : Forall (λ j, S i ≤ j) (matching_indices f (S i) cmds)).
    { apply Forall_forall. intros j Hj. by apply matching_indices_ge in Hj. }
    clear IH. revert Hge.
    induction H as [|j n js ns Hjn _ IH2]; intros Hge; constructor.
    - apply Forall_cons in Hge as [Hge _].
      destruct Hjn as (c' & Hc' & Hn). exists c'. split; [|done].
      replace (j - i) with (S (j - S i)) by lia. done.
    - apply IH2. apply Forall_cons in Hge as [_ Hge']. exact Hge'. }
  destruct (name c) as [n|] eqn:Hn; [|done].
  destruct (f n); [|done].
  constructor; [|done]. exists c. by rewrite Nat.sub_diag.
Qed.

(** When exactly one entry satisfies [f], [matching_names] is its name. *)
Lemma matching_names_unique (f : cstring → bool) (cmds : list CLI_Command_t)
    (i : nat) (n : cstring) :
  entry_named cmds i n → f n = true →
  (∀ j m, entry_named cmds j m → f m = true → j = i) →
  matching_names f cmds = [n].
Proof.
  intros Hi Hf Huniq.
  pose proof (matching_names_indices f cmds 0) as H2.
  pose proof (matching_indices_NoDup f cmds 0) as Hnd.
  assert (Hin : i ∈ matching_indices f 0 cmds).
  { apply matching_indices_elem. split; [lia|]. rewrite Nat.sub_0_r.
    by exists n. }
  assert (Hall : ∀ j, j ∈ matching_indices f 0 cmds → j = i).
  { intros j Hj. apply matching_indices_elem in Hj as (_ & m & Hm & Hfm).
    rewrite Nat.sub_0_r in Hm. by eapply Huniq. }
  destruct (matching_indices f 0 cmds) as [|a [|b l]].
  - by apply elem_of_nil in Hin.
  - inversion H2 as [|? n' ? ? Hn' Hrest]; subst.
    inversion Hrest; subst.
    assert (a = i) as -> by (apply Hall, elem_of_cons; by left).
    rewrite Nat.sub_0_r in Hn'.
    destruct Hi as (c & Hc & Hcn), Hn' as (c' & Hc' & Hcn'). congruence.
  - assert (a = i) by (apply Hall, elem_of_cons; by left).
    assert (b = i).
    { apply Hall, elem_of_cons. right. apply elem_of_cons. by left. }
    subst. apply NoDup_cons_1_1 in Hnd. exfalso. apply Hnd, elem_of_cons.
    by left.
Qed.

(** ** The invariant *)

Lemma cli_wf_set_lineBuffer (s : ArduinoCLI) (buf buf' : region) :
  cli_wf s → _lineBuffer s = Some buf → length buf' = length buf →
  cli_wf (set_lineBuffer (Some buf') s).
Proof.
  intros (W1 & b & av & W2 & W3 & W4 & W5 & W6) Hbuf Hlen.
  split; [done|]. exists buf', av. cli_simpl.
  rewrite Hlen. assert (b = buf) as -> by congruence. done.
Qed.

Lemma cli_inv_set_bufferPos (s : ArduinoCLI) (buf : region) (p : nat) :
  cli_wf s → _lineBuffer s = Some buf → p < _maxLineLen s →
  buf !! p = Some NUL → cli_inv (set_bufferPos p s).
Proof.
  intros W Hbuf Hp Hnul. split.
  - destruct W as (W1 & b & av & W2 & W3 & W4 & W5 & W6).
    split; [done|]. by exists b, av.
  - by exists buf.
Qed.

Lemma cli_inv_fields (s : ArduinoCLI) :
  cli_inv s →
  ∃ buf argv_array,
    _lineBuffer s = Some buf ∧ _argv s = Some argv_array
    ∧ undefined s = false
    ∧ _bufferPos s < _maxLineLen s
    ∧ _maxLineLen s ≤ length buf
    ∧ _maxLineLen s ≤ CLI_DEFAULT_MAX_LINE_LEN
    ∧ 1 ≤ _maxArgs s ≤ length argv_array
    ∧ buf !! _bufferPos s = Some NUL.
Proof.
  intros [(W1 & b & av & W2 & W3 & W4 & W5 & W6) (buf & B1 & B2 & B3)].
  assert (b = buf) as -> by congruence. by exists buf, av.
Qed.

Lemma SIZE_MAX_value : Z.of_nat SIZE_MAX = 65535%Z.
Proof. unfold SIZE_MAX. lia. Qed.

Lemma size_sub_small (a b : nat) : b ≤ a → size_sub a b = a - b.
Proof.
  intros H. unfold size_sub.
  assert ((b <=? a) = true) as -> by (apply Nat.leb_le; lia). done.
Qed.

Lemma size_sub_wrap (a b : nat) :
  a < b → size_sub a b = a + S SIZE_MAX - b.
Proof.
  intros H. unfold size_sub.
  assert ((b <=? a) = false) as -> by (apply Nat.leb_gt; lia). done.
Qed.

Lemma frame_list_matches (matches : list cstring) (s : ArduinoCLI) :
  frame s (foldl (λ acc m, serial_write (lit "  ") (serial_write m acc))
             s matches).
Proof.
  revert s; induction matches as [|m ms IH]; intros s; simpl;
    [apply frame_refl|].
  eapply frame_trans; [|apply IH].
  eapply frame_trans; apply frame_serial_write.
Qed.

(** [_handleTab] keeps the invariant, on every path. *)
Lemma handleTab_inv (s : ArduinoCLI) : cli_inv s → cli_inv (_handleTab s).
Proof.
  intros Hinv.
  destruct (cli_inv_fields s Hinv)
    as (buf & av & Hbuf & Hargv & Hub & Hpos & Hcap & H64 & Hargs & Hnul).
  unfold _handleTab. rewrite Hbuf.
  set (pos := _bufferPos s) in *.
  set (current_word := until_nul (take pos buf)).
  assert (Hwlen : length current_word ≤ pos).
  { subst current_word. pose proof (until_nul_length (take pos buf)) as H.
    rewrite length_take in H. lia. }
  assert (Hflag : negb (pos <? CLI_DEFAULT_MAX_LINE_LEN)
                  || ((length buf <? pos)
                      && (length current_word =? length buf)) = false).
  { assert ((pos <? CLI_DEFAULT_MAX_LINE_LEN) = true) as ->
      by (apply Nat.ltb_lt; lia).
    assert ((length buf <? pos) = false) as -> by (apply Nat.ltb_ge; lia).
    done. }
  cbv zeta. rewrite Hflag. cbn [flag_undefined].
  destruct (strchr_found current_word SPACE);
    [by eapply frame_cli_inv; [apply frame_serial_write|]|].
  unfold strlen.
  destruct (length current_word =? 0) eqn:Hlen0; [done|].
  apply Nat.eqb_neq in Hlen0.
  set (matches := tab_scan _ _ _ _ _).
  destruct (length matches =? 0);
    [by eapply frame_cli_inv; [apply frame_serial_write|]|].
  pose proof SIZE_MAX_value as H65.
  unfold CLI_DEFAULT_MAX_LINE_LEN in H64.
  destruct (length matches =? 1).
  - (* a single match *)
    set (completion := hd [] matches).
    set (rem := size_sub (length completion) (length current_word)).
    destruct (pos + rem <? size_sub (_maxLineLen s) 2) eqn:Hroom;
      [|by eapply frame_cli_inv; [apply frame_serial_write|]].
    apply Nat.ltb_lt in Hroom.
    rewrite size_sub_small in Hroom by lia.
    assert (Hrem : rem = length completion - length current_word
                   ∧ length current_word ≤ length completion).
    { subst rem.
      destruct (decide (length current_word ≤ length completion)) as [Hle|Hgt].
      - rewrite size_sub_small by exact Hle. split; [reflexivity | exact Hle].
      - rewrite size_sub_wrap in Hroom by lia. lia. }
    destruct Hrem as [Hrem Hle].
    rewrite (tab_single_stores s buf _ pos rem Hbuf)
      by (rewrite ?length_drop; lia).
    set (buf' := (_ ++ _) ++ NUL :: _).
    assert (Hpre : length (take pos buf
                           ++ take rem (drop (length current_word) completion)
                           ++ [SPACE]) = pos + rem + 1).
    { rewrite !length_app, !length_take, length_drop. simpl. lia. }
    assert (Hlen' : length buf' = length buf).
    { subst buf'. rewrite length_app, Hpre. cbn [length].
      rewrite length_drop. lia. }
    apply (cli_inv_set_bufferPos _ buf').
    + eapply frame_cli_wf; [apply frame_serial_write|].
      eapply frame_cli_wf; [apply frame_serial_write|].
      eapply cli_wf_set_lineBuffer; [apply Hinv | done | done].
    + done.
    + cli_simpl. lia.
    + subst buf'. rewrite lookup_app_r by lia.
      replace (pos + (rem + 1) - _) with 0 by lia. done.
  - (* several matches *)
    set (lcp_len := _findLcp matches (length matches)).
    pose proof (findLcp_bound matches (length matches)) as Hlcp.
    fold lcp_len in Hlcp.
    destruct (length current_word <? lcp_len) eqn:Hext.
    + apply Nat.ltb_lt in Hext.
      rewrite (size_sub_small lcp_len) by lia.
      set (rem := lcp_len - length current_word).
      destruct (pos + rem <? size_sub (_maxLineLen s) 1) eqn:Hroom;
        [|by eapply frame_cli_inv; [apply frame_serial_write|]].
      apply Nat.ltb_lt in Hroom. rewrite size_sub_small in Hroom by lia.
      rewrite (tab_lcp_stores s buf _ pos rem Hbuf)
        by (rewrite ?length_drop; lia).
      set (buf' := (_ ++ _) ++ NUL :: _).
      assert (Hpre : length (take pos buf
                        ++ take rem (drop (length current_word)
                                       (hd [] matches))) = pos + rem).
      { rewrite !length_app, !length_take, length_drop. lia. }
      assert (Hlen' : length buf' = length buf).
      { subst buf'. rewrite length_app, Hpre. cbn [length].
        rewrite length_drop. lia. }
      apply (cli_inv_set_bufferPos _ buf').
      * eapply frame_cli_wf; [apply frame_serial_write|].
        eapply cli_wf_set_lineBuffer; [apply Hinv | done | done].
      * done.
      * cli_simpl. lia.
      * subst buf'. rewrite lookup_app_r by lia.
        replace (pos + rem - _) with 0 by lia. done.
    + eapply frame_cli_inv; [|exact Hinv].
      eapply frame_trans; [apply (frame_serial_println [])|].
      eapply frame_trans; [apply frame_list_matches|].
      eapply frame_trans; [apply frame_printPrompt|].
      apply frame_serial_write.
Qed.

Lemma cli_wf_set_bufferPos (p : nat) (s : ArduinoCLI) :
  cli_wf s → cli_wf (set_bufferPos p s).
Proof. intros (W1 & b & av & W). split; [done|]. by exists b, av. Qed.

Lemma cli_wf_set_dispatched d (s : ArduinoCLI) :
  cli_wf s → cli_wf (set_dispatched d s).
Proof. intros (W1 & b & av & W). split; [done|]. by exists b, av. Qed.

Lemma cli_inv_set_serial_rx rx (s : ArduinoCLI) :
  cli_inv s → cli_inv (set_serial_rx rx s).
Proof.
  intros [(W1 & b & av & W) (buf & B)]. split.
  - split; [done|]. by exists b, av.
  - by exists buf.
Qed.

Lemma cli_inv_intro (s : ArduinoCLI) (buf : region) :
  cli_wf s → _lineBuffer s = Some buf → _bufferPos s < _maxLineLen s →
  buf !! _bufferPos s = Some NUL → cli_inv s.
Proof. intros W H1 H2 H3. split; [done|]. by exists buf. Qed.

Lemma resetBuffer_inv (s : ArduinoCLI) :
  cli_wf s → 0 < _maxLineLen s → cli_inv (_resetBuffer s).
Proof.
  intros W Hmax. pose proof W as (W1 & b & av & W2 & W3 & W4 & W5 & W6).
  unfold _resetBuffer. rewrite W2.
  rewrite (buffer_store_in 0 NUL s b) by (done || lia).
  apply (cli_inv_set_bufferPos _ (<[0 := NUL]> b)).
  - eapply cli_wf_set_lineBuffer; [done | done | apply length_insert].
  - done.
  - done.
  - apply list_lookup_insert_eq. lia.
Qed.

(** What [processInput] leaves behind: the region keeps its size, and
    the object changes within the frame, up to the line recorded in
    [dispatched] when the line is let through. *)
Lemma processInput_effect (m : region) (s : ArduinoCLI)
    (argv_array : list (option nat)) :
  _argv s = Some argv_array →
  1 ≤ _maxArgs s ≤ length argv_array →
  length (fst (processInput m s)) = length m
  ∧ ∃ d, frame (set_dispatched d s) (snd (processInput m s))
         ∧ (if _isRunning s && bool_decide (is_Some (_lineBuffer s))
            then d = dispatched s ++ [cstr_at m 0]
            else d = dispatched s ∧ processInput m s = (m, s)).
Proof.
  intros Hargv Hmax. unfold processInput. rewrite Hargv.
  assert (bool_decide (is_Some (Some argv_array)) = true) as ->
    by (apply bool_decide_eq_true; eauto).
  cbn [negb]. rewrite orb_false_r.
  destruct (_isRunning s); cbn [negb orb andb].
  - destruct (bool_decide (is_Some (_lineBuffer s))); cbn [negb].
    + destruct (frame_parseAndExecute m
                  (set_dispatched (dispatched s ++ [cstr_at m 0]) s)
                  argv_array Hargv Hmax) as [F L].
      split; [done|]. by eexists.
    + split; [done|]. exists (dispatched s). split; [|done].
      destruct s; apply frame_refl.
  - split; [done|]. exists (dispatched s). split; [|done].
    destruct s; apply frame_refl.
Qed.

Lemma isprint_range (c : ascii) :
  isprint c = true ↔ 32 ≤ nat_of_ascii c ≤ 126.
Proof.
  unfold isprint. rewrite andb_true_iff, !Nat.leb_le. done.
Qed.

(** One byte of input keeps the invariant, whatever the byte. *)
Lemma poll_byte_inv (c : ascii) (s : ArduinoCLI) :
  cli_inv s → cli_inv (poll_byte c s).
Proof.
  intros Hinv.
  destruct (cli_inv_fields s Hinv)
    as (buf & av & Hbuf & Hargv & Hub & Hpos & Hcap & H64 & Hargs & Hnul).
  pose proof Hinv as [Hwf _].
  unfold poll_byte.
  destruct ((c =? CR)%char || (c =? LF)%char).
  { (* line ending *)
    set (s1 := if 0 <? _bufferPos s then _ else s).
    assert (H1 : cli_wf s1 ∧ _maxLineLen s1 = _maxLineLen s).
    { subst s1. destruct (0 <? _bufferPos s); [|done].
      rewrite (buffer_store_in _ NUL s buf) by (done || lia).
      set (s0 := set_lineBuffer _ s).
      change (_lineBuffer s0) with (Some (<[_bufferPos s := NUL]> buf)).
      cbv iota.
      assert (Hwf0 : cli_wf s0).
      { eapply cli_wf_set_lineBuffer; [done | done | apply length_insert]. }
      destruct (processInput_effect (<[_bufferPos s := NUL]> buf) s0 av
                  Hargv Hargs) as (L & d & F & _).
      destruct (processInput _ s0) as [buf' s']. cbn [fst snd] in *.
      assert (Hwf' : cli_wf s').
      { eapply frame_cli_wf; [exact F|]. by apply cli_wf_set_dispatched. }
      destruct F as (_ & _ & F3 & F4 & _). split.
      - eapply cli_wf_set_lineBuffer; [done | exact F3 |].
        by rewrite L.
      - cli_simpl. rewrite F4. done. }
    destruct H1 as [Hwf1 Hmax1].
    assert (H2 : cli_inv (_resetBuffer s1))
      by (apply resetBuffer_inv; [done | lia]).
    set (s2 := _resetBuffer s1) in *.
    set (s3 := if _isRunning s2 then _printPrompt s2 else s2).
    assert (H3 : cli_inv s3).
    { subst s3. destruct (_isRunning s2); [|done].
      eapply frame_cli_inv; [apply frame_printPrompt | done]. }
    destruct (serial_rx s3) as [|next_c rest]; [done|].
    destruct (_ || _); [|done]. by apply cli_inv_set_serial_rx. }
  destruct (c =? TAB)%char; [by apply handleTab_inv|].
  destruct ((c =? DEL)%char || (c =? BS)%char).
  { (* backspace *)
    destruct (0 <? _bufferPos s) eqn:Hgt; [|done].
    apply Nat.ltb_lt in Hgt. cbv zeta.
    set (s1 := set_bufferPos (_bufferPos s - 1) s).
    change (_bufferPos s1) with (_bufferPos s - 1).
    rewrite (buffer_store_in _ NUL s1 buf) by (done || lia).
    eapply frame_cli_inv; [apply frame_serial_write|].
    apply (cli_inv_intro _ (<[_bufferPos s - 1 := NUL]> buf)).
    - eapply cli_wf_set_lineBuffer;
        [by apply cli_wf_set_bufferPos | done | apply length_insert].
    - done.
    - subst s1. cli_simpl. lia.
    - subst s1. cli_simpl. apply list_lookup_insert_eq. lia. }
  destruct (c =? ETX)%char.
  { (* Ctrl+C *)
    eapply frame_cli_inv; [apply frame_printPrompt|].
    eapply frame_cli_inv; [apply frame_serial_println|].
    apply resetBuffer_inv; [done | lia]. }
  destruct (isprint c); [|done].
  (* a printable character *)
  destruct (_bufferPos s <? size_sub (_maxLineLen s) 1) eqn:Hroom;
    [|by eapply frame_cli_inv; [apply frame_serial_write|]].
  apply Nat.ltb_lt in Hroom. rewrite size_sub_small in Hroom by lia.
  cbv zeta.
  rewrite (buffer_store_in _ c s buf) by (done || lia).
  set (s1 := set_lineBuffer (Some (<[_bufferPos s := c]> buf)) s).
  change (_bufferPos s1) with (_bufferPos s).
  set (s2 := set_bufferPos (_bufferPos s + 1) s1).
  change (_bufferPos s2) with (_bufferPos s + 1).
  rewrite (buffer_store_in _ NUL s2 (<[_bufferPos s := c]> buf));
    [|done|rewrite length_insert; lia].
  unfold _printChar. eapply frame_cli_inv; [apply frame_serial_write|].
  apply (cli_inv_intro _
           (<[_bufferPos s + 1 := NUL]> (<[_bufferPos s := c]> buf))).
  - eapply cli_wf_set_lineBuffer; [|done|by rewrite !length_insert].
    apply cli_wf_set_bufferPos.
    eapply cli_wf_set_lineBuffer; [done | done | apply length_insert].
  - done.
  - subst s2 s1. cli_simpl. lia.
  - subst s2 s1. cli_simpl. apply list_lookup_insert_eq.
    rewrite length_insert. lia.
Qed.

Lemma poll_loop_inv (fuel : nat) :
  ∀ s, cli_inv s → cli_inv (poll_loop fuel s).
Proof.
  induction fuel as [|fuel IH]; intros s Hinv; simpl; [done|].
  destruct (serial_rx s) as [|c rest]; [done|].
  apply IH, poll_byte_inv. by apply cli_inv_set_serial_rx.
Qed.

Lemma poll_inv (s : ArduinoCLI) : cli_inv s → cli_inv (poll s).
Proof.
  intros Hinv. unfold poll. destruct (_ || _); [done|].
  by apply poll_loop_inv.
Qed.

Lemma allocateBuffers_ok (s : ArduinoCLI) (line_mem : region)
    (argv_mem : list (option nat)) :
  length line_mem = _maxLineLen s → length argv_mem = _maxArgs s →
  _allocateBuffers (Some line_mem) (Some argv_mem) s
  = (true,
     set_argv (Some argv_mem) (set_lineBuffer (Some line_mem) (_freeBuffers s))).
Proof.
  intros Hl Ha. unfold _allocateBuffers. cbv zeta.
  change (_maxLineLen (_freeBuffers s)) with (_maxLineLen s).
  change (_maxArgs (set_lineBuffer ?v (_freeBuffers s))) with (_maxArgs s).
  unfold malloc. rewrite Hl, Ha, !Nat.eqb_refl. reflexivity.
Qed.

Lemma ArduinoCLI_new_inv rx cmds (line_mem : region)
    (argv_mem : list (option nat)) :
  length line_mem = CLI_DEFAULT_MAX_LINE_LEN →
  length argv_mem = CLI_DEFAULT_MAX_ARGS + 1 →
  cli_inv (ArduinoCLI_new rx cmds (Some line_mem) (Some argv_mem)).
Proof.
  intros Hl Ha. unfold ArduinoCLI_new.
  rewrite allocateBuffers_ok by done. cbn [snd].
  apply resetBuffer_inv; [|cli_simpl; unfold CLI_DEFAULT_MAX_LINE_LEN; lia].
  split; [done|]. exists line_mem, argv_mem. cli_simpl.
  rewrite Hl, Ha. unfold CLI_DEFAULT_MAX_LINE_LEN, CLI_DEFAULT_MAX_ARGS.
  repeat split; lia.
Qed.

(** C7. The invariant of the line buffer -- the buffer is allocated,
    [0 <= _bufferPos < _maxLineLen], and [_lineBuffer[_bufferPos]] is the
    terminator -- together with the absence of undefined behaviour and
    the sizes of the allocations ([cli_inv]): it holds after construction
    when both allocations succeed, and every operation on the buffer
    keeps it: one byte of input of any kind (printable, backspace, Ctrl+C,
    line ending, tab on each of its paths, ignored bytes), the reset of the
    buffer, a whole [poll], [processInput], [start] and [stop], and the
    arrival of bytes. *)
Theorem buffer_invariant_preserved :
  (∀ rx cmds (line_mem : region) (argv_mem : list (option nat)),
     length line_mem = CLI_DEFAULT_MAX_LINE_LEN →
     length argv_mem = CLI_DEFAULT_MAX_ARGS + 1 →
     cli_inv (ArduinoCLI_new rx cmds (Some line_mem) (Some argv_mem)))
  ∧ (∀ s, cli_inv s →
       (∃ buf, _lineBuffer s = Some buf
               ∧ 0 ≤ _bufferPos s < _maxLineLen s
               ∧ buf !! _bufferPos s = Some NUL)
       ∧ (∀ c, cli_inv (poll_byte c s))
       ∧ cli_inv (_resetBuffer s)
       ∧ cli_inv (_handleTab s)
       ∧ cli_inv (poll s)
       ∧ (∀ m, cli_inv (snd (processInput m s)))
       ∧ cli_inv (start s)
       ∧ cli_inv (stop s)
       ∧ (∀ bytes, cli_inv (serial_receive bytes s))).
Proof.
  split; [apply ArduinoCLI_new_inv|].
  intros s Hinv.
  destruct (cli_inv_fields s Hinv)
    as (buf & av & Hbuf & Hargv & Hub & Hpos & Hcap & H64 & Hargs & Hnul).
  split; [exists buf; repeat split; (done || lia)|].
  split; [intros c; by apply poll_byte_inv|].
  split; [apply resetBuffer_inv; [apply Hinv | lia]|].
  split; [by apply handleTab_inv|].
  split; [by apply poll_inv|].
  split.
  { intros m.
    destruct (processInput_effect m s av Hargv Hargs) as (_ & d & F & _).
    eapply frame_cli_inv; [exact F|].
    destruct Hinv as [W (b & B)]. split; [by apply cli_wf_set_dispatched|].
    by exists b. }
  split.
  { unfold start. eapply frame_cli_inv; [apply frame_printPrompt|].
    eapply frame_cli_inv; [apply frame_set_isRunning | done]. }
  split.
  { eapply frame_cli_inv; [apply frame_set_isRunning | done]. }
  intros bytes. by apply cli_inv_set_serial_rx.
Qed.

(** The setters are not among these operations.  The constructor has
    already allocated 64 bytes when [setMaxLineLen] can first be called,
    and the setter does not allocate again: after [setMaxLineLen(128)]
    the 64th printable byte of a line puts its terminator at index 64,
    outside the allocation. *)
Lemma setMaxLineLen_outgrows_allocation :
  let s0 := ArduinoCLI_new [] [] (Some (replicate 64 NUL))
              (Some (replicate 9 None)) in
  let s := poll (serial_receive (replicate 64 "a"%char)
                   (start (setMaxLineLen 128 s0))) in
  cli_inv s0 ∧ ¬ cli_inv (setMaxLineLen 128 s0) ∧ undefined s = true.
Proof.
  cbv zeta. split; [by apply ArduinoCLI_new_inv|]. split.
  - intros [(_ & buf & av & _ & _ & _ & H64 & _) _].
    vm_compute in H64. lia.
  - vm_compute. reflexivity.
Qed.

(** ** The tail of the line-ending branch *)

Lemma resetBuffer_fields (s : ArduinoCLI) :
  serial_rx (_resetBuffer s) = serial_rx s
  ∧ serial_tx (_resetBuffer s) = serial_tx s
  ∧ dispatched (_resetBuffer s) = dispatched s
  ∧ invoked (_resetBuffer s) = invoked s
  ∧ _isRunning (_resetBuffer s) = _isRunning s
  ∧ _bufferPos (_resetBuffer s) = 0.
Proof.
  unfold _resetBuffer, buffer_store.
  destruct (_lineBuffer s) as [b|]; [|done]. by destruct (0 <? length b).
Qed.

(** What the tail of the line-ending branch does once the buffer has
    been dealt with. *)
Lemma line_end_tail (c : ascii) (s1 : ArduinoCLI) :
  let s2 := _resetBuffer s1 in
  let s3 := if _isRunning s2 then _printPrompt s2 else s2 in
  let s' := match serial_rx s3 with
            | next_c :: rest => if paired c next_c then set_serial_rx rest s3
                                else s3
            | [] => s3
            end in
  dispatched s' = dispatched s1
  ∧ invoked s' = invoked s1
  ∧ _bufferPos s' = 0
  ∧ serial_rx s' = match serial_rx s1 with
                   | next_c :: rest => if paired c next_c then rest
                                       else next_c :: rest
                   | [] => []
                   end.
Proof.
  destruct (resetBuffer_fields s1) as (R1 & _ & R3 & R4 & _ & R6).
  cbv zeta. set (s2 := _resetBuffer s1) in *.
  set (s3 := if _isRunning s2 then _printPrompt s2 else s2).
  assert (H3 : dispatched s3 = dispatched s1 ∧ invoked s3 = invoked s1
               ∧ _bufferPos s3 = 0 ∧ serial_rx s3 = serial_rx s1).
  { subst s3. rewrite <- R1, <- R3, <- R4, <- R6.
    by destruct (_isRunning s2). }
  destruct H3 as (H3a & H3b & H3c & H3d). rewrite H3d.
  destruct (serial_rx s1) as [|next_c rest]; [done|].
  by destruct (paired c next_c).
Qed.

(** ** Stopped or unallocated: nothing happens *)

Lemma quiet_refl (s : ArduinoCLI) : quiet s s.
Proof. done. Qed.

Lemma quiet_trans (s1 s2 s3 : ArduinoCLI) :
  quiet s1 s2 → quiet s2 s3 → quiet s1 s3.
Proof. intros (A1 & A2 & A3) (B1 & B2 & B3). repeat split; congruence. Qed.

Lemma quiet_flag_undefined (b : bool) (s : ArduinoCLI) :
  quiet s (flag_undefined b s).
Proof. by destruct b. Qed.

Lemma quiet_buffer_store (i : nat) (c : ascii) (s : ArduinoCLI) :
  quiet s (buffer_store i c s).
Proof.
  unfold buffer_store. destruct (_lineBuffer s) as [b|]; [|done].
  by destruct (i <? length b).
Qed.

Lemma quiet_buffer_strncpy (n : nat) :
  ∀ dst src s, quiet s (buffer_strncpy dst src n s).
Proof.
  induction n as [|n IH]; intros dst src s; [done|].
  cbn [buffer_strncpy].
  destruct src; (eapply quiet_trans; [apply quiet_buffer_store | apply IH]).
Qed.

Lemma quiet_serial_write (bytes : list ascii) (s : ArduinoCLI) :
  quiet s (serial_write bytes s).
Proof. done. Qed.

Lemma quiet_serial_println (bytes : list ascii) (s : ArduinoCLI) :
  quiet s (serial_println bytes s).
Proof. done. Qed.

Lemma quiet_set_bufferPos (p : nat) (s : ArduinoCLI) :
  quiet s (set_bufferPos p s).
Proof. done. Qed.

Lemma quiet_set_serial_rx rx (s : ArduinoCLI) : quiet s (set_serial_rx rx s).
Proof. done. Qed.


Lemma quiet_printPrompt (s : ArduinoCLI) : quiet s (_printPrompt s).
Proof. done. Qed.

Lemma quiet_list_matches (matches : list cstring) (s : ArduinoCLI) :
  quiet s (foldl (λ acc m, serial_write (lit "  ") (serial_write m acc))
             s matches).
Proof.
  revert s; induction matches as [|m ms IH]; intros s; [done|].
  cbn [foldl]. eapply quiet_trans; [|apply IH]. done.
Qed.

Lemma quiet_resetBuffer (s : ArduinoCLI) : quiet s (_resetBuffer s).
Proof. by destruct (resetBuffer_fields s) as (_ & _ & R3 & R4 & R5 & _). Qed.

(** Peel the outermost operation off the state on the right. *)
Ltac quiet_step :=
  lazymatch goal with
  | |- quiet _ (flag_undefined _ _) => apply quiet_flag_undefined
  | |- quiet _ (serial_write _ _) =>
      eapply quiet_trans; [|apply quiet_serial_write]
  | |- quiet _ (serial_println _ _) =>
      eapply quiet_trans; [|apply quiet_serial_println]
  | |- quiet _ (set_bufferPos _ _) =>
      eapply quiet_trans; [|apply quiet_set_bufferPos]
  | |- quiet _ (buffer_store _ _ _) =>
      eapply quiet_trans; [|apply quiet_buffer_store]
  | |- quiet _ (buffer_strncpy _ _ _ _) =>
      eapply quiet_trans; [|apply quiet_buffer_strncpy]
  | |- quiet _ (_printPrompt _) =>
      eapply quiet_trans; [|apply quiet_printPrompt]
  | |- quiet _ (foldl _ _ _) =>
      eapply quiet_trans; [|apply quiet_list_matches]
  end.

Lemma quiet_handleTab (s : ArduinoCLI) : quiet s (_handleTab s).
Proof.
  unfold _handleTab. destruct (_lineBuffer s) as [buf|]; [|done].
  cbv zeta.
  repeat match goal with
         | |- context [if ?b then _ else _] => destruct b
         end;
    repeat quiet_step.
Qed.





(** C10. [processInput] returns at once, leaving the line and the object
    as they are, when the session is not running or when either buffer is
    not allocated: nothing is written, no line is dispatched, no handler
    is called.  In particular a line injected before [start], or after
    [stop], is dropped. *)
Theorem processInput_guard (m : region) (s : ArduinoCLI) :
  (_isRunning s = false ∨ _lineBuffer s = None ∨ _argv s = None →
   processInput m s = (m, s))
  ∧ processInput m (stop s) = (m, stop s)
  ∧ (∀ rx cmds hl ha,
       processInput m (ArduinoCLI_new rx cmds hl ha)
       = (m, ArduinoCLI_new rx cmds hl ha)).
Proof.
  assert (H : ∀ s', _isRunning s' = false ∨ _lineBuffer s' = None
                    ∨ _argv s' = None → processInput m s' = (m, s')).
  { intros s' Hs'. unfold processInput.
    destruct Hs' as [-> | [-> | ->]]; [done | |].
    - by rewrite orb_true_r.
    - by rewrite orb_true_r. }
  split; [apply H|]. split; [apply H; by left|].
  intros rx cmds hl ha. apply H. left.
  unfold ArduinoCLI_new, _resetBuffer, buffer_store.
  set (s0 := snd _).
  assert (_isRunning s0 = false) as Hs0.
  { subst s0. unfold _allocateBuffers. cbv zeta.
    change (_lineBuffer (set_argv _ (set_lineBuffer ?v _))) with v.
    change (_argv (set_argv ?v _)) with v.
    by destruct (malloc _ hl), (malloc _ ha). }
  destruct (_lineBuffer s0) as [b|]; [|done].
  by destruct (0 <? length b).
Qed.

(** ** Printable bytes *)

(** A printable byte is none of the bytes [poll] treats specially. *)
Lemma isprint_not_control (c : ascii) :
  isprint c = true →
  ((c =? CR)%char || (c =? LF)%char) = false
  ∧ (c =? TAB)%char = false
  ∧ ((c =? DEL)%char || (c =? BS)%char) = false
  ∧ (c =? ETX)%char = false.
Proof.
  destruct c as [[] [] [] [] [] [] [] []]; vm_compute; intros H;
    first [discriminate H | repeat split; reflexivity].
Qed.

Lemma bufferPos_buffer_store (i : nat) (c : ascii) (s : ArduinoCLI) :
  _bufferPos (buffer_store i c s) = _bufferPos s.
Proof.
  unfold buffer_store. destruct (_lineBuffer s) as [b|]; [|done].
  by destruct (i <? length b).
Qed.

Lemma poll_byte_printable (c : ascii) (s : ArduinoCLI) :
  isprint c = true →
  poll_byte c s =
    if _bufferPos s <? size_sub (_maxLineLen s) 1 then
      _printChar c
        (buffer_store (_bufferPos s + 1) NUL
           (set_bufferPos (_bufferPos s + 1)
              (buffer_store (_bufferPos s) c s)))
    else serial_write [BEL] s.
Proof.
  intros Hc. destruct (isprint_not_control c Hc) as (H1 & H2 & H3 & H4).
  unfold poll_byte. rewrite H1, H2, H3, H4, Hc. cbv zeta.
  destruct (_ <? _); [|done].
  change (_bufferPos (set_bufferPos ?p _)) with p.
  by rewrite bufferPos_buffer_store.
Qed.

(** C9. A printable byte, in a state that satisfies the invariant.  When
    the buffer holds [_maxLineLen - 1] characters, the object is left as it
    is -- content, cursor and everything else -- but for one bell written
    to the stream.  When it holds fewer, the byte is stored under the
    cursor and the terminator after it, the cursor advances by one, and
    the byte is echoed; nothing else changes. *)
Theorem printable_byte (c : ascii) (s : ArduinoCLI) (buf : region) :
  cli_inv s → isprint c = true → _lineBuffer s = Some buf →
  (_bufferPos s = _maxLineLen s - 1 →
   poll_byte c s = serial_write [BEL] s
   ∧ _lineBuffer (poll_byte c s) = Some buf
   ∧ _bufferPos (poll_byte c s) = _bufferPos s
   ∧ serial_tx (poll_byte c s) = serial_tx s ++ [BEL])
  ∧ (_bufferPos s < _maxLineLen s - 1 →
     ∃ buf',
       _lineBuffer (poll_byte c s) = Some buf'
       ∧ length buf' = length buf
       ∧ take (_bufferPos s + 1) buf' = take (_bufferPos s) buf ++ [c]
       ∧ buf' !! (_bufferPos s + 1) = Some NUL
       ∧ _bufferPos (poll_byte c s) = _bufferPos s + 1
       ∧ serial_tx (poll_byte c s) = serial_tx s ++ [c]
       ∧ edit_frame s (poll_byte c s)).
Proof.
  intros Hinv Hc Hbuf.
  destruct (cli_inv_fields s Hinv)
    as (buf0 & av & Hbuf0 & Hargv & Hub & Hpos & Hcap & H64 & Hargs & Hnul).
  assert (buf0 = buf) as -> by congruence.
  rewrite (poll_byte_printable c s Hc), size_sub_small by lia. split.
  - intros Hfull.
    assert ((_bufferPos s <? _maxLineLen s - 1) = false) as ->
      by (apply Nat.ltb_ge; lia).
    done.
  - intros Hroom.
    assert ((_bufferPos s <? _maxLineLen s - 1) = true) as ->
      by (apply Nat.ltb_lt; lia).
    rewrite (buffer_store_in _ c s buf) by (done || lia).
    rewrite (buffer_store_in _ NUL _ (<[_bufferPos s := c]> buf));
      [|done|rewrite length_insert; lia].
    exists (<[_bufferPos s + 1 := NUL]> (<[_bufferPos s := c]> buf)).
    cli_simpl. split; [done|]. split; [by rewrite !length_insert|].
    split.
    { rewrite take_insert_ge by lia.
      replace (_bufferPos s + 1) with (S (_bufferPos s)) by lia.
      rewrite (take_S_r _ _ c) by (apply list_lookup_insert_eq; lia).
      by rewrite take_insert_ge by lia. }
    split; [apply list_lookup_insert_eq; rewrite length_insert; lia|].
    done.
Qed.

(** ** Line endings *)

(** A line ending that finds the buffer empty dispatches nothing. *)
Lemma poll_byte_line_end_empty (c : ascii) (s : ArduinoCLI) :
  c = CR ∨ c = LF → _bufferPos s = 0 →
  dispatched (poll_byte c s) = dispatched s
  ∧ invoked (poll_byte c s) = invoked s
  ∧ _bufferPos (poll_byte c s) = 0.
Proof.
  intros Hc Hpos. unfold poll_byte.
  assert (((c =? CR)%char || (c =? LF)%char) = true) as ->
    by (destruct Hc as [-> | ->]; reflexivity).
  rewrite Hpos. change (0 <? 0) with false. cbv iota.
  destruct (line_end_tail c s) as (H1 & H2 & H3 & _). done.
Qed.

(** A line ending that finds a line in the buffer dispatches it, once. *)
Lemma poll_byte_line_end (c : ascii) (s : ArduinoCLI) (buf : region) :
  cli_inv s → _isRunning s = true → _lineBuffer s = Some buf →
  0 < _bufferPos s → c = CR ∨ c = LF →
  dispatched (poll_byte c s) = dispatched s ++ [cstr_at buf 0]
  ∧ _bufferPos (poll_byte c s) = 0
  ∧ serial_rx (poll_byte c s)
    = match serial_rx s with
      | next_c :: rest => if paired c next_c then rest else next_c :: rest
      | [] => []
      end.
Proof.
  intros Hinv Hrun Hbuf Hpos Hc.
  destruct (cli_inv_fields s Hinv)
    as (buf0 & av & Hbuf0 & Hargv & Hub & Hlt & Hcap & H64 & Hargs & Hnul).
  assert (buf0 = buf) as -> by congruence.
  unfold poll_byte.
  assert (((c =? CR)%char || (c =? LF)%char) = true) as ->
    by (destruct Hc as [-> | ->]; reflexivity).
  assert ((0 <? _bufferPos s) = true) as -> by (apply Nat.ltb_lt; lia).
  rewrite (buffer_store_in _ NUL s buf) by (done || lia).
  rewrite (list_insert_id buf _ NUL Hnul).
  set (s1 := set_lineBuffer (Some buf) s).
  change (_lineBuffer s1) with (Some buf). cbv iota.
  destruct (processInput_effect buf s1 av Hargv Hargs) as (_ & d & F & Hd).
  change (_isRunning s1) with (_isRunning s) in Hd.
  change (_lineBuffer s1) with (Some buf) in Hd.
  rewrite Hrun in Hd.
  assert (bool_decide (is_Some (Some buf)) = true) as Hsome
    by (apply bool_decide_eq_true; eauto).
  rewrite Hsome in Hd. cbn [andb] in Hd.
  change (dispatched s1) with (dispatched s) in Hd. subst d.
  destruct (processInput buf s1) as [buf' s2]. cbn [snd] in F.
  destruct F as (F1 & _ & _ & _ & _ & _ & _ & _ & F9 & _).
  cli_simpl in F1. cli_simpl in F9.
  destruct (line_end_tail c (set_lineBuffer (Some buf') s2))
    as (T1 & _ & T3 & T4).
  cbv zeta in T1, T3, T4. unfold paired in T1, T3, T4.
  rewrite T1, T3, T4. cli_simpl. rewrite F1, F9. done.
Qed.

(** C5. A line ending made of two bytes, CR LF or LF CR, that arrives
    after a non-empty line, seen from the [poll] that finds the first of
    the two bytes at the head of the stream.  When the second byte is
    waiting behind the first, the iteration that reads the first byte
    dispatches the line, once, resets the buffer, and also takes the
    second byte off the stream: the loop goes on with the bytes after the
    pair and an empty buffer; when the pair ends the input, the whole
    [poll] dispatches exactly that one line and leaves nothing unread.
    When the second byte only arrives for a later [poll], that [poll]
    reads it and dispatches nothing: one line has been dispatched, not
    two. *)
Theorem crlf_single_dispatch (s : ArduinoCLI) (buf : region)
    (c next_c : ascii) :
  cli_inv s → _isRunning s = true → _lineBuffer s = Some buf →
  0 < _bufferPos s →
  (c = CR ∧ next_c = LF) ∨ (c = LF ∧ next_c = CR) →
  (∀ rest, serial_rx s = c :: next_c :: rest →
     let s' := poll_byte c (set_serial_rx (next_c :: rest) s) in
     (∀ n, poll_loop (S n) s = poll_loop n s')
     ∧ serial_rx s' = rest
     ∧ dispatched s' = dispatched s ++ [cstr_at buf 0]
     ∧ _bufferPos s' = 0
     ∧ (rest = [] →
        dispatched (poll s) = dispatched s ++ [cstr_at buf 0]
        ∧ serial_rx (poll s) = []))
  ∧ (serial_rx s = [c] →
     dispatched (poll s) = dispatched s ++ [cstr_at buf 0]
     ∧ serial_rx (poll s) = []
     ∧ dispatched (poll (serial_receive [next_c] (poll s)))
       = dispatched s ++ [cstr_at buf 0]
     ∧ (_isRunning (poll s) = true →
        serial_rx (poll (serial_receive [next_c] (poll s))) = [])).
Proof.
  intros Hinv Hrun Hbuf Hpos Hpair.
  assert (Hc : c = CR ∨ c = LF) by (destruct Hpair as [[? _]|[? _]]; auto).
  assert (Hn : next_c = CR ∨ next_c = LF)
    by (destruct Hpair as [[_ ?]|[_ ?]]; auto).
  assert (Hp : paired c next_c = true)
    by (destruct Hpair as [[-> ->] | [-> ->]]; reflexivity).
  assert (Hpoll : ∀ s0, _isRunning s0 = true → is_Some (_lineBuffer s0) →
                        poll s0 = poll_loop (length (serial_rx s0)) s0).
  { intros s0 H1 [b H2]. unfold poll. rewrite H1, H2.
    assert (bool_decide (is_Some (Some b)) = true) as ->
      by (apply bool_decide_eq_true; eauto).
    done. }
  split.
  - intros rest Hrx s'.
    assert (Hloop : ∀ n, poll_loop (S n) s = poll_loop n s').
    { intros n. cbn [poll_loop]. by rewrite Hrx. }
    destruct (poll_byte_line_end c (set_serial_rx (next_c :: rest) s) buf)
      as (H1 & H2 & H3); try done.
    fold s' in H1, H2, H3. cli_simpl in H3. rewrite Hp in H3.
    split; [done|]. split; [done|]. split; [done|]. split; [done|].
    intros ->. rewrite Hpoll by eauto. rewrite Hrx. cbn [length].
    rewrite (Hloop 1). cbn [poll_loop]. rewrite H3. done.
  - intros Hrx.
    destruct (poll_byte_line_end c (set_serial_rx [] s) buf)
      as (H1 & H2 & H3); try done.
    cli_simpl in H3.
    assert (Hone : poll s = poll_byte c (set_serial_rx [] s)).
    { rewrite Hpoll by eauto. rewrite Hrx. cbn [length poll_loop].
      by rewrite Hrx. }
    rewrite Hone. set (s1 := poll_byte c (set_serial_rx [] s)) in *.
    split; [done|]. split; [done|].
    assert (Hnext : poll (serial_receive [next_c] s1)
                    = serial_receive [next_c] s1
                    ∨ poll (serial_receive [next_c] s1)
                      = poll_byte next_c (set_serial_rx [] s1)).
    { unfold poll. destruct (_ || _); [by left|]. right.
      unfold serial_receive. cli_simpl. rewrite H3. cbn [app length poll_loop].
      cli_simpl. done. }
    destruct (poll_byte_line_end_empty next_c (set_serial_rx [] s1) Hn H2)
      as (E1 & _ & _).
    split.
    + destruct Hnext as [-> | ->]; [done|]. by rewrite E1.
    + intros Hrun1.
      assert (is_Some (_lineBuffer s1)) as Hsome.
      { assert (cli_inv s1) as Hinv1
          by (apply poll_byte_inv; by apply cli_inv_set_serial_rx).
        destruct (cli_inv_fields s1 Hinv1) as (b1 & _ & Hb1 & _). eauto. }
      rewrite Hpoll by done.
      unfold serial_receive. cli_simpl. rewrite H3. cbn [app length poll_loop].
      cli_simpl.
      assert (Hrx1 : serial_rx (poll_byte next_c (set_serial_rx [] s1)) = []).
      { unfold poll_byte.
        assert (((next_c =? CR)%char || (next_c =? LF)%char) = true) as ->
          by (destruct Hn as [-> | ->]; reflexivity).
        change (_bufferPos (set_serial_rx [] s1)) with (_bufferPos s1).
        rewrite H2. change (0 <? 0) with false. cbv iota.
        destruct (line_end_tail next_c (set_serial_rx [] s1))
          as (_ & _ & _ & T4).
        cbv zeta in T4. unfold paired in T4. by rewrite T4. }
      exact Hrx1.
Qed.

(** ** Dispatch of a line *)

(** A command that resolves has a name, and the name starts with the
    token. *)
Lemma findCommand_Some (cmds : list CLI_Command_t) (t : cstring) (i : nat) :
  _findCommand cmds t = Some i → entry_starts_with cmds i t.
Proof.
  rewrite findCommand_closed. destruct t as [|x t]; [done|].
  destruct (last _) as [k|] eqn:Hk.
  - intros [= ->]. apply last_Some_elem_of in Hk.
    apply matching_indices_elem in Hk as (_ & n & Hn & Heq).
    rewrite Nat.sub_0_r in Hn. apply strcmp_eq_true in Heq as <-.
    by exists (x :: t).
  - set (P := matching_indices _ 0 cmds).
    assert (HP : ∀ j, j ∈ P → entry_starts_with cmds j (x :: t)).
    { intros j Hj. subst P.
      apply matching_indices_elem in Hj as (_ & n & Hn & Hp).
      rewrite Nat.sub_0_r in Hn. apply strncmp_eq_prefix in Hp.
      by exists n. }
    destruct P as [|a [|b l]]; try done.
    intros [= ->]. apply HP. by apply list_elem_of_singleton.
Qed.

Lemma report_too_many_tx (cmd : CLI_Command_t) (n : cstring) (user_args : Z)
    (s : ArduinoCLI) :
  name cmd = Some n →
  serial_tx (report_too_many cmd user_args s)
  = serial_tx s ++ [CR; LF]
    ++ lit "Error: Too many arguments for '" ++ n
    ++ lit "' (max: " ++ lit (pretty (max_args cmd))
    ++ lit ", got: " ++ lit (pretty user_args)
    ++ lit ")." ++ [CR; LF]
  ∧ invoked (report_too_many cmd user_args s) = invoked s.
Proof.
  intros Hn. unfold report_too_many. cbv zeta. rewrite Hn. cli_simpl.
  split; [|done]. cbn [default]. rewrite <- !app_assoc. reflexivity.
Qed.

(** C2. A line whose first token resolves to the table entry [i]. With
    [user_args = argc - 1]: when [user_args] exceeds the entry's
    [max_args], the diagnostic that names the command, its maximum and the
    count is written, and no handler is called; otherwise the entry's
    handler is called, once, with [argc] and the tokens, after an empty
    line has been written.  (An entry whose [func] is null has no handler
    to call: nothing is written then.) *)
Theorem parseAndExecute_arg_count (m : region) (s : ArduinoCLI)
    (argv_array : list (option nat)) (i : nat) (cmd : CLI_Command_t) :
  is_Some (_lineBuffer s) → _argv s = Some argv_array →
  1 ≤ _maxArgs s ≤ length argv_array →
  let r := _splitLine m (skip_isspace (cstr_at m 0)) argv_array (_maxArgs s) in
  let argc := Z.of_nat (sr_argc r) in
  let argv := argv_strings r in
  let user_args := (argc - 1)%Z in
  let s1 := set_argv (Some (sr_argv r)) s in
  0 < sr_argc r →
  _findCommand (_commands s) (hd [] argv) = Some i →
  _commands s !! i = Some cmd →
  ∃ n, name cmd = Some n
    ∧ ((max_args cmd < user_args)%Z →
       snd (_parseAndExecute m s) = report_too_many cmd user_args s1
       ∧ serial_tx (snd (_parseAndExecute m s))
         = serial_tx s ++ [CR; LF]
           ++ lit "Error: Too many arguments for '" ++ n
           ++ lit "' (max: " ++ lit (pretty (max_args cmd))
           ++ lit ", got: " ++ lit (pretty user_args)
           ++ lit ")." ++ [CR; LF]
       ∧ invoked (snd (_parseAndExecute m s)) = invoked s)
    ∧ ((user_args ≤ max_args cmd)%Z →
       (∀ h, func cmd = Some h →
          snd (_parseAndExecute m s)
          = call_handler i h argc argv (serial_println [] s1)
          ∧ invoked (snd (_parseAndExecute m s))
            = invoked s ++ [(i, argc, argv)])
       ∧ (func cmd = None → snd (_parseAndExecute m s) = s1)).
Proof.
  intros [buf Hbuf] Hargv Hmax r argc argv user_args s1 Hargc Hfind Hcmd.
  destruct (findCommand_Some _ _ _ Hfind) as (n & (c' & Hc' & Hn) & _).
  assert (c' = cmd) as -> by congruence.
  exists n. split; [done|].
  pose proof (splitLine_spec m (skip_isspace (cstr_at m 0)) argv_array
                (_maxArgs s)) as [Hc Hs].
  cbv zeta in Hc, Hs. fold r in Hc, Hs.
  destruct (Hs Hmax) as (U1 & _).
  assert (Hexec : _parseAndExecute m s =
            if (max_args cmd <? user_args)%Z
            then (sr_line r, report_too_many cmd user_args s1)
            else match func cmd with
                 | Some h =>
                     (sr_line r,
                      call_handler i h argc argv (serial_println [] s1))
                 | None => (sr_line r, s1)
                 end).
  { unfold _parseAndExecute. rewrite Hbuf, Hargv.
    destruct (cstr_at m (skip_isspace (cstr_at m 0))) as [|c0 l0] eqn:Hline.
    { rewrite ?Hline in Hc. cbn [tokens_of_line length Nat.min] in Hc. lia. }
    cbv zeta. fold r. rewrite U1. cbn [flag_undefined]. fold s1.
    assert ((Z.of_nat (sr_argc r) =? 0)%Z = false) as ->
      by (apply Z.eqb_neq; lia).
    change (_commands s1) with (_commands s).
    fold argv. rewrite Hfind, Hcmd. done. }
  rewrite Hexec. split.
  - intros Hmany.
    assert ((max_args cmd <? user_args)%Z = true) as ->
      by (apply Z.ltb_lt; lia).
    cbn [snd]. split; [done|].
    destruct (report_too_many_tx cmd n user_args s1 Hn) as [T1 T2].
    rewrite T1, T2. done.
  - intros Hfew.
    assert ((max_args cmd <? user_args)%Z = false) as ->
      by (apply Z.ltb_ge; lia).
    split.
    + intros h Hh. rewrite Hh. cbn [snd]. split; [done|].
      by destruct (frame_call_handler i h argc argv (serial_println [] s1))
        as [_ ->].
    + intros Hh. by rewrite Hh.
Qed.

(** ** Completion of a single match *)

Lemma strchr_found_false (s : cstring) (c : ascii) :
  c ∉ s → strchr_found s c = false.
Proof.
  intros H. destruct (strchr_found s c) eqn:E; [|done].
  by apply strchr_found_elem in E.
Qed.

(** C4, as the code has it. The word before the cursor is not empty, has
    no space, and is the beginning of the name of exactly one entry. When
    [_bufferPos + length suffix + 2 < _maxLineLen] (the test
    [_bufferPos + remaining_len < _maxLineLen - 2] of the source: the
    suffix, the space and the terminator fit and one more byte stays
    free), the rest of the name and one space are stored after the word,
    the terminator after them, the cursor advances by their length, and
    exactly the suffix and the space are echoed.  Otherwise one bell is
    written and nothing else changes. *)
Theorem handleTab_single_match (s : ArduinoCLI) (buf : region)
    (word completion : cstring) (i : nat) :
  cli_inv s → _lineBuffer s = Some buf →
  take (_bufferPos s) buf = word →
  word ≠ [] → NUL ∉ word → SPACE ∉ word →
  entry_named (_commands s) i completion →
  word `prefix_of` completion →
  (∀ j, entry_starts_with (_commands s) j word → j = i) →
  let suffix := drop (length word) completion in
  (_bufferPos s + length suffix + 2 < _maxLineLen s →
   ∃ buf',
     _lineBuffer (_handleTab s) = Some buf'
     ∧ length buf' = length buf
     ∧ take (_bufferPos s + length suffix + 1) buf' = word ++ suffix ++ [SPACE]
     ∧ buf' !! (_bufferPos s + length suffix + 1) = Some NUL
     ∧ _bufferPos (_handleTab s) = _bufferPos s + length suffix + 1
     ∧ serial_tx (_handleTab s) = serial_tx s ++ suffix ++ [SPACE]
     ∧ edit_frame s (_handleTab s))
  ∧ (_maxLineLen s ≤ _bufferPos s + length suffix + 2 →
     _handleTab s = serial_write [BEL] s).
Proof.
  intros Hinv Hbuf Hword Hne Hnul Hsp Hnamed Hpre Huniq suffix.
  destruct (cli_inv_fields s Hinv)
    as (buf0 & av & Hbuf0 & Hargv & Hub & Hpos & Hcap & H64 & Hargs & Hterm).
  assert (buf0 = buf) as -> by congruence.
  assert (Hwlen : length word = _bufferPos s).
  { rewrite <- Hword, length_take. lia. }
  assert (Hwpos : 0 < length word) by (destruct word; [done | simpl; lia]).
  assert (Hplen : length word ≤ length completion).
  { destruct Hpre as [k ->]. rewrite length_app. lia. }
  assert (Hslen : length suffix = length completion - length word)
    by (subst suffix; apply length_drop).
  assert (Hexec : _handleTab s =
            if _bufferPos s + length suffix <? _maxLineLen s - 2 then
              set_bufferPos (_bufferPos s + (length suffix + 1))
                (serial_write [SPACE]
                   (serial_write suffix
                      (set_lineBuffer
                         (Some ((take (_bufferPos s) buf ++ suffix ++ [SPACE])
                                ++ NUL
                                :: drop (_bufferPos s + length suffix + 2) buf))
                         s)))
            else serial_write [BEL] s).
  { unfold _handleTab. rewrite Hbuf. cbv zeta. rewrite Hword.
    rewrite (until_nul_id word Hnul).
    assert ((_bufferPos s <? CLI_DEFAULT_MAX_LINE_LEN) = true) as ->
      by (apply Nat.ltb_lt; lia).
    assert ((length buf <? _bufferPos s) = false) as ->
      by (apply Nat.ltb_ge; lia).
    cbn [negb orb andb flag_undefined].
    rewrite (strchr_found_false word SPACE Hsp). unfold strlen.
    assert ((length word =? 0) = false) as -> by (apply Nat.eqb_neq; lia).
    rewrite tab_scan_names by (simpl; lia). rewrite app_nil_l.
    rewrite (matching_names_unique _ (_commands s) i completion Hnamed).
    2:{ by apply strncmp_eq_prefix. }
    2:{ intros j m Hm Hf. apply Huniq. exists m. split; [done|].
        by apply strncmp_eq_prefix. }
    cbn [length Nat.eqb hd].
    rewrite (size_sub_small (length completion)) by lia.
    rewrite (size_sub_small (_maxLineLen s)) by lia.
    fold suffix. rewrite <- Hslen.
    destruct (_ <? _) eqn:Hroom; [|done].
    apply Nat.ltb_lt in Hroom.
    rewrite (tab_single_stores s buf suffix _ _ Hbuf) by lia.
    rewrite (take_ge suffix) by lia. rewrite ?Hword. reflexivity. }
  rewrite Hexec. split.
  - intros Hroom.
    assert ((_bufferPos s + length suffix <? _maxLineLen s - 2) = true) as ->
      by (apply Nat.ltb_lt; lia).
    eexists. cli_simpl. split; [reflexivity|].
    assert (Hpl : length (take (_bufferPos s) buf ++ suffix ++ [SPACE])
                  = _bufferPos s + length suffix + 1).
    { rewrite !length_app, length_take. simpl. lia. }
    split; [|split; [|split; [|split; [lia|split]]]].
    + rewrite length_app, Hpl. cbn [length]. rewrite length_drop. lia.
    + rewrite take_app_le by lia. rewrite take_ge by lia. by rewrite Hword.
    + rewrite lookup_app_r by lia. by rewrite Hpl, Nat.sub_diag.
    + by rewrite <- !app_assoc.
    + done.
  - intros Hfull.
    assert ((_bufferPos s + length suffix <? _maxLineLen s - 2) = false) as ->
      by (apply Nat.ltb_ge; lia).
    done.
Qed.

(** C4, counterexample to the claim as stated. Default capacity 64, the
    one command's name has 62 characters, and its first character has
    been typed: the 61 remaining characters, the space and the terminator
    would fill the buffer exactly, so there is room for the suffix and the
    separator; yet [_handleTab] only rings the bell and leaves the buffer
    as it is. *)
Lemma handleTab_room_counterexample :
  let s := session long_table "a" in
  let suffix := replicate 61 "a"%char in
  cli_inv s
  ∧ entry_named (_commands s) 0 (lit "a" ++ suffix)
  ∧ (take (_bufferPos s) <$> _lineBuffer s) = Some (lit "a")
  ∧ _bufferPos s + length (suffix ++ [SPACE]) < _maxLineLen s
  ∧ _handleTab s = serial_write [BEL] s
  ∧ _lineBuffer (_handleTab s) = _lineBuffer s
  ∧ _bufferPos (_handleTab s) = _bufferPos s.
Proof.
  cbv zeta. split.
  { unfold session. apply poll_inv. apply cli_inv_set_serial_rx.
    unfold start. eapply frame_cli_inv; [apply frame_printPrompt|].
    eapply frame_cli_inv; [apply frame_set_isRunning|].
    by apply ArduinoCLI_new_inv. }
  split; [by eexists|].
  vm_compute. repeat split; lia.
Qed.

(** On an empty line a tab does nothing at all, whatever the table: no
    completion, no bell ([if (current_len == 0) return;]). *)
Lemma handleTab_empty_word (s : ArduinoCLI) :
  _bufferPos s = 0 → _handleTab s = s.
Proof.
  intros Hpos. unfold _handleTab. rewrite Hpos.
  destruct (_lineBuffer s) as [buf|]; reflexivity.
Qed.

(** * The loop of [poll] runs to the end of the input *)

Lemma rx_flag_undefined (b : bool) (s : ArduinoCLI) :
  serial_rx (flag_undefined b s) = serial_rx s.
Proof. by destruct b. Qed.

Lemma rx_buffer_store (i : nat) (c : ascii) (s : ArduinoCLI) :
  serial_rx (buffer_store i c s) = serial_rx s.
Proof.
  unfold buffer_store. destruct (_lineBuffer s) as [b|]; [|done].
  by destruct (i <? length b).
Qed.

Lemma rx_buffer_strncpy (n : nat) :
  ∀ dst src s, serial_rx (buffer_strncpy dst src n s) = serial_rx s.
Proof.
  induction n as [|n IH]; intros dst src s; [done|].
  cbn [buffer_strncpy]. destruct src; by rewrite IH, rx_buffer_store.
Qed.

Lemma rx_list_matches (matches : list cstring) (s : ArduinoCLI) :
  serial_rx (foldl (λ acc m, serial_write (lit "  ") (serial_write m acc))
               s matches) = serial_rx s.
Proof. by destruct (frame_list_matches matches s) as (F & _). Qed.

Lemma rx_handleTab (s : ArduinoCLI) : serial_rx (_handleTab s) = serial_rx s.
Proof.
  unfold _handleTab. destruct (_lineBuffer s) as [buf|]; [|done].
  cbv zeta.
  repeat match goal with
         | |- context [if ?b then _ else _] => destruct b
         end;
    cli_simpl;
    rewrite ?rx_list_matches, ?rx_buffer_store, ?rx_buffer_strncpy;
    cli_simpl; rewrite ?rx_flag_undefined; done.
Qed.

Lemma rx_parseAndExecute (m : region) (s : ArduinoCLI) :
  serial_rx (snd (_parseAndExecute m s)) = serial_rx s.
Proof.
  unfold _parseAndExecute.
  destruct (_lineBuffer s) as [buf|]; [|done].
  destruct (_argv s) as [av|]; [|done].
  destruct (cstr_at m (skip_isspace (cstr_at m 0))) as [|c0 l0]; [done|].
  cbv zeta.
  set (r := _splitLine _ _ _ _).
  set (s1 := flag_undefined _ _).
  assert (H1 : serial_rx s1 = serial_rx s)
    by (subst s1; by rewrite rx_flag_undefined).
  destruct (_ =? 0)%Z; [done|].
  destruct (_findCommand _ _) as [i|].
  - destruct (_commands s1 !! i) as [cmd|]; [|done].
    destruct (_ <? _)%Z.
    + destruct (frame_report_too_many cmd (Z.of_nat (sr_argc r) - 1) s1)
        as (F & _). cbn [snd]. by rewrite F.
    + destruct (func cmd) as [h|]; [|done]. cbn [snd].
      destruct (frame_call_handler i h (Z.of_nat (sr_argc r))
                  (argv_strings r) (serial_println [] s1)) as [(F & _) _].
      by rewrite F.
  - destruct (frame_report_not_found (hd [] (argv_strings r)) s1) as (F & _).
    cbn [snd]. by rewrite F.
Qed.

Lemma rx_processInput (m : region) (s : ArduinoCLI) :
  serial_rx (snd (processInput m s)) = serial_rx s.
Proof.
  unfold processInput. destruct (_ || _); [done|].
  by rewrite rx_parseAndExecute.
Qed.

(** An iteration never puts bytes back: it leaves a suffix of what was
    waiting. *)
Lemma poll_byte_rx (c : ascii) (s : ArduinoCLI) :
  length (serial_rx (poll_byte c s)) ≤ length (serial_rx s).
Proof.
  unfold poll_byte.
  destruct (_ || _).
  { set (s1 := if 0 <? _bufferPos s then _ else s).
    assert (H1 : serial_rx s1 = serial_rx s).
    { subst s1. destruct (0 <? _bufferPos s); [|done].
      pose proof (rx_buffer_store (_bufferPos s) NUL s) as H0.
      destruct (_lineBuffer (buffer_store (_bufferPos s) NUL s)) as [b|];
        [|done].
      pose proof (rx_processInput b (buffer_store (_bufferPos s) NUL s)) as H.
      destruct (processInput b _) as [b' s']. cbn [snd] in H.
      cli_simpl. by rewrite H. }
    destruct (line_end_tail c s1) as (_ & _ & _ & T).
    cbv zeta in T. unfold paired in T. rewrite T, H1.
    destruct (serial_rx s) as [|n rest]; [done|].
    destruct (_ || _); simpl; lia. }
  destruct (_ =? _)%char; [by rewrite rx_handleTab|].
  destruct (_ || _).
  { destruct (0 <? _); [|done]. cbv zeta. cli_simpl.
    by rewrite rx_buffer_store. }
  destruct (_ =? _)%char.
  { cli_simpl. by destruct (resetBuffer_fields s) as (-> & _). }
  destruct (isprint c); [|done].
  destruct (_ <? _); [|done]. cbv zeta. cli_simpl.
  rewrite rx_buffer_store. cli_simpl. by rewrite rx_buffer_store.
Qed.

Lemma poll_loop_drains (fuel : nat) :
  ∀ s, length (serial_rx s) ≤ fuel → serial_rx (poll_loop fuel s) = [].
Proof.
  induction fuel as [|fuel IH]; intros s Hlen; cbn [poll_loop].
  - destruct (serial_rx s); [done | simpl in Hlen; lia].
  - destruct (serial_rx s) as [|c rest] eqn:Hrx; [done|].
    apply IH. pose proof (poll_byte_rx c (set_serial_rx rest s)) as H.
    cli_simpl in H. simpl in Hlen. lia.
Qed.

(** More fuel than bytes makes no difference. *)
Lemma poll_loop_fuel (fuel : nat) :
  ∀ s extra, length (serial_rx s) ≤ fuel →
             poll_loop (fuel + extra) s = poll_loop fuel s.
Proof.
  induction fuel as [|fuel IH]; intros s extra Hlen.
  - destruct (serial_rx s) eqn:Hrx; [|simpl in Hlen; lia].
    destruct extra; cbn [poll_loop Nat.add]; by rewrite ?Hrx.
  - cbn [poll_loop Nat.add]. destruct (serial_rx s) as [|c rest] eqn:Hrx;
      [done|].
    apply IH. pose proof (poll_byte_rx c (set_serial_rx rest s)) as H.
    cli_simpl in H. simpl in Hlen. lia.
Qed.

(** A running [poll] returns with nothing left to read. *)
Lemma poll_drains (s : ArduinoCLI) :
  _isRunning s = true → is_Some (_lineBuffer s) → serial_rx (poll s) = [].
Proof.
  intros Hrun [b Hb]. unfold poll. rewrite Hrun, Hb.
  assert (bool_decide (is_Some (Some b)) = true) as ->
    by (apply bool_decide_eq_true; eauto).
  cbn [negb orb]. by apply poll_loop_drains.
Qed.

(** * The line editor *)

(** ** The bytes waiting on the stream do not matter to an edit *)

Lemma comm_flag_undefined (b : bool) rx (s : ArduinoCLI) :
  flag_undefined b (set_serial_rx rx s) = set_serial_rx rx (flag_undefined b s).
Proof. by destruct b. Qed.

Lemma comm_buffer_store (i : nat) (c : ascii) rx (s : ArduinoCLI) :
  buffer_store i c (set_serial_rx rx s) = set_serial_rx rx (buffer_store i c s).
Proof.
  unfold buffer_store. cli_simpl. destruct (_lineBuffer s) as [b|]; [|done].
  by destruct (i <? length b).
Qed.

Lemma comm_buffer_strncpy (n : nat) :
  ∀ dst src rx s,
    buffer_strncpy dst src n (set_serial_rx rx s)
    = set_serial_rx rx (buffer_strncpy dst src n s).
Proof.
  induction n as [|n IH]; intros dst src rx s; [done|].
  cbn [buffer_strncpy]. destruct src; by rewrite comm_buffer_store, IH.
Qed.

Lemma comm_list_matches (matches : list cstring) :
  ∀ rx s,
    foldl (λ acc m, serial_write (lit "  ") (serial_write m acc))
      (set_serial_rx rx s) matches
    = set_serial_rx rx
        (foldl (λ acc m, serial_write (lit "  ") (serial_write m acc))
           s matches).
Proof.
  induction matches as [|m ms IH]; intros rx s; [done|].
  cbn [foldl]. rewrite <- IH. done.
Qed.

Lemma comm_resetBuffer rx (s : ArduinoCLI) :
  _resetBuffer (set_serial_rx rx s) = set_serial_rx rx (_resetBuffer s).
Proof.
  unfold _resetBuffer. cli_simpl. destruct (_lineBuffer s) as [b|]; [|done].
  by rewrite comm_buffer_store.
Qed.

Lemma fields_flag_undefined (b : bool) (s : ArduinoCLI) :
  _commands (flag_undefined b s) = _commands s
  ∧ _maxLineLen (flag_undefined b s) = _maxLineLen s
  ∧ _lineBuffer (flag_undefined b s) = _lineBuffer s
  ∧ _bufferPos (flag_undefined b s) = _bufferPos s
  ∧ _prompt (flag_undefined b s) = _prompt s
  ∧ serial_tx (flag_undefined b s) = serial_tx s.
Proof. by destruct b. Qed.

Lemma comm_handleTab rx (s : ArduinoCLI) :
  _handleTab (set_serial_rx rx s) = set_serial_rx rx (_handleTab s).
Proof.
  unfold _handleTab. cli_simpl.
  destruct (_lineBuffer s) as [buf|] eqn:Hbuf; [|done].
  cbv zeta. rewrite comm_flag_undefined.
  generalize (flag_undefined
                (negb (_bufferPos s <? CLI_DEFAULT_MAX_LINE_LEN)
                 || (length buf <? _bufferPos s)
                    && (length (until_nul (take (_bufferPos s) buf))
                        =? length buf)) s).
  intros s0. cli_simpl.
  repeat match goal with
         | |- context [if ?b then _ else _] => destruct b
         end;
    rewrite ?comm_buffer_strncpy, ?comm_buffer_store; cli_simpl;
    try reflexivity.
  change (serial_println [] (set_serial_rx rx s0))
    with (set_serial_rx rx (serial_println [] s0)).
  rewrite comm_list_matches. reflexivity.
Qed.

Lemma comm_poll_byte (c : ascii) rx (s : ArduinoCLI) :
  c ≠ CR → c ≠ LF →
  poll_byte c (set_serial_rx rx s) = set_serial_rx rx (poll_byte c s).
Proof.
  intros H1 H2. unfold poll_byte.
  apply Ascii.eqb_neq in H1, H2. rewrite H1, H2. cbn [orb].
  destruct (c =? TAB)%char; [apply comm_handleTab|].
  destruct (_ || _).
  { cli_simpl. destruct (0 <? _bufferPos s); [|done]. cbv zeta.
    change (set_bufferPos ?p (set_serial_rx rx s))
      with (set_serial_rx rx (set_bufferPos p s)).
    rewrite comm_buffer_store. reflexivity. }
  destruct (c =? ETX)%char.
  { rewrite comm_resetBuffer. reflexivity. }
  destruct (isprint c); [|done].
  cli_simpl. destruct (_ <? _); [|done]. cbv zeta.
  rewrite comm_buffer_store. cli_simpl.
  rewrite !bufferPos_buffer_store.
  change (set_bufferPos ?p (set_serial_rx rx ?t))
    with (set_serial_rx rx (set_bufferPos p t)).
  rewrite comm_buffer_store. reflexivity.
Qed.


(** A byte other than CR and LF dispatches nothing and leaves the running
    flag alone. *)
Lemma poll_byte_edit_quiet (c : ascii) (s : ArduinoCLI) :
  c ≠ CR → c ≠ LF → quiet s (poll_byte c s).
Proof.
  intros H1 H2. unfold poll_byte.
  apply Ascii.eqb_neq in H1, H2. rewrite H1, H2. cbn [orb]. clear H1 H2.
  destruct (c =? TAB)%char; [apply quiet_handleTab|].
  destruct (_ || _).
  { destruct (0 <? _); [|done]. cbv zeta.
    eapply quiet_trans; [|apply quiet_serial_write].
    eapply quiet_trans; [|apply quiet_buffer_store]. done. }
  destruct (c =? ETX)%char.
  { eapply quiet_trans; [apply quiet_resetBuffer|]. done. }
  destruct (isprint c); [|done].
  destruct (_ <? _); [|done]. cbv zeta.
  eapply quiet_trans; [|apply quiet_serial_write].
  eapply quiet_trans; [|apply quiet_buffer_store].
  eapply quiet_trans; [|apply quiet_set_bufferPos].
  apply quiet_buffer_store.
Qed.

(** The loop over a run of bytes without line ending, followed by more
    bytes: the run is processed as if it had been alone on the stream. *)
Lemma poll_loop_app (a : list ascii) :
  CR ∉ a → LF ∉ a →
  ∀ s b n,
    poll_loop (length a + n) (set_serial_rx (a ++ b) s)
    = poll_loop n (set_serial_rx b (poll_loop (length a) (set_serial_rx a s))).
Proof.
  induction a as [|c a IH]; intros Hcr Hlf s b n.
  - cbn [length Nat.add app poll_loop]. reflexivity.
  - apply not_elem_of_cons in Hcr as [Hc1 Hcr], Hlf as [Hc2 Hlf].
    cbn [length Nat.add poll_loop]. cli_simpl. cbn [app].
    change (set_serial_rx ?r (set_serial_rx _ s)) with (set_serial_rx r s).
    rewrite !(comm_poll_byte c _ s) by congruence.
    rewrite (IH Hcr Hlf (poll_byte c s) b n). reflexivity.
Qed.

Lemma poll_loop_edit_quiet (a : list ascii) :
  CR ∉ a → LF ∉ a →
  ∀ s, quiet s (poll_loop (length a) (set_serial_rx a s)).
Proof.
  induction a as [|c a IH]; intros Hcr Hlf s; [done|].
  apply not_elem_of_cons in Hcr as [Hc1 Hcr], Hlf as [Hc2 Hlf].
  cbn [length poll_loop]. cli_simpl.
  change (set_serial_rx ?r (set_serial_rx _ s)) with (set_serial_rx r s).
  rewrite (comm_poll_byte c _ s) by congruence.
  eapply quiet_trans; [apply (poll_byte_edit_quiet c s); congruence|].
  apply IH; done.
Qed.

Lemma poll_running (s : ArduinoCLI) :
  _isRunning s = true → is_Some (_lineBuffer s) →
  poll s = poll_loop (length (serial_rx s)) s.
Proof.
  intros Hrun [b Hb]. unfold poll. rewrite Hrun, Hb.
  assert (bool_decide (is_Some (Some b)) = true) as ->
    by (apply bool_decide_eq_true; eauto).
  done.
Qed.

(** ** The editing keys, as equations on the state *)

Lemma set_lineBuffer_id (s : ArduinoCLI) (buf : region) :
  _lineBuffer s = Some buf → set_lineBuffer (Some buf) s = s.
Proof. intros H. destruct s. cli_simpl in H. by subst. Qed.

Lemma set_bufferPos_id (s : ArduinoCLI) (p : nat) :
  _bufferPos s = p → set_bufferPos p s = s.
Proof. intros H. destruct s. cli_simpl in H. by subst. Qed.

Lemma set_serial_rx_id (s : ArduinoCLI) rx :
  serial_rx s = rx → set_serial_rx rx s = s.
Proof. intros H. destruct s. cli_simpl in H. by subst. Qed.

Lemma poll_byte_printable_room (c : ascii) (s : ArduinoCLI) (buf : region) :
  cli_inv s → isprint c = true → _lineBuffer s = Some buf →
  _bufferPos s < _maxLineLen s - 1 →
  poll_byte c s
  = serial_write [c]
      (set_bufferPos (_bufferPos s + 1)
         (set_lineBuffer
            (Some (<[_bufferPos s + 1 := NUL]> (<[_bufferPos s := c]> buf)))
            s)).
Proof.
  intros Hinv Hc Hbuf Hroom.
  destruct (cli_inv_fields s Hinv)
    as (buf0 & av & Hbuf0 & Hargv & Hub & Hpos & Hcap & H64 & Hargs & Hnul).
  assert (buf0 = buf) as -> by congruence.
  rewrite (poll_byte_printable c s Hc), size_sub_small by lia.
  assert ((_bufferPos s <? _maxLineLen s - 1) = true) as ->
    by (apply Nat.ltb_lt; lia).
  rewrite (buffer_store_in _ c s buf) by (done || lia).
  rewrite (buffer_store_in _ NUL _ (<[_bufferPos s := c]> buf));
    [|done|rewrite length_insert; lia].
  reflexivity.
Qed.

Lemma poll_byte_printable_full (c : ascii) (s : ArduinoCLI) :
  isprint c = true → 0 < _maxLineLen s → _maxLineLen s - 1 ≤ _bufferPos s →
  poll_byte c s = serial_write [BEL] s.
Proof.
  intros Hc H0 Hfull.
  rewrite (poll_byte_printable c s Hc), size_sub_small by lia.
  assert ((_bufferPos s <? _maxLineLen s - 1) = false) as ->
    by (apply Nat.ltb_ge; lia).
  done.
Qed.

Lemma poll_byte_backspace (c : ascii) (s : ArduinoCLI) (buf : region) :
  cli_inv s → c = BS ∨ c = DEL → _lineBuffer s = Some buf →
  0 < _bufferPos s →
  poll_byte c s
  = serial_write [BS; SPACE; BS]
      (set_bufferPos (_bufferPos s - 1)
         (set_lineBuffer (Some (<[_bufferPos s - 1 := NUL]> buf)) s)).
Proof.
  intros Hinv Hc Hbuf Hgt.
  destruct (cli_inv_fields s Hinv)
    as (buf0 & av & Hbuf0 & Hargv & Hub & Hpos & Hcap & H64 & Hargs & Hnul).
  assert (buf0 = buf) as -> by congruence.
  unfold poll_byte.
  assert (((c =? CR)%char || (c =? LF)%char) = false) as ->
    by (destruct Hc as [-> | ->]; reflexivity).
  assert ((c =? TAB)%char = false) as ->
    by (destruct Hc as [-> | ->]; reflexivity).
  assert (((c =? DEL)%char || (c =? BS)%char) = true) as ->
    by (destruct Hc as [-> | ->]; reflexivity).
  assert ((0 <? _bufferPos s) = true) as -> by (apply Nat.ltb_lt; lia).
  cbv zeta. change (_bufferPos (set_bufferPos ?p _)) with p.
  rewrite (buffer_store_in _ NUL _ buf) by (done || lia).
  reflexivity.
Qed.

Lemma poll_byte_cancel (s : ArduinoCLI) (buf : region) :
  _lineBuffer s = Some buf → 0 < length buf →
  poll_byte ETX s
  = _printPrompt
      (serial_println (lit "^C")
         (set_bufferPos 0 (set_lineBuffer (Some (<[0 := NUL]> buf)) s))).
Proof.
  intros Hbuf Hlen. unfold poll_byte.
  change ((ETX =? CR)%char || (ETX =? LF)%char) with false.
  change (ETX =? TAB)%char with false.
  change ((ETX =? DEL)%char || (ETX =? BS)%char) with false.
  change (ETX =? ETX)%char with true. cbv iota.
  unfold _resetBuffer. rewrite Hbuf.
  rewrite (buffer_store_in 0 NUL s buf) by (done || lia).
  reflexivity.
Qed.

(** The byte is none of those [poll] acts on. *)
Lemma poll_byte_ignored (c : ascii) (s : ArduinoCLI) :
  c ∉ [CR; LF; TAB; DEL; BS; ETX] → isprint c = false → poll_byte c s = s.
Proof.
  intros Hc Hp. unfold poll_byte.
  repeat (apply not_elem_of_cons in Hc as [?%Ascii.eqb_neq Hc]).
  by repeat match goal with H : (_ =? _)%char = false |- _ => rewrite H; clear H end;
    rewrite ?Hp.
Qed.

(** ** A run of printable bytes *)

Lemma isprint_not_line_end (c : ascii) :
  isprint c = true → c ≠ CR ∧ c ≠ LF.
Proof.
  intros H. destruct (isprint_not_control c H) as (H1 & _).
  apply orb_false_iff in H1 as [H1 H2].
  by apply Ascii.eqb_neq in H1, H2.
Qed.

(** What the buffer holds after [k] characters of [w] have been stored
    from the cursor [pos] on. *)
Lemma typed_buffer_step (buf : region) (pos k : nat) (c : ascii) (w : cstring) :
  pos + S k < length buf → k ≤ length w →
  take (pos + 1) (<[pos + 1 := NUL]> (<[pos := c]> buf)) ++ take k w
    ++ NUL :: drop (pos + 1 + k + 1) (<[pos + 1 := NUL]> (<[pos := c]> buf))
  = take pos buf ++ take (S k) (c :: w) ++ NUL :: drop (pos + S k + 1) buf.
Proof.
  intros Hlen Hk.
  rewrite take_insert_ge by lia.
  replace (pos + 1) with (S pos) by lia.
  rewrite (take_S_r _ _ c) by (apply list_lookup_insert_eq; lia).
  rewrite take_insert_ge by lia.
  rewrite !drop_insert_lt by lia.
  cbn [take]. rewrite <- app_assoc. cbn [app].
  replace (S pos + k + 1) with (pos + S k + 1) by lia. reflexivity.
Qed.

Lemma poll_loop_printable (w : cstring) :
  Forall (λ c, isprint c = true) w →
  ∀ s buf,
    cli_inv s → _lineBuffer s = Some buf →
    let pos := _bufferPos s in
    let k := Nat.min (length w) (_maxLineLen s - 1 - pos) in
    poll_loop (length w) (set_serial_rx w s)
    = set_serial_rx []
        (serial_write (take k w ++ replicate (length w - k) BEL)
           (set_bufferPos (pos + k)
              (set_lineBuffer
                 (Some (take pos buf ++ take k w
                        ++ NUL :: drop (pos + k + 1) buf)) s))).
Proof.
  induction 1 as [|c w Hc Hw IH]; intros s buf Hinv Hbuf pos k.
  - destruct (cli_inv_fields s Hinv)
      as (buf0 & av & Hbuf0 & Hargv & Hub & Hpos & Hcap & H64 & Hargs & Hnul).
    assert (buf0 = buf) as -> by congruence.
    subst k. cbn [length Nat.min poll_loop take replicate app Nat.sub].
    rewrite !Nat.add_0_r. fold pos.
    replace (take pos buf ++ NUL :: drop (pos + 1) buf) with buf.
    2:{ rewrite <- (take_drop pos buf) at 1. f_equal.
        replace (pos + 1) with (S pos) by lia. by apply drop_S. }
    rewrite (set_lineBuffer_id s buf Hbuf), (set_bufferPos_id s pos eq_refl).
    unfold serial_write. rewrite app_nil_r.
    destruct s; reflexivity.
  - destruct (cli_inv_fields s Hinv)
      as (buf0 & av & Hbuf0 & Hargv & Hub & Hpos & Hcap & H64 & Hargs & Hnul).
    assert (buf0 = buf) as -> by congruence.
    destruct (isprint_not_line_end c Hc) as [Hcr Hlf].
    cbn [length poll_loop]. cli_simpl.
    change (set_serial_rx ?r (set_serial_rx _ s)) with (set_serial_rx r s).
    rewrite (comm_poll_byte c w s Hcr Hlf).
    destruct (decide (pos < _maxLineLen s - 1)) as [Hroom | Hfull].
    + rewrite (poll_byte_printable_room c s buf Hinv Hc Hbuf Hroom).
      fold pos.
      set (b1 := <[pos + 1 := NUL]> (<[pos := c]> buf)).
      set (s1 := serial_write [c] _).
      assert (Hinv1 : cli_inv s1).
      { subst s1 b1 pos.
        rewrite <- (poll_byte_printable_room c s buf Hinv Hc Hbuf Hroom).
        by apply poll_byte_inv. }
      rewrite (IH s1 b1 Hinv1 eq_refl). cbv zeta.
      change (_bufferPos s1) with (pos + 1).
      change (_maxLineLen s1) with (_maxLineLen s).
      set (k1 := Nat.min (length w) (_maxLineLen s - 1 - (pos + 1))).
      assert (Hk : k = S k1) by (subst k k1; cbn [length]; lia).
      rewrite Hk. subst b1.
      rewrite (typed_buffer_step buf pos k1 c w) by (subst k1; lia).
      subst s1. unfold serial_write. cli_simpl.
      replace (pos + 1 + k1) with (pos + S k1) by lia.
      cbn [take length Nat.sub]. rewrite <- !app_assoc. cbn [app].
      destruct s; reflexivity.
    + rewrite (poll_byte_printable_full c s Hc) by lia.
      set (s1 := serial_write [BEL] s).
      assert (Hinv1 : cli_inv s1).
      { eapply frame_cli_inv; [apply frame_serial_write | exact Hinv]. }
      rewrite (IH s1 buf Hinv1 Hbuf). cbv zeta.
      change (_bufferPos s1) with pos.
      change (_maxLineLen s1) with (_maxLineLen s).
      assert (Hk : k = 0) by (subst k; lia).
      assert (Hk1 : Nat.min (length w) (_maxLineLen s - 1 - pos) = 0) by lia.
      rewrite Hk, Hk1. subst s1. unfold serial_write. cli_simpl.
      cbn [take length Nat.sub app replicate]. rewrite Nat.sub_0_r.
      rewrite <- !app_assoc. cbn [app].
      destruct s; reflexivity.
Qed.

(** ** What each key does *)

Lemma edit_frame_intro (s : ArduinoCLI) buf' pos' out rx' :
  serial_rx s = rx' →
  edit_frame s
    (set_serial_rx rx'
       (serial_write out (set_bufferPos pos' (set_lineBuffer buf' s)))).
Proof. intros H. unfold edit_frame. cli_simpl. by rewrite H. Qed.

(** X1. A run of printable bytes, read by one [poll] from a state that
    satisfies the invariant: as many of them as fit below the capacity
    ([_maxLineLen - 1] characters in all) are stored after the characters
    already in the buffer and echoed; each of the others is answered by a
    bell and dropped.  The terminator follows the last stored character,
    and nothing else changes. *)
Theorem typed_printable (s : ArduinoCLI) (buf : region) (w : cstring) :
  cli_inv s → _isRunning s = true → _lineBuffer s = Some buf →
  serial_rx s = [] → Forall (λ c, isprint c = true) w →
  let pos := _bufferPos s in
  let k := Nat.min (length w) (_maxLineLen s - 1 - pos) in
  let s' := poll (serial_receive w s) in
  ∃ buf',
    _lineBuffer s' = Some buf'
    ∧ length buf' = length buf
    ∧ take (pos + k) buf' = take pos buf ++ take k w
    ∧ buf' !! (pos + k) = Some NUL
    ∧ _bufferPos s' = pos + k
    ∧ serial_tx s' = serial_tx s ++ take k w ++ replicate (length w - k) BEL
    ∧ edit_frame s s'.
Proof.
  intros Hinv Hrun Hbuf Hrx Hw pos k s'.
  destruct (cli_inv_fields s Hinv)
    as (buf0 & av & Hbuf0 & Hargv & Hub & Hpos & Hcap & H64 & Hargs & Hnul).
  assert (buf0 = buf) as -> by congruence.
  assert (Hs' : s' = set_serial_rx []
                  (serial_write (take k w ++ replicate (length w - k) BEL)
                     (set_bufferPos (pos + k)
                        (set_lineBuffer
                           (Some (take pos buf ++ take k w
                                  ++ NUL :: drop (pos + k + 1) buf)) s)))).
  { subst s'. rewrite poll_running; [|done | by exists buf].
    unfold serial_receive. cli_simpl. rewrite Hrx. cbn [app].
    by rewrite (poll_loop_printable w Hw s buf Hinv Hbuf). }
  assert (Hk : length (take k w) = k) by (rewrite length_take; lia).
  assert (Hp : length (take pos buf) = pos) by (rewrite length_take; lia).
  exists (take pos buf ++ take k w ++ NUL :: drop (pos + k + 1) buf).
  rewrite Hs'. cli_simpl. split; [done|]. split.
  { rewrite !length_app, Hp, Hk. cbn [length]. rewrite length_drop. lia. }
  split.
  { rewrite app_assoc, take_app_length'; [done|].
    rewrite length_app. lia. }
  split.
  { rewrite app_assoc, lookup_app_r by (rewrite length_app; lia).
    rewrite length_app, Hp, Hk, Nat.sub_diag. done. }
  split; [done|]. split; [done|].
  by apply edit_frame_intro.
Qed.

(** X2. Backspace and DEL.  On an empty buffer the byte does nothing at
    all: nothing changes and nothing is written, not even a bell.
    Otherwise the cursor goes back by one, the terminator takes the place
    of the last character, and the three bytes backspace, space,
    backspace are written; nothing else changes. *)
Theorem backspace_byte (c : ascii) (s : ArduinoCLI) (buf : region) :
  cli_inv s → c = BS ∨ c = DEL → _lineBuffer s = Some buf →
  (_bufferPos s = 0 → poll_byte c s = s)
  ∧ (0 < _bufferPos s →
     ∃ buf',
       _lineBuffer (poll_byte c s) = Some buf'
       ∧ length buf' = length buf
       ∧ take (_bufferPos s - 1) buf' = take (_bufferPos s - 1) buf
       ∧ buf' !! (_bufferPos s - 1) = Some NUL
       ∧ _bufferPos (poll_byte c s) = _bufferPos s - 1
       ∧ serial_tx (poll_byte c s) = serial_tx s ++ [BS; SPACE; BS]
       ∧ edit_frame s (poll_byte c s)).
Proof.
  intros Hinv Hc Hbuf.
  destruct (cli_inv_fields s Hinv)
    as (buf0 & av & Hbuf0 & Hargv & Hub & Hpos & Hcap & H64 & Hargs & Hnul).
  assert (buf0 = buf) as -> by congruence.
  split.
  - intros H0. unfold poll_byte.
    assert (((c =? CR)%char || (c =? LF)%char) = false) as ->
      by (destruct Hc as [-> | ->]; reflexivity).
    assert ((c =? TAB)%char = false) as ->
      by (destruct Hc as [-> | ->]; reflexivity).
    assert (((c =? DEL)%char || (c =? BS)%char) = true) as ->
      by (destruct Hc as [-> | ->]; reflexivity).
    by rewrite H0.
  - intros Hgt. rewrite (poll_byte_backspace c s buf Hinv Hc Hbuf Hgt).
    exists (<[_bufferPos s - 1 := NUL]> buf). cli_simpl.
    split; [done|]. split; [apply length_insert|].
    split; [by rewrite take_insert_ge by lia|].
    split; [apply list_lookup_insert_eq; lia|]. done.
Qed.

(** X3. Ctrl+C.  The line is dropped -- the cursor returns to 0 and the
    terminator is stored there -- and the stream receives [^C], a line
    break, and the prompt on a new line.  This happens whatever the
    buffer held, and also when the session has been stopped earlier in
    the same [poll]; nothing is dispatched. *)
Theorem cancel_byte (s : ArduinoCLI) (buf : region) :
  cli_inv s → _lineBuffer s = Some buf →
  let s' := poll_byte ETX s in
  _lineBuffer s' = Some (<[0 := NUL]> buf)
  ∧ cstr_at (<[0 := NUL]> buf) 0 = []
  ∧ _bufferPos s' = 0
  ∧ serial_tx s'
    = serial_tx s ++ lit "^C" ++ [CR; LF] ++ [CR; LF] ++ _prompt s
  ∧ edit_frame s s'.
Proof.
  intros Hinv Hbuf s'.
  destruct (cli_inv_fields s Hinv)
    as (buf0 & av & Hbuf0 & Hargv & Hub & Hpos & Hcap & H64 & Hargs & Hnul).
  assert (buf0 = buf) as -> by congruence.
  subst s'. rewrite (poll_byte_cancel s buf Hbuf) by lia. cli_simpl.
  split; [done|]. split.
  { destruct buf; [simpl in Hcap; lia | reflexivity]. }
  split; [done|]. split; [by rewrite <- !app_assoc|]. done.
Qed.

(** X4. A byte that is none of CR, LF, tab, backspace, DEL, Ctrl+C and
    that [isprint] rejects is read and dropped: a [poll] that finds only
    such bytes returns the state it was called in, with nothing echoed
    and nothing stored. *)
Theorem ignored_bytes (s : ArduinoCLI) (bytes : list ascii) :
  _isRunning s = true → is_Some (_lineBuffer s) → serial_rx s = [] →
  Forall (λ c, (c ∉ [CR; LF; TAB; DEL; BS; ETX]) ∧ isprint c = false) bytes →
  poll (serial_receive bytes s) = s.
Proof.
  intros Hrun Hbuf Hrx Hall.
  rewrite poll_running by done.
  unfold serial_receive. cli_simpl. rewrite Hrx. cbn [app].
  induction Hall as [|c bytes [Hc Hp] _ IH].
  - cbn [length poll_loop]. by apply set_serial_rx_id.
  - cbn [length poll_loop]. cli_simpl.
    change (set_serial_rx ?r (set_serial_rx _ s)) with (set_serial_rx r s).
    by rewrite (poll_byte_ignored c _ Hc Hp).
Qed.


(** ** Typing and erasing *)

Lemma until_nul_app_cut (x r : list ascii) :
  until_nul (x ++ NUL :: r) = until_nul x.
Proof.
  induction x as [|c x IH]; [done|]. cbn [app until_nul].
  destruct (c =? NUL)%char; [done|]. by rewrite IH.
Qed.

(** The string in a buffer is decided by the bytes in front of the
    first terminator. *)
Lemma cstr_at_agree (a b : region) (p : nat) :
  take p a = take p b → a !! p = Some NUL → b !! p = Some NUL →
  cstr_at a 0 = cstr_at b 0.
Proof.
  intros Ht Ha Hb. unfold cstr_at. rewrite !drop_0.
  rewrite <- (take_drop p a), <- (take_drop p b).
  rewrite (drop_S a NUL p Ha), (drop_S b NUL p Hb).
  by rewrite !until_nul_app_cut, Ht.
Qed.

Lemma poll_loop_backspace (bs : list ascii) :
  Forall (λ c, c = BS ∨ c = DEL) bs →
  ∀ s buf,
    cli_inv s → _lineBuffer s = Some buf →
    let pos := _bufferPos s in
    let k := Nat.min (length bs) pos in
    poll_loop (length bs) (set_serial_rx bs s)
    = set_serial_rx []
        (serial_write (concat (replicate k [BS; SPACE; BS]))
           (set_bufferPos (pos - k)
              (set_lineBuffer
                 (Some (take (pos - k) buf ++ replicate k NUL ++ drop pos buf))
                 s))).
Proof.
  induction 1 as [|c bs Hc Hbs IH]; intros s buf Hinv Hbuf pos k.
  - subst k. cbn [length Nat.min poll_loop replicate concat app].
    rewrite Nat.sub_0_r, take_drop.
    rewrite (set_lineBuffer_id s buf Hbuf), (set_bufferPos_id s pos eq_refl).
    unfold serial_write. rewrite app_nil_r. by destruct s.
  - destruct (cli_inv_fields s Hinv)
      as (buf0 & av & Hbuf0 & Hargv & Hub & Hpos & Hcap & H64 & Hargs & Hnul).
    assert (buf0 = buf) as -> by congruence.
    assert (Hne : c ≠ CR ∧ c ≠ LF) by (by destruct Hc as [-> | ->]).
    destruct Hne as [Hcr Hlf].
    cbn [length poll_loop]. cli_simpl.
    change (set_serial_rx ?r (set_serial_rx _ s)) with (set_serial_rx r s).
    rewrite (comm_poll_byte c bs s Hcr Hlf).
    destruct (decide (0 < pos)) as [Hgt | Hz].
    + rewrite (poll_byte_backspace c s buf Hinv Hc Hbuf Hgt). fold pos.
      set (s1 := serial_write _ _).
      assert (Hinv1 : cli_inv s1).
      { subst s1 pos.
        rewrite <- (poll_byte_backspace c s buf Hinv Hc Hbuf Hgt).
        by apply poll_byte_inv. }
      rewrite (IH s1 (<[pos - 1 := NUL]> buf) Hinv1 eq_refl). cbv zeta.
      change (_bufferPos s1) with (pos - 1).
      set (k1 := Nat.min (length bs) (pos - 1)).
      assert (Hk : k = S k1) by (subst k k1; cbn [length]; lia).
      rewrite Hk.
      assert (Hb : take (pos - 1 - k1) (<[pos - 1 := NUL]> buf)
                   ++ replicate k1 NUL ++ drop (pos - 1) (<[pos - 1 := NUL]> buf)
                   = take (pos - S k1) buf ++ replicate (S k1) NUL
                     ++ drop pos buf).
      { rewrite take_insert_ge by lia.
        replace (pos - 1 - k1) with (pos - S k1) by lia. f_equal.
        rewrite (drop_S (<[pos - 1 := NUL]> buf) NUL (pos - 1))
          by (apply list_lookup_insert_eq; lia).
        rewrite drop_insert_lt by lia.
        replace (S (pos - 1)) with pos by lia.
        rewrite replicate_S_end, <- app_assoc. done. }
      rewrite Hb. subst s1. unfold serial_write. cli_simpl.
      replace (pos - 1 - k1) with (pos - S k1) by lia.
      cbn [replicate concat]. rewrite <- !app_assoc. cbn [app].
      by destruct s.
    + assert (Hp0 : _bufferPos s = 0) by (subst pos; lia).
      assert (Hid : poll_byte c s = s).
      { unfold poll_byte.
        assert (((c =? CR)%char || (c =? LF)%char) = false) as ->
          by (destruct Hc as [-> | ->]; reflexivity).
        assert ((c =? TAB)%char = false) as ->
          by (destruct Hc as [-> | ->]; reflexivity).
        assert (((c =? DEL)%char || (c =? BS)%char) = true) as ->
          by (destruct Hc as [-> | ->]; reflexivity).
        by rewrite Hp0. }
      rewrite Hid, (IH s buf Hinv Hbuf). cbv zeta. fold pos.
      assert (Hk : k = 0) by (subst k; lia).
      assert (Hk1 : Nat.min (length bs) pos = 0) by lia.
      by rewrite Hk, Hk1.
Qed.

(** X6. Typing and erasing is a round trip.  When a run of printable
    characters that fits the buffer is followed by as many backspaces or
    DELs, the cursor is back where it was and the buffer holds the same
    string as before, terminated at the cursor; the terminal has seen
    the characters and one erase sequence for each. *)
Theorem type_then_erase (s : ArduinoCLI) (buf : region) (w : cstring)
    (bs : list ascii) :
  cli_inv s → _isRunning s = true → _lineBuffer s = Some buf →
  serial_rx s = [] →
  Forall (λ c, isprint c = true) w →
  _bufferPos s + length w < _maxLineLen s →
  Forall (λ c, c = BS ∨ c = DEL) bs → length bs = length w →
  let s' := poll (serial_receive (w ++ bs) s) in
  ∃ buf',
    _lineBuffer s' = Some buf'
    ∧ length buf' = length buf
    ∧ take (_bufferPos s) buf' = take (_bufferPos s) buf
    ∧ buf' !! _bufferPos s = Some NUL
    ∧ cstr_at buf' 0 = cstr_at buf 0
    ∧ _bufferPos s' = _bufferPos s
    ∧ serial_tx s'
      = serial_tx s ++ w ++ concat (replicate (length w) [BS; SPACE; BS])
    ∧ edit_frame s s'.
Proof.
  intros Hinv Hrun Hbuf Hrx Hw Hfit Hbs Hlen s'.
  destruct (cli_inv_fields s Hinv)
    as (buf0 & av & Hbuf0 & Hargv & Hub & Hpos & Hcap & H64 & Hargs & Hnul).
  assert (buf0 = buf) as -> by congruence.
  set (pos := _bufferPos s) in *.
  assert (Hcr : (CR ∉ w) ∧ (LF ∉ w)).
  { split; intros Hin; eapply Forall_forall in Hw; try exact Hin;
      by destruct (isprint_not_line_end _ Hw). }
  destruct Hcr as [Hcr Hlf].
  set (bw := take pos buf ++ w ++ NUL :: drop (pos + length w + 1) buf).
  set (sw := serial_write w
               (set_bufferPos (pos + length w) (set_lineBuffer (Some bw) s))).
  assert (Hloop : poll_loop (length w) (set_serial_rx w s) = sw).
  { rewrite (poll_loop_printable w Hw s buf Hinv Hbuf). cbv zeta. fold pos.
    assert (Nat.min (length w) (_maxLineLen s - 1 - pos) = length w) as ->
      by lia.
    rewrite Nat.sub_diag, take_ge by lia.
    cbn [replicate]. rewrite app_nil_r.
    apply set_serial_rx_id. cli_simpl. exact Hrx. }
  assert (Hinvw : cli_inv sw).
  { rewrite <- Hloop. apply poll_loop_inv. by apply cli_inv_set_serial_rx. }
  assert (Hs' : s' = set_serial_rx []
                  (serial_write (concat (replicate (length w) [BS; SPACE; BS]))
                     (set_bufferPos pos
                        (set_lineBuffer
                           (Some (take pos bw ++ replicate (length w) NUL
                                  ++ drop (pos + length w) bw)) sw)))).
  { subst s'. rewrite poll_running; [|done | by exists buf].
    unfold serial_receive. cli_simpl. rewrite Hrx. cbn [app].
    rewrite length_app.
    rewrite (poll_loop_app w Hcr Hlf s bs (length bs)), Hloop.
    rewrite (poll_loop_backspace bs Hbs sw bw Hinvw eq_refl). cbv zeta.
    change (_bufferPos sw) with (pos + length w).
    assert (Nat.min (length bs) (pos + length w) = length w) as -> by lia.
    replace (pos + length w - length w) with pos by lia. reflexivity. }
  assert (Hp : length (take pos buf) = pos) by (rewrite length_take; lia).
  assert (Htb : take pos bw = take pos buf).
  { subst bw. by rewrite take_app_length'. }
  exists (take pos bw ++ replicate (length w) NUL ++ drop (pos + length w) bw).
  rewrite Hs'. subst sw. cli_simpl.
  assert (Hl : length (take pos bw ++ replicate (length w) NUL
                       ++ drop (pos + length w) bw) = length buf).
  { rewrite !length_app, Htb, Hp, length_replicate, length_drop.
    subst bw. rewrite !length_app, Hp. cbn [length]. rewrite length_drop. lia. }
  assert (Ht : take pos (take pos bw ++ replicate (length w) NUL
                         ++ drop (pos + length w) bw) = take pos buf).
  { rewrite Htb. by rewrite take_app_length'. }
  assert (Hn : (take pos bw ++ replicate (length w) NUL
                ++ drop (pos + length w) bw) !! pos = Some NUL).
  { rewrite lookup_app_r by (rewrite Htb, Hp; lia).
    rewrite Htb, Hp, Nat.sub_diag.
    destruct w as [|c w].
    - cbn [length replicate app]. rewrite Nat.add_0_r.
      rewrite <- (Nat.add_0_r pos) at 1. rewrite lookup_drop, Nat.add_0_r.
      subst bw. cbn [app length]. rewrite lookup_app_r by lia.
      rewrite Hp. by replace (pos + 0 - pos) with 0 by lia.
    - done. }
  split; [done|]. split; [done|]. split; [done|]. split; [done|].
  split; [by apply (cstr_at_agree _ buf pos)|].
  split; [done|]. split; [by rewrite <- app_assoc|].
  unfold edit_frame. cli_simpl. by rewrite Hrx.
Qed.

(** ** Input in pieces *)

(** X7. Input may arrive in pieces.  When the bytes waiting and the
    first piece [a] hold no line ending, polling after [a] has arrived
    and again after [b] has arrived gives the same state as one [poll]
    that finds [a] and [b] together; [b] may be any bytes. *)
Theorem poll_chunks (s : ArduinoCLI) (a b : list ascii) :
  cli_inv s → _isRunning s = true →
  CR ∉ serial_rx s ++ a → LF ∉ serial_rx s ++ a →
  poll (serial_receive b (poll (serial_receive a s)))
  = poll (serial_receive (a ++ b) s).
Proof.
  intros Hinv Hrun Hcr Hlf.
  destruct (cli_inv_fields s Hinv) as (buf & av & Hbuf & _).
  set (a' := serial_rx s ++ a) in *.
  assert (Hsa : poll (serial_receive a s)
                = poll_loop (length a') (set_serial_rx a' s)).
  { rewrite poll_running; [done | done | by exists buf]. }
  assert (Hq := poll_loop_edit_quiet a' Hcr Hlf s).
  destruct Hq as (_ & _ & Hrun').
  assert (Hinv' : cli_inv (poll_loop (length a') (set_serial_rx a' s))).
  { apply poll_loop_inv. by apply cli_inv_set_serial_rx. }
  assert (Hrx' : serial_rx (poll_loop (length a') (set_serial_rx a' s)) = []).
  { by apply poll_loop_drains. }
  rewrite Hsa.
  set (sa := poll_loop (length a') (set_serial_rx a' s)) in *.
  destruct (cli_inv_fields sa Hinv') as (buf' & av' & Hbuf' & _).
  rewrite (poll_running (serial_receive b sa));
    [|change (_isRunning sa = true); congruence | by exists buf'].
  rewrite (poll_running (serial_receive (a ++ b) s));
    [|done | by exists buf].
  unfold serial_receive. cli_simpl. rewrite Hrx'. cbn [app].
  rewrite app_assoc. fold a'. rewrite length_app.
  by rewrite (poll_loop_app a' Hcr Hlf s b (length b)).
Qed.

(** ** [poll] leaves nothing unread *)

(** X8. A [poll] that finds the session running and the buffer allocated
    returns only when the stream is empty, whatever the bytes are -- also
    when a handler stops the session on the way, since the loop does not
    look at the running flag.  The loop ends within as many iterations
    as there are bytes waiting: allowing it more changes nothing. *)
Theorem poll_reads_everything (s : ArduinoCLI) :
  _isRunning s = true → is_Some (_lineBuffer s) →
  serial_rx (poll s) = []
  ∧ ∀ extra, poll_loop (length (serial_rx s) + extra) s = poll s.
Proof.
  intros Hrun Hbuf. split; [by apply poll_drains|].
  intros extra. rewrite poll_running by done. by apply poll_loop_fuel.
Qed.

(** * The resolver, read backwards *)

(** X9. What a successful resolution tells.  When [_findCommand]
    returns an entry for a token, the token is not empty, the entry lies
    in the table and has a name that starts with the token, and either
    that name is the token itself or no other entry has a name that
    starts with the token. *)
Theorem findCommand_sound (cmds : list CLI_Command_t) (t : cstring)
    (i : nat) :
  _findCommand cmds t = Some i →
  t ≠ []
  ∧ i < length cmds
  ∧ entry_starts_with cmds i t
  ∧ (entry_named cmds i t ∨ ∀ j, entry_starts_with cmds j t → j = i).
Proof.
  intros Hfind.
  pose proof (findCommand_Some cmds t i Hfind) as Hstart.
  split; [|split; [|split; [done|]]].
  - intros ->. discriminate Hfind.
  - destruct Hstart as (n & (c & Hc & _) & _). by eapply lookup_lt_Some.
  - rewrite findCommand_closed in Hfind. destruct t as [|x t]; [done|].
    destruct (last _) as [k|] eqn:Hk.
    + injection Hfind as ->. left. apply last_Some_elem_of in Hk.
      apply matching_indices_elem in Hk as (_ & n & Hn & Heq).
      rewrite Nat.sub_0_r in Hn. by apply strcmp_eq_true in Heq as <-.
    + right. intros j (n & Hn & Hp). clear Hk.
      set (P := matching_indices
                  (λ n, strncmp_eq (x :: t) n (strlen (x :: t))) 0 cmds) in *.
      assert (Hj : j ∈ P).
      { apply matching_indices_elem. split; [lia|]. rewrite Nat.sub_0_r.
        exists n. split; [done|]. by apply strncmp_eq_prefix. }
      destruct P as [|a [|b l]]; try done.
      injection Hfind as ->. by apply list_elem_of_singleton in Hj.
Qed.

(** * The dispatcher *)

Lemma set_argv_id (s : ArduinoCLI) av :
  _argv s = Some av → set_argv (Some av) s = s.
Proof. intros H. destruct s. cli_simpl in H. by subst. Qed.

Lemma skip_isspace_le (t : cstring) : skip_isspace t ≤ length t.
Proof.
  induction t as [|c t IH]; simpl; [lia|]. destruct (isspace c); simpl; lia.
Qed.

Lemma parseAndExecute_words (m : region) (s : ArduinoCLI)
    (argv_array : list (option nat)) :
  is_Some (_lineBuffer s) → _argv s = Some argv_array →
  1 ≤ _maxArgs s ≤ length argv_array →
  ∃ av', length av' = length argv_array
    ∧ snd (_parseAndExecute m s)
      = dispatch_words (line_words (_maxArgs s) (cstr_at m 0))
          (set_argv (Some av') s).
Proof.
  intros [buf Hbuf] Hargv Hmax.
  unfold _parseAndExecute, line_words. rewrite Hbuf, Hargv.
  set (text := cstr_at m 0).
  assert (Hrest : cstr_at m (skip_isspace text)
                  = drop (skip_isspace text) text).
  { apply (cstr_at_shift m 0). apply skip_isspace_le. }
  rewrite <- Hrest. clear Hrest.
  destruct (cstr_at m (skip_isspace text)) as [|c0 l0] eqn:Hline.
  { exists argv_array. split; [done|].
    cbn [tokens_of_line take]. rewrite take_nil. cbn [dispatch_words snd].
    by rewrite set_argv_id. }
  rewrite <- Hline. cbv zeta.
  set (r := _splitLine m (skip_isspace text) argv_array (_maxArgs s)).
  pose proof (splitLine_spec m (skip_isspace text) argv_array (_maxArgs s))
    as [Hc Hs].
  cbv zeta in Hc, Hs. fold r in Hc, Hs.
  destruct (Hs Hmax) as (U1 & U2 & U3 & U4). clear Hs.
  rewrite size_sub_small in Hc, U2 by lia.
  set (toks := take (_maxArgs s - 1) (tokens_of_line (cstr_at m (skip_isspace text)))) in *.
  assert (Hargc : sr_argc r = length toks).
  { subst toks. rewrite length_take. lia. }
  exists (sr_argv r). split; [done|].
  rewrite U1. cbn [flag_undefined]. rewrite U2, Hargc.
  set (s1 := set_argv (Some (sr_argv r)) s).
  destruct toks as [|arg0 toks'].
  { reflexivity. }
  assert ((Z.of_nat (length (arg0 :: toks')) =? 0)%Z = false) as ->
    by (apply Z.eqb_neq; cbn [length]; lia).
  cbn [hd dispatch_words].
  destruct (_findCommand (_commands s1) arg0) as [i|]; [|done].
  destruct (_commands s1 !! i) as [cmd|]; [|done].
  cbv zeta. destruct (_ <? _)%Z; [done|].
  by destruct (func cmd).
Qed.

Lemma processInput_running (m : region) (s : ArduinoCLI) :
  _isRunning s = true → is_Some (_lineBuffer s) → is_Some (_argv s) →
  processInput m s
  = _parseAndExecute m (set_dispatched (dispatched s ++ [cstr_at m 0]) s).
Proof.
  intros Hrun Hbuf Hargv. unfold processInput. rewrite Hrun.
  assert (bool_decide (is_Some (_lineBuffer s)) = true) as ->
    by (by apply bool_decide_eq_true).
  assert (bool_decide (is_Some (_argv s)) = true) as ->
    by (by apply bool_decide_eq_true).
  done.
Qed.

(** [processInput] on a running instance that satisfies the invariant:
    the line is recorded, [_argv] is overwritten, and the words decide
    the rest. *)
Lemma processInput_words (m : region) (s : ArduinoCLI) :
  cli_inv s → _isRunning s = true →
  ∃ av',
    snd (processInput m s)
    = dispatch_words (line_words (_maxArgs s) (cstr_at m 0))
        (set_argv (Some av')
           (set_dispatched (dispatched s ++ [cstr_at m 0]) s)).
Proof.
  intros Hinv Hrun.
  destruct (cli_inv_fields s Hinv)
    as (buf & av & Hbuf & Hargv & Hub & Hpos & Hcap & H64 & Hargs & Hnul).
  rewrite processInput_running; [|done | by exists buf | by exists av].
  destruct (parseAndExecute_words m
              (set_dispatched (dispatched s ++ [cstr_at m 0]) s) av)
    as (av' & _ & H); [by exists buf | done | done |].
  exists av'. exact H.
Qed.

(** ** The second scan counts the prefix matches *)

Lemma count_prefix_matches_length (arg0 : cstring) (prefix_len : nat)
    (cmds : list CLI_Command_t) :
  ∀ i acc,
    count_prefix_matches arg0 prefix_len cmds acc
    = (acc + Z.of_nat (length (matching_indices
                                 (λ n, strncmp_eq arg0 n prefix_len) i cmds)))%Z.
Proof.
  induction cmds as [|c cmds IH]; intros i acc; simpl; [lia|].
  destruct (name c) as [n|]; [|apply IH].
  destruct (strncmp_eq arg0 n prefix_len); [|apply IH].
  rewrite (IH (S i)). cbn [length]. lia.
Qed.

Lemma matching_indices_two (f : cstring → bool) (cmds : list CLI_Command_t) :
  2 ≤ length (matching_indices f 0 cmds) ↔
  ∃ i j, i ≠ j ∧ (∃ n, entry_named cmds i n ∧ f n = true)
         ∧ (∃ n, entry_named cmds j n ∧ f n = true).
Proof.
  pose proof (matching_indices_NoDup f cmds 0) as Hnd.
  assert (Hel : ∀ j, j ∈ matching_indices f 0 cmds ↔
                     ∃ n, entry_named cmds j n ∧ f n = true).
  { intros j. rewrite matching_indices_elem, Nat.sub_0_r. split.
    - by intros [_ H].
    - intros H. split; [lia | done]. }
  destruct (matching_indices f 0 cmds) as [|a [|b l]].
  - split; [simpl; lia|]. intros (i & _ & _ & Hi & _).
    apply Hel in Hi. by apply elem_of_nil in Hi.
  - split; [simpl; lia|]. intros (i & j & Hne & Hi & Hj).
    apply Hel, list_elem_of_singleton in Hi.
    apply Hel, list_elem_of_singleton in Hj. congruence.
  - split; [|simpl; lia]. intros _. exists a, b. split.
    + apply NoDup_cons_1_1 in Hnd. intros ->. apply Hnd, elem_of_cons.
      by left.
    + split; apply Hel; [apply elem_of_cons; by left|].
      apply elem_of_cons; right; apply elem_of_cons; by left.
Qed.

Lemma report_not_found_tx (arg0 : cstring) (s : ArduinoCLI) :
  let several := ∃ i j, i ≠ j ∧ entry_starts_with (_commands s) i arg0
                        ∧ entry_starts_with (_commands s) j arg0 in
  (several →
   report_not_found arg0 s
   = serial_write ([CR; LF] ++ lit "Error: Ambiguous command '" ++ arg0
                   ++ lit "'." ++ [CR; LF]) s)
  ∧ (¬ several →
     report_not_found arg0 s
     = serial_write ([CR; LF] ++ lit "Error: Unknown command '" ++ arg0
                     ++ lit "'. Type 'help' for list." ++ [CR; LF]) s).
Proof.
  cbv zeta. unfold report_not_found. cbv zeta.
  rewrite (count_prefix_matches_length arg0 (strlen arg0) (_commands s) 0).
  pose proof (matching_indices_two
                (λ n, strncmp_eq arg0 n (strlen arg0)) (_commands s)) as H2.
  assert (Hiff : 2 ≤ length (matching_indices
                               (λ n, strncmp_eq arg0 n (strlen arg0)) 0
                               (_commands s)) ↔
                 ∃ i j, i ≠ j ∧ entry_starts_with (_commands s) i arg0
                        ∧ entry_starts_with (_commands s) j arg0).
  { rewrite H2. unfold entry_starts_with.
    split; intros (i & j & Hne & (n & Hn & Hf) & (n' & Hn' & Hf'));
      exists i, j; (split; [done|]);
      (split; [exists n | exists n']); (split; [done|]);
      by apply strncmp_eq_prefix. }
  clear H2.
  set (k := length _) in *.
  split; intros Hs.
  - apply Hiff in Hs.
    assert ((1 <? 0 + Z.of_nat k)%Z = true) as -> by (apply Z.ltb_lt; lia).
    unfold serial_println, serial_write. cli_simpl.
    rewrite <- !app_assoc. by destruct s.
  - assert ((1 <? 0 + Z.of_nat k)%Z = false) as ->.
    { apply Z.ltb_ge. destruct (decide (2 ≤ k)) as [Hk|Hk]; [|lia].
      by apply Hiff in Hk. }
    unfold serial_println, serial_write. cli_simpl.
    rewrite <- !app_assoc. by destruct s.
Qed.

Lemma invoked_report_not_found (arg0 : cstring) (s : ArduinoCLI) :
  invoked (report_not_found arg0 s) = invoked s
  ∧ _isRunning (report_not_found arg0 s) = _isRunning s.
Proof.
  unfold report_not_found. cbv zeta. by destruct (_ <? _)%Z.
Qed.

(** Leading white space followed by delimiters only: no word. *)
Lemma line_words_blank (max_args : nat) (ws ds : cstring) :
  Forall (λ c, isspace c = true) ws → Forall (λ c, c ∈ delimiters) ds →
  line_words max_args (ws ++ ds) = [].
Proof.
  intros Hws Hds. unfold line_words.
  assert (H : tokens_of_line (drop (skip_isspace (ws ++ ds)) (ws ++ ds)) = []).
  { induction Hws as [|c ws Hc _ IH].
    - cbn [app]. rewrite <- (app_nil_r (drop _ ds)).
      rewrite tokens_of_line_delims; [done|]. by apply Forall_drop.
    - cbn [app skip_isspace]. rewrite Hc. cbn [drop]. exact IH. }
  rewrite H. apply take_nil.
Qed.

Lemma line_words_wf (max_args : nat) (text : cstring) :
  Forall (λ w, w ≠ [] ∧ Forall (λ c, c ∉ delimiters) w)
    (line_words max_args text)
  ∧ length (line_words max_args text) ≤ max_args - 1.
Proof.
  unfold line_words. split.
  - apply Forall_take.
    eapply Forall_impl; [apply tokens_of_line_wf|].
    intros w [Hw1 Hw2]. split; [done|].
    eapply Forall_impl; [exact Hw2|]. intros c. apply is_delim_false.
  - rewrite length_take. lia.
Qed.

(** ** What a line leads to *)

(** X10. A line whose first word resolves to no command, given to a
    running instance.  No handler is called and the session keeps
    running; when two or more command names start with the word the
    output is an empty line and [Error: Ambiguous command '<word>'.],
    otherwise an empty line and
    [Error: Unknown command '<word>'. Type 'help' for list.]. *)
Theorem processInput_not_found (m : region) (s : ArduinoCLI)
    (arg0 : cstring) (more : list cstring) :
  cli_inv s → _isRunning s = true →
  line_words (_maxArgs s) (cstr_at m 0) = arg0 :: more →
  _findCommand (_commands s) arg0 = None →
  let s' := snd (processInput m s) in
  let several := ∃ i j, i ≠ j ∧ entry_starts_with (_commands s) i arg0
                        ∧ entry_starts_with (_commands s) j arg0 in
  invoked s' = invoked s
  ∧ _isRunning s' = true
  ∧ (several →
     serial_tx s'
     = serial_tx s ++ [CR; LF] ++ lit "Error: Ambiguous command '" ++ arg0
       ++ lit "'." ++ [CR; LF])
  ∧ (¬ several →
     serial_tx s'
     = serial_tx s ++ [CR; LF] ++ lit "Error: Unknown command '" ++ arg0
       ++ lit "'. Type 'help' for list." ++ [CR; LF]).
Proof.
  intros Hinv Hrun Hwords Hfind s' several.
  destruct (processInput_words m s Hinv Hrun) as (av' & Hs').
  subst s'. rewrite Hs', Hwords. clear Hs'.
  set (s1 := set_argv _ _). cbn [dispatch_words].
  change (_commands s1) with (_commands s). rewrite Hfind.
  destruct (invoked_report_not_found arg0 s1) as [I1 I2].
  destruct (report_not_found_tx arg0 s1) as [T1 T2]. cbv zeta in T1, T2.
  change (_commands s1) with (_commands s) in T1, T2.
  split; [by rewrite I1|]. split; [by rewrite I2|].
  split; intros Hs.
  - by rewrite (T1 Hs).
  - by rewrite (T2 Hs).
Qed.

(** X11. A blank line -- white space, then nothing but delimiters, or
    nothing at all -- given to a running instance is recorded and then
    dropped in silence: nothing is written, no handler is called, the
    session keeps running. *)
Theorem processInput_blank (m : region) (s : ArduinoCLI) (ws ds : cstring) :
  cli_inv s → _isRunning s = true →
  cstr_at m 0 = ws ++ ds →
  Forall (λ c, isspace c = true) ws → Forall (λ c, c ∈ delimiters) ds →
  let s' := snd (processInput m s) in
  serial_tx s' = serial_tx s
  ∧ invoked s' = invoked s
  ∧ _isRunning s' = true
  ∧ dispatched s' = dispatched s ++ [ws ++ ds].
Proof.
  intros Hinv Hrun Htext Hws Hds s'.
  destruct (processInput_words m s Hinv Hrun) as (av' & Hs').
  subst s'. rewrite Hs', Htext, (line_words_blank _ ws ds Hws Hds).
  cbn [dispatch_words]. cli_simpl. done.
Qed.

(** X12. The contract a handler can rely on.  Every handler call that
    [processInput] makes is for a table entry [i] whose name starts with
    the first word of the line, and which has that very handler; [argv]
    holds the words of the line, at least one and at most [_maxArgs - 1]
    of them, each non-empty and free of delimiters; [argc] is their
    number, and [argc - 1] does not exceed the entry's [max_args]. *)
Theorem handler_contract (m : region) (s : ArduinoCLI)
    (i : nat) (argc : Z) (argv : list cstring) :
  cli_inv s →
  (i, argc, argv) ∈ invoked (snd (processInput m s)) →
  (i, argc, argv) ∈ invoked s
  ∨ (_isRunning s = true
     ∧ argv = line_words (_maxArgs s) (cstr_at m 0)
     ∧ argc = Z.of_nat (length argv)
     ∧ 1 ≤ length argv ≤ _maxArgs s - 1
     ∧ Forall (λ w, w ≠ [] ∧ Forall (λ c, c ∉ delimiters) w) argv
     ∧ entry_starts_with (_commands s) i (hd [] argv)
     ∧ ∃ cmd h, _commands s !! i = Some cmd ∧ func cmd = Some h
                ∧ (argc - 1 ≤ max_args cmd)%Z
                ∧ invoked (snd (processInput m s))
                  = invoked s ++ [(i, argc, argv)]).
Proof.
  intros Hinv Hin.
  destruct (_isRunning s) eqn:Hrun; cycle 1.
  { left. unfold processInput in Hin. rewrite Hrun in Hin. exact Hin. }
  destruct (processInput_words m s Hinv Hrun) as (av' & Hs').
  rewrite Hs' in Hin |- *. clear Hs'.
  destruct (line_words_wf (_maxArgs s) (cstr_at m 0)) as [Hwf Hlen].
  set (toks := line_words (_maxArgs s) (cstr_at m 0)) in *.
  set (s1 := set_argv _ _) in *.
  destruct toks as [|arg0 more] eqn:Htoks; [by left|].
  cbn [dispatch_words] in Hin |- *.
  change (_commands s1) with (_commands s) in *.
  destruct (_findCommand (_commands s) arg0) as [j|] eqn:Hfind; cycle 1.
  { left. destruct (invoked_report_not_found arg0 s1) as [I _].
    rewrite I in Hin. exact Hin. }
  destruct (_commands s !! j) as [cmd|] eqn:Hcmd; [|by left].
  cbv zeta in Hin |- *.
  destruct (max_args cmd <? _)%Z eqn:Hmany.
  { left. destruct (findCommand_Some _ _ _ Hfind) as (n & (c' & Hc' & Hn) & _).
    assert (c' = cmd) as -> by congruence.
    destruct (report_too_many_tx cmd n
                (Z.of_nat (length (arg0 :: more)) - 1) s1 Hn) as [_ I].
    rewrite I in Hin. exact Hin. }
  destruct (func cmd) as [h|] eqn:Hh; [|by left].
  destruct (frame_call_handler j h (Z.of_nat (length (arg0 :: more)))
              (arg0 :: more) (serial_println [] s1)) as [_ Hinv'].
  rewrite Hinv' in Hin |- *. change (invoked (serial_println [] s1))
    with (invoked s) in *.
  apply elem_of_app in Hin as [Hin | Hin]; [by left|].
  apply list_elem_of_singleton in Hin. injection Hin as -> -> ->.
  cbn [length] in *.
  right. split; [done|]. split; [done|]. split; [done|].
  split; [lia|]. split; [done|].
  split; [by apply findCommand_Some|].
  exists cmd, h. split; [done|]. split; [done|].
  split; [apply Z.ltb_ge in Hmany; lia | done].
Qed.

(** X13. More words than the argument vector holds are dropped in
    silence.  When the first word resolves to an entry with a handler
    whose [max_args] is at least [_maxArgs - 2], the line is never
    refused for too many arguments, however many words it has: the
    handler is called with the first [_maxArgs - 1] words and is told
    nothing of the others. *)
Theorem extra_words_dropped (m : region) (s : ArduinoCLI)
    (i : nat) (cmd : CLI_Command_t) (h : cli_command_handler_t) :
  cli_inv s → _isRunning s = true →
  let words := tokens_of_line
                 (drop (skip_isspace (cstr_at m 0)) (cstr_at m 0)) in
  let toks := take (_maxArgs s - 1) words in
  toks ≠ [] →
  _findCommand (_commands s) (hd [] toks) = Some i →
  _commands s !! i = Some cmd → func cmd = Some h →
  (Z.of_nat (_maxArgs s) - 2 ≤ max_args cmd)%Z →
  invoked (snd (processInput m s))
  = invoked s ++ [(i, Z.of_nat (length toks), toks)]
  ∧ ∃ av',
      snd (processInput m s)
      = call_handler i h (Z.of_nat (length toks)) toks
          (serial_println []
             (set_argv (Some av')
                (set_dispatched (dispatched s ++ [cstr_at m 0]) s))).
Proof.
  intros Hinv Hrun words toks Hne Hfind Hcmd Hh Hmax.
  destruct (processInput_words m s Hinv Hrun) as (av' & Hs').
  change (line_words (_maxArgs s) (cstr_at m 0)) with toks in Hs'.
  assert (Hlen : length toks ≤ _maxArgs s - 1)
    by (subst toks; rewrite length_take; lia).
  rewrite Hs'. clear Hs'. set (s1 := set_argv _ _).
  destruct toks as [|arg0 more] eqn:Htoks; [done|].
  cbn [dispatch_words hd] in *.
  change (_commands s1) with (_commands s). rewrite Hfind, Hcmd.
  cbv zeta.
  assert ((max_args cmd <? Z.of_nat (length (arg0 :: more)) - 1)%Z = false)
    as -> by (apply Z.ltb_ge; cbn [length] in *; lia).
  rewrite Hh. split; [|by exists av'].
  by destruct (frame_call_handler i h (Z.of_nat (length (arg0 :: more)))
                 (arg0 :: more) (serial_println [] s1)) as [_ ->].
Qed.

(** ** What the tokenizer writes *)







(** * A line typed at the terminal *)

(** The line-ending branch on a non-empty buffer, when no byte is
    waiting behind the line ending. *)
Lemma poll_byte_line_end_state (c : ascii) (s : ArduinoCLI) (buf : region) :
  cli_inv s → _lineBuffer s = Some buf → 0 < _bufferPos s →
  c = CR ∨ c = LF → serial_rx s = [] →
  poll_byte c s
  = let s2 := _resetBuffer
                (set_lineBuffer (Some (fst (processInput buf s)))
                   (snd (processInput buf s))) in
    if _isRunning s2 then _printPrompt s2 else s2.
Proof.
  intros Hinv Hbuf Hpos Hc Hrx.
  destruct (cli_inv_fields s Hinv)
    as (buf0 & av & Hbuf0 & Hargv & Hub & Hlt & Hcap & H64 & Hargs & Hnul).
  assert (buf0 = buf) as -> by congruence.
  unfold poll_byte.
  assert (((c =? CR)%char || (c =? LF)%char) = true) as ->
    by (destruct Hc as [-> | ->]; reflexivity).
  assert ((0 <? _bufferPos s) = true) as -> by (apply Nat.ltb_lt; lia).
  rewrite (buffer_store_in _ NUL s buf) by (done || lia).
  rewrite (list_insert_id buf _ NUL Hnul).
  rewrite (set_lineBuffer_id s buf Hbuf). rewrite Hbuf.
  pose proof (rx_processInput buf s) as Hrx'.
  destruct (processInput buf s) as [buf' s']. cbn [fst snd] in *.
  cbv zeta.
  set (s2 := _resetBuffer (set_lineBuffer (Some buf') s')).
  assert (Hrx2 : serial_rx s2 = []).
  { subst s2. destruct (resetBuffer_fields (set_lineBuffer (Some buf') s'))
      as (-> & _). cli_simpl. congruence. }
  destruct (_isRunning s2); cli_simpl; by rewrite Hrx2.
Qed.

(** What is left of the typed line when [processInput] returns. *)
Lemma line_end_fields (s' : ArduinoCLI) buf' :
  let s2 := _resetBuffer (set_lineBuffer buf' s') in
  let s3 := if _isRunning s2 then _printPrompt s2 else s2 in
  dispatched s3 = dispatched s'
  ∧ invoked s3 = invoked s'
  ∧ _isRunning s3 = _isRunning s'
  ∧ _bufferPos s3 = 0
  ∧ serial_tx s3
    = serial_tx s' ++ (if _isRunning s' then [CR; LF] ++ _prompt s' else []).
Proof.
  cbv zeta.
  destruct (resetBuffer_fields (set_lineBuffer buf' s'))
    as (R1 & R2 & R3 & R4 & R5 & R6).
  assert (Rp : _prompt (_resetBuffer (set_lineBuffer buf' s')) = _prompt s').
  { unfold _resetBuffer, buffer_store. cli_simpl.
    destruct buf' as [b|]; [|done]. by destruct (0 <? length b). }
  set (s2 := _resetBuffer (set_lineBuffer buf' s')) in *.
  cli_simpl in R2. cli_simpl in R3. cli_simpl in R4. cli_simpl in R5.
  rewrite <- R5.
  destruct (_isRunning s2) eqn:E; cli_simpl;
    rewrite ?R2, ?R3, ?R4, ?R6, ?Rp, ?E, <- ?app_assoc, ?app_nil_r; done.
Qed.

(** The state in which the line ending finds a typed line, and what
    [poll] makes of the line. *)
Lemma poll_typed_line (s : ArduinoCLI) (buf : region) (w : cstring)
    (c : ascii) :
  cli_inv s → _isRunning s = true → _lineBuffer s = Some buf →
  _bufferPos s = 0 → serial_rx s = [] →
  Forall (λ c, isprint c = true) w → w ≠ [] → 2 ≤ _maxLineLen s →
  c = CR ∨ c = LF →
  let line := take (_maxLineLen s - 1) w in
  ∃ bw av',
    let sw := serial_write (line ++ replicate (length w - length line) BEL)
                (set_bufferPos (length line) (set_lineBuffer (Some bw) s)) in
    let s' := dispatch_words (line_words (_maxArgs s) line)
                (set_argv (Some av')
                   (set_dispatched (dispatched s ++ [line]) sw)) in
    let s3 := poll (serial_receive (w ++ [c]) s) in
    dispatched s3 = dispatched s'
    ∧ invoked s3 = invoked s'
    ∧ _isRunning s3 = _isRunning s'
    ∧ _bufferPos s3 = 0
    ∧ serial_rx s3 = []
    ∧ serial_tx s3
      = serial_tx s' ++ (if _isRunning s' then [CR; LF] ++ _prompt s'
                         else []).
Proof.
  intros Hinv Hrun Hbuf Hpos Hrx Hw Hne Hlen Hc line.
  destruct (cli_inv_fields s Hinv)
    as (buf0 & av & Hbuf0 & Hargv & Hub & Hlt & Hcap & H64 & Hargs & Hnul).
  assert (buf0 = buf) as -> by congruence.
  assert (Hcr : (CR ∉ w) ∧ (LF ∉ w)).
  { split; intros Hin; eapply Forall_forall in Hw; try exact Hin;
      by destruct (isprint_not_line_end _ Hw). }
  destruct Hcr as [Hcr Hlf].
  assert (Hk : length line = Nat.min (length w) (_maxLineLen s - 1))
    by (subst line; rewrite length_take; lia).
  assert (Hwpos : 0 < length w)
    by (clear -Hne; destruct w; [done | simpl; lia]).
  assert (Hkpos : 0 < length line) by lia.
  set (bw := line ++ NUL :: drop (length line + 1) buf).
  set (sw := serial_write (line ++ replicate (length w - length line) BEL)
               (set_bufferPos (length line) (set_lineBuffer (Some bw) s))).
  assert (Hloop : poll_loop (length w) (set_serial_rx w s) = sw).
  { rewrite (poll_loop_printable w Hw s buf Hinv Hbuf). cbv zeta.
    rewrite Hpos. rewrite Nat.sub_0_r, <- Hk.
    assert (take (length line) w = line) as ->.
    { subst line. rewrite length_take.
      destruct (decide (_maxLineLen s - 1 ≤ length w)).
      - by rewrite Nat.min_l.
      - rewrite Nat.min_r by lia. by rewrite !take_ge by lia. }
    cbn [take Nat.add app].
    apply set_serial_rx_id. cli_simpl. exact Hrx. }
  assert (Hinvw : cli_inv sw).
  { rewrite <- Hloop. apply poll_loop_inv. by apply cli_inv_set_serial_rx. }
  assert (Hstr : cstr_at bw 0 = line).
  { unfold cstr_at, bw. rewrite drop_0. apply until_nul_app_nul.
    intros Hin. apply elem_of_take in Hin as (i & Hin & _).
    apply list_elem_of_lookup_2 in Hin.
    eapply Forall_forall in Hw; [|exact Hin]. discriminate Hw. }
  assert (Hpoll : poll (serial_receive (w ++ [c]) s) = poll_byte c sw).
  { rewrite poll_running; [|done | by exists buf].
    unfold serial_receive. cli_simpl. rewrite Hrx. cbn [app].
    rewrite length_app. cbn [length].
    rewrite (poll_loop_app w Hcr Hlf s [c] 1), Hloop.
    cbn [poll_loop]. cli_simpl.
    change (set_serial_rx [] (set_serial_rx [c] sw))
      with (set_serial_rx [] sw).
    f_equal. apply set_serial_rx_id. subst sw. cli_simpl. exact Hrx. }
  assert (Hposw : 0 < _bufferPos sw) by (subst sw; cli_simpl; exact Hkpos).
  rewrite Hpoll.
  assert (Hrxw : serial_rx sw = []) by (subst sw; cli_simpl; exact Hrx).
  rewrite (poll_byte_line_end_state c sw bw Hinvw eq_refl Hposw Hc Hrxw).
  destruct (processInput_words bw sw Hinvw Hrun) as (av' & Hs').
  rewrite Hstr in Hs'. change (_maxArgs sw) with (_maxArgs s) in Hs'.
  change (dispatched sw) with (dispatched s) in Hs'.
  exists bw, av'. cbv zeta. fold sw. rewrite <- Hs'.
  pose proof (rx_processInput bw sw) as Hrx'.
  destruct (line_end_fields (snd (processInput bw sw))
              (Some (fst (processInput bw sw))))
    as (L1 & L2 & L3 & L4 & L5).
  cbv zeta in L1, L2, L3, L4, L5.
  set (s2 := _resetBuffer _) in *.
  set (s3 := if _isRunning s2 then _printPrompt s2 else s2) in *.
  split; [done|]. split; [done|]. split; [done|]. split; [done|].
  split; [|done].
  subst s3 s2.
  destruct (resetBuffer_fields
              (set_lineBuffer (Some (fst (processInput bw sw)))
                 (snd (processInput bw sw)))) as (R1 & _).
  destruct (_isRunning (_resetBuffer _)); cli_simpl; rewrite R1;
    cli_simpl; rewrite Hrx'; exact Hrxw.
Qed.

(** X15. A command typed at the terminal.  The session is running with an
    empty buffer; the printable characters [w] of a line arrive -- no
    more than fit the buffer -- and then CR or LF.  The line dispatched is
    [w]; when its first word resolves to an entry with a handler and the
    number of words after the first does not exceed the entry's
    [max_args], that handler is called, once, with the words of the line.
    The terminal has received the echo of the line and a line break,
    then whatever the handler wrote, and -- if the handler has left the
    session running -- the prompt on a new line.  The buffer is empty
    again and nothing is left to read. *)
Theorem typed_command_runs (s : ArduinoCLI) (w : cstring) (c : ascii)
    (i : nat) (cmd : CLI_Command_t) (h : cli_command_handler_t) :
  cli_inv s → _isRunning s = true → _bufferPos s = 0 → serial_rx s = [] →
  Forall (λ c, isprint c = true) w → length w < _maxLineLen s →
  c = CR ∨ c = LF →
  let toks := line_words (_maxArgs s) w in
  toks ≠ [] →
  _findCommand (_commands s) (hd [] toks) = Some i →
  _commands s !! i = Some cmd → func cmd = Some h →
  (Z.of_nat (length toks) - 1 ≤ max_args cmd)%Z →
  let s' := poll (serial_receive (w ++ [c]) s) in
  dispatched s' = dispatched s ++ [w]
  ∧ invoked s' = invoked s ++ [(i, Z.of_nat (length toks), toks)]
  ∧ (∃ out,
       serial_tx s'
       = serial_tx s ++ w ++ [CR; LF] ++ out
         ++ (if _isRunning s' then [CR; LF] ++ _prompt s else []))
  ∧ _bufferPos s' = 0
  ∧ serial_rx s' = [].
Proof.
  intros Hinv Hrun Hpos Hrx Hw Hlen Hc toks Hne Hfind Hcmd Hh Hmax s'.
  destruct (cli_inv_fields s Hinv) as (buf & av & Hbuf & _).
  assert (Hwne : w ≠ []).
  { intros ->. apply Hne. subst toks. unfold line_words.
    cbn [skip_isspace drop tokens_of_line]. apply take_nil. }
  assert (H2 : 2 ≤ _maxLineLen s)
    by (clear -Hwne Hlen; destruct w; [done | simpl in Hlen; lia]).
  destruct (poll_typed_line s buf w c Hinv Hrun Hbuf Hpos Hrx Hw Hwne H2 Hc)
    as (bw & av' & H).
  cbv zeta in H. rewrite (take_ge w) in H by lia.
  rewrite Nat.sub_diag in H. cbn [replicate] in H. rewrite app_nil_r in H.
  fold toks in H. fold s' in H.
  set (s1 := set_argv (Some av') _) in H.
  assert (Hd : dispatch_words toks s1
               = call_handler i h (Z.of_nat (length toks)) toks
                   (serial_println [] s1)).
  { destruct toks as [|arg0 more] eqn:Htoks; [done|].
    cbn [dispatch_words hd] in *.
    change (_commands s1) with (_commands s). rewrite Hfind, Hcmd.
    cbv zeta.
    assert ((max_args cmd <? Z.of_nat (length (arg0 :: more)) - 1)%Z = false)
      as -> by (apply Z.ltb_ge; lia).
    by rewrite Hh. }
  rewrite Hd in H. clear Hd.
  destruct (frame_call_handler i h (Z.of_nat (length toks)) toks
              (serial_println [] s1)) as [F I].
  set (s2 := call_handler _ _ _ _ _) in *.
  destruct H as (D & I' & R & P & X & T).
  destruct F as (_ & _ & _ & _ & _ & _ & F7 & _ & F9 & _ & [out F11] & _).
  unfold s1 in F7, F9, F11, I.
  cli_simpl in F7. cli_simpl in F9. cli_simpl in F11. cli_simpl in I.
  split; [by rewrite D, F9|]. split; [by rewrite I', I|].
  split; [|done].
  exists out. rewrite T, F11, R, F7. rewrite app_nil_r, <- !app_assoc.
  reflexivity.
Qed.

(** ** A line longer than the buffer *)

Lemma dispatch_words_frame (toks : list cstring) (s1 : ArduinoCLI) :
  frame s1 (dispatch_words toks s1)
  ∧ (invoked (dispatch_words toks s1) = invoked s1
     ∨ ∃ i, invoked (dispatch_words toks s1)
            = invoked s1 ++ [(i, Z.of_nat (length toks), toks)]).
Proof.
  unfold dispatch_words. destruct toks as [|arg0 more];
    [split; [apply frame_refl | by left]|].
  destruct (_findCommand (_commands s1) arg0) as [i|] eqn:Hfind; cycle 1.
  { split; [apply frame_report_not_found|]. left.
    by destruct (invoked_report_not_found arg0 s1) as [-> _]. }
  destruct (_commands s1 !! i) as [cmd|] eqn:Hcmd;
    [|split; [apply frame_refl | by left]].
  cbv zeta. destruct (_ <? _)%Z.
  { split; [apply frame_report_too_many|]. left.
    destruct (findCommand_Some _ _ _ Hfind) as (n & (c' & Hc' & Hn) & _).
    assert (c' = cmd) as -> by congruence.
    by destruct (report_too_many_tx cmd n
                   (Z.of_nat (length (arg0 :: more)) - 1) s1 Hn) as [_ ->]. }
  destruct (func cmd) as [h|]; [|split; [apply frame_refl | by left]].
  destruct (frame_call_handler i h (Z.of_nat (length (arg0 :: more)))
              (arg0 :: more) (serial_println [] s1)) as [F I].
  split.
  - eapply frame_trans; [apply (frame_serial_println [])|exact F].
  - right. exists i. exact I.
Qed.

(** X16. A line longer than the buffer.  The session is running with an
    empty buffer; printable characters arrive, more than the
    [_maxLineLen - 1] the buffer holds, and then CR or LF.  The first
    [_maxLineLen - 1] characters are echoed, every further one is
    answered by a bell and lost, and the line that is dispatched -- and
    whose words reach a handler, if one is called -- is the line cut at
    [_maxLineLen - 1] characters.  No error is reported for the cut. *)
Theorem overlong_line_cut (s : ArduinoCLI) (w : cstring) (c : ascii) :
  cli_inv s → _isRunning s = true → _bufferPos s = 0 → serial_rx s = [] →
  Forall (λ c, isprint c = true) w →
  2 ≤ _maxLineLen s → _maxLineLen s ≤ length w →
  c = CR ∨ c = LF →
  let line := take (_maxLineLen s - 1) w in
  let s' := poll (serial_receive (w ++ [c]) s) in
  dispatched s' = dispatched s ++ [line]
  ∧ (∃ out,
       serial_tx s'
       = serial_tx s ++ line
         ++ replicate (length w - (_maxLineLen s - 1)) BEL ++ out)
  ∧ (invoked s' = invoked s
     ∨ ∃ i, invoked s'
            = invoked s
              ++ [(i, Z.of_nat (length (line_words (_maxArgs s) line)),
                   line_words (_maxArgs s) line)])
  ∧ _bufferPos s' = 0
  ∧ serial_rx s' = [].
Proof.
  intros Hinv Hrun Hpos Hrx Hw H2 Hlong Hc line s'.
  destruct (cli_inv_fields s Hinv) as (buf & av & Hbuf & _).
  assert (Hwne : w ≠ []) by (intros ->; simpl in Hlong; lia).
  destruct (poll_typed_line s buf w c Hinv Hrun Hbuf Hpos Hrx Hw Hwne H2 Hc)
    as (bw & av' & H).
  cbv zeta in H. fold line in H. fold s' in H.
  assert (Hl : length line = _maxLineLen s - 1)
    by (subst line; rewrite length_take; lia).
  rewrite Hl in H.
  set (s1 := set_argv (Some av') _) in H.
  destruct (dispatch_words_frame (line_words (_maxArgs s) line) s1)
    as [F I].
  set (s2 := dispatch_words _ s1) in *.
  destruct H as (D & I' & R & P & X & T).
  destruct F as (_ & _ & _ & _ & _ & _ & _ & _ & F9 & _ & [out F11] & _).
  unfold s1 in F9, F11, I. cli_simpl in F9. cli_simpl in F11. cli_simpl in I.
  split; [by rewrite D, F9|]. split.
  { eexists. rewrite T, F11. rewrite <- !app_assoc. reflexivity. }
  split; [by rewrite I'|]. done.
Qed.

(** * Tab completion *)

Lemma matching_names_ext (f g : cstring → bool) (cmds : list CLI_Command_t) :
  (∀ n, f n = g n) → matching_names f cmds = matching_names g cmds.
Proof.
  intros H. induction cmds as [|c cmds IH]; [done|]. simpl.
  destruct (name c) as [n|]; [|done]. by rewrite H, IH.
Qed.

Lemma matching_names_Forall (f : cstring → bool) (cmds : list CLI_Command_t) :
  Forall (λ n, f n = true) (matching_names f cmds).
Proof.
  induction cmds as [|c cmds IH]; [constructor|]. simpl.
  destruct (name c) as [n|]; [|done].
  destruct (f n) eqn:E; [by constructor | done].
Qed.

Lemma names_starting_with_prefix (word : cstring) (cmds : list CLI_Command_t) :
  Forall (λ n, word `prefix_of` n) (names_starting_with word cmds).
Proof.
  eapply Forall_impl; [apply matching_names_Forall|].
  intros n H. by apply bool_decide_eq_true in H.
Qed.

Lemma tab_scan_starting_with (word : cstring) (cmds : list CLI_Command_t) :
  tab_scan word (strlen word) (length cmds) cmds []
  = names_starting_with word cmds.
Proof.
  rewrite tab_scan_names by (simpl; lia). rewrite app_nil_l.
  apply matching_names_ext. intros n.
  destruct (strncmp_eq word n (strlen word)) eqn:E.
  - symmetry. apply bool_decide_eq_true. by apply strncmp_eq_prefix.
  - symmetry. apply bool_decide_eq_false. intros H.
    apply strncmp_eq_prefix in H. congruence.
Qed.

(** ** [_findLcp] *)

Lemma lcp_loop_spec (first : cstring) (others : list cstring) :
  ∀ rest lcp_len,
    rest = drop lcp_len first → lcp_len ≤ length first →
    (∀ m, m ∈ others →
          lcp_len ≤ length m ∧ take lcp_len m = take lcp_len first) →
    let L := lcp_loop rest others lcp_len in
    L ≤ length first
    ∧ (∀ m, m ∈ others → L ≤ length m ∧ take L m = take L first)
    ∧ (∀ k, k ≤ length first →
            (∀ m, m ∈ others → k ≤ length m ∧ take k m = take k first) →
            k ≤ L).
Proof.
  induction rest as [|c rest IH]; intros lcp_len Hrest Hlen Hinv; cbv zeta.
  - cbn [lcp_loop]. split; [done|]. split; [done|].
    intros k Hk _.
    assert (length (drop lcp_len first) = 0) as H0 by (by rewrite <- Hrest).
    rewrite length_drop in H0. lia.
  - cbn [lcp_loop].
    assert (Hc : first !! lcp_len = Some c).
    { rewrite <- (Nat.add_0_r lcp_len), <- lookup_drop, <- Hrest. done. }
    assert (Hlt : lcp_len < length first) by (by eapply lookup_lt_Some).
    destruct (forallb _ others) eqn:Hall.
    + apply IH.
      * replace (S lcp_len) with (lcp_len + 1) by lia.
        rewrite <- drop_drop, <- Hrest. done.
      * lia.
      * intros m Hm. destruct (Hinv m Hm) as [H1 H2].
        rewrite forallb_forall in Hall.
        assert (Hm' : In m others) by (by apply list_elem_of_In).
        specialize (Hall m Hm').
        destruct (m !! lcp_len) as [d|] eqn:Hd; [|done].
        apply Ascii.eqb_eq in Hall as ->.
        split; [by apply lookup_lt_Some in Hd|].
        rewrite (take_S_r m lcp_len c Hd), (take_S_r first lcp_len c Hc).
        by rewrite H2.
    + split; [lia|]. split; [done|].
      intros k Hk Hkall.
      destruct (decide (k ≤ lcp_len)) as [|Hgt]; [done|]. exfalso.
      assert (∃ m, m ∈ others ∧ m !! lcp_len ≠ Some c) as (m & Hm & Hne).
      { clear -Hall. induction others as [|m others IH]; [done|].
        cbn [forallb] in Hall. apply andb_false_iff in Hall as [Hm | Ho].
        - exists m. split; [apply elem_of_cons; by left|].
          intros Hd. rewrite Hd in Hm. by rewrite Ascii.eqb_refl in Hm.
        - destruct (IH Ho) as (m' & Hm' & Hne). exists m'.
          split; [apply elem_of_cons; by right | done]. }
      destruct (Hkall m Hm) as [Hkm Htk]. apply Hne.
      assert (take k m !! lcp_len = take k first !! lcp_len) as Heq
        by (by rewrite Htk).
      rewrite !lookup_take_lt in Heq by lia. by rewrite Heq.
Qed.

Lemma findLcp_spec (matches : list cstring) :
  matches ≠ [] →
  let first := hd [] matches in
  let L := _findLcp matches (length matches) in
  L ≤ length first
  ∧ (∀ m, m ∈ matches → L ≤ length m ∧ take L m = take L first)
  ∧ (∀ k, (∀ m, m ∈ matches → k ≤ length m ∧ take k m = take k first) →
          k ≤ L).
Proof.
  intros Hne. destruct matches as [|first others]; [done|]. clear Hne.
  cbv zeta. cbn [hd length]. unfold _findLcp. cbn [Nat.eqb hd tl].
  destruct others as [|second others].
  - cbn [length Nat.eqb]. unfold strlen. split; [done|]. split.
    + intros m Hm. apply list_elem_of_singleton in Hm as ->. done.
    + intros k Hk. destruct (Hk first) as [H _]; [|done].
      apply elem_of_cons. by left.
  - cbn [length Nat.eqb].
    rewrite (take_ge (second :: others)) by (cbn [length]; lia).
    destruct (lcp_loop_spec first (second :: others) first 0)
      as (H1 & H2 & H3); [done | lia | |].
    { intros m _. split; [lia | done]. }
    cbv zeta in H1, H2, H3. split; [done|]. split.
    + intros m Hm. apply elem_of_cons in Hm as [-> | Hm]; [done|].
      by apply H2.
    + intros k Hk. apply H3.
      * destruct (Hk first) as [H _]; [|done]. apply elem_of_cons. by left.
      * intros m Hm. apply Hk. apply elem_of_cons. by right.
Qed.

(** X17. [_findLcp] on a non-empty array of names returns the length of
    their longest common prefix: every name has at least that many
    characters and starts with the first [L] characters of the first
    name, and no greater number has this property.  With [count = 0] it
    returns 0. *)
Theorem findLcp_longest (matches : list cstring) :
  matches ≠ [] →
  let first := hd [] matches in
  let L := _findLcp matches (length matches) in
  (∀ m, m ∈ matches → take L first `prefix_of` m)
  ∧ L ≤ length first
  ∧ (∀ p, (∀ m, m ∈ matches → p `prefix_of` m) → length p ≤ L)
  ∧ _findLcp matches 0 = 0.
Proof.
  intros Hne first L.
  destruct (findLcp_spec matches Hne) as (H1 & H2 & H3).
  cbv zeta in H1, H2, H3. fold first L in H1, H2, H3.
  split; [|split; [done|split; [|done]]].
  - intros m Hm. destruct (H2 m Hm) as [Hl Ht]. rewrite <- Ht.
    exists (drop L m). by rewrite take_drop.
  - intros p Hp. apply H3. intros m Hm.
    assert (Hf : first ∈ matches).
    { subst first. destruct matches; [done|]. apply elem_of_cons. by left. }
    destruct (Hp m Hm) as [r ->]. destruct (Hp first Hf) as [r' ->].
    rewrite length_app. split; [lia|].
    by rewrite !take_app_length.
Qed.

(** ** [_handleTab] on a word *)

(** [_handleTab] once the word in front of the cursor and the names that
    start with it are known. *)
Lemma handleTab_word (s : ArduinoCLI) (buf : region) (word : cstring) :
  cli_inv s → _lineBuffer s = Some buf →
  take (_bufferPos s) buf = word → NUL ∉ word →
  length word = _bufferPos s
  ∧ cstr_at buf 0 = word
  ∧ _handleTab s =
      if strchr_found word SPACE then serial_write [BEL] s
      else if length word =? 0 then s
      else
        let matches := names_starting_with word (_commands s) in
        let pos := _bufferPos s in
        if length matches =? 0 then serial_write [BEL] s
        else if length matches =? 1 then
          let completion := hd [] matches in
          let remaining_len := size_sub (strlen completion) (length word) in
          if pos + remaining_len <? size_sub (_maxLineLen s) 2 then
            set_bufferPos (pos + (remaining_len + 1))
              (serial_write [SPACE]
                 (serial_write (drop (length word) completion)
                    (buffer_store (pos + remaining_len + 1) NUL
                       (buffer_store (pos + remaining_len) SPACE
                          (buffer_strncpy pos (drop (length word) completion)
                             remaining_len s)))))
          else serial_write [BEL] s
        else
          let lcp_len := _findLcp matches (length matches) in
          if length word <? lcp_len then
            let remaining_len := size_sub lcp_len (length word) in
            if pos + remaining_len <? size_sub (_maxLineLen s) 1 then
              set_bufferPos (pos + remaining_len)
                (serial_write (drop (length word) (hd [] matches))
                   (buffer_store (pos + remaining_len) NUL
                      (buffer_strncpy pos
                         (drop (length word) (hd [] matches))
                         remaining_len s)))
            else serial_write [BEL] s
          else
            serial_write word
              (_printPrompt
                 (foldl (λ acc m, serial_write (lit "  ") (serial_write m acc))
                    (serial_println [] s) matches)).
Proof.
  intros Hinv Hbuf Hword Hnul.
  destruct (cli_inv_fields s Hinv)
    as (buf0 & av & Hbuf0 & Hargv & Hub & Hpos & Hcap & H64 & Hargs & Hterm).
  assert (buf0 = buf) as -> by congruence.
  assert (Hwlen : length word = _bufferPos s).
  { rewrite <- Hword, length_take. lia. }
  assert (Hstr : cstr_at buf 0 = word).
  { unfold cstr_at. rewrite drop_0.
    rewrite <- (take_drop (_bufferPos s) buf), Hword.
    rewrite (drop_S buf NUL _ Hterm). by apply until_nul_app_nul. }
  split; [done|]. split; [done|].
  unfold _handleTab. rewrite Hbuf. cbv zeta. rewrite Hword.
  rewrite (until_nul_id word Hnul).
  assert ((_bufferPos s <? CLI_DEFAULT_MAX_LINE_LEN) = true) as ->
    by (apply Nat.ltb_lt; lia).
  assert ((length buf <? _bufferPos s) = false) as ->
    by (apply Nat.ltb_ge; lia).
  cbn [negb orb andb flag_undefined].
  destruct (strchr_found word SPACE); [done|]. unfold strlen.
  destruct (length word =? 0); [done|].
  rewrite tab_scan_starting_with.
  destruct (length (names_starting_with word (_commands s)) =? 0); [done|].
  destruct (length (names_starting_with word (_commands s)) =? 1); [done|].
  destruct (length word <? _); [done|].
  f_equal.
  assert (Hrx : ∀ ms s0, _lineBuffer s0 = Some buf →
            _lineBuffer
              (foldl (λ acc m, serial_write (lit "  ") (serial_write m acc))
                 s0 ms) = Some buf).
  { induction ms as [|m ms IH]; intros s0 H0; [done|]. cbn [foldl].
    by apply IH. }
  cli_simpl. rewrite Hrx by done. cbn [fmap option_fmap option_map default].
  exact Hstr.
Qed.

Lemma names_starting_with_elem (word : cstring) (cmds : list CLI_Command_t)
    (n : cstring) :
  n ∈ names_starting_with word cmds ↔
  (∃ i, entry_named cmds i n) ∧ word `prefix_of` n.
Proof.
  unfold names_starting_with, entry_named.
  induction cmds as [|c cmds IH]; simpl.
  - split; [intros H; by apply elem_of_nil in H|].
    intros [(i & c & Hc & _) _]. discriminate.
  - assert (Hcons : (∃ i c', (c :: cmds) !! i = Some c' ∧ name c' = Some n) ↔
                    name c = Some n
                    ∨ ∃ i c', cmds !! i = Some c' ∧ name c' = Some n).
    { split.
      - intros ([|i] & c' & Hc' & Hn); simpl in Hc'.
        + left. congruence.
        + right. by exists i, c'.
      - intros [Hn | (i & c' & Hc' & Hn)].
        + by exists 0, c.
        + by exists (S i), c'. }
    rewrite Hcons. clear Hcons.
    destruct (name c) as [n0|] eqn:Hn0.
    + destruct (bool_decide (word `prefix_of` n0)) eqn:Hp.
      * apply bool_decide_eq_true in Hp.
        rewrite elem_of_cons, IH. split.
        -- intros [-> | [H1 H2]]; [by split; [left|] | by split; [right|]].
        -- intros [[[= ->] | H1] H2]; [by left | by right].
      * apply bool_decide_eq_false in Hp. rewrite IH. split.
        -- intros [H1 H2]. by split; [right|].
        -- intros [[[= ->] | H1] H2]; [done | by split].
    + rewrite IH. split.
      * intros [H1 H2]. by split; [right|].
      * intros [[[=] | H1] H2]. by split.
Qed.

Lemma serial_write_twice (a b : list ascii) (s : ArduinoCLI) :
  serial_write b (serial_write a s) = serial_write (a ++ b) s.
Proof. unfold serial_write. cli_simpl. by rewrite <- app_assoc. Qed.

Lemma list_matches_state (matches : list cstring) :
  ∀ s, foldl (λ acc m, serial_write (lit "  ") (serial_write m acc)) s matches
       = serial_write (concat ((λ m, m ++ lit "  ") <$> matches)) s.
Proof.
  induction matches as [|m ms IH]; intros s.
  - cbn [foldl fmap list_fmap concat]. unfold serial_write.
    rewrite app_nil_r. by destruct s.
  - cbn [foldl]. rewrite IH, !serial_write_twice.
    cbn [fmap list_fmap concat]. by rewrite <- app_assoc.
Qed.

(** X18. The cases in which a tab completes nothing.  On an empty buffer
    the byte has no effect at all.  When the buffer holds a space -- the
    cursor is past the command word -- or when no command name starts
    with the word typed, the only effect is one bell. *)
Theorem handleTab_rejects (s : ArduinoCLI) (buf : region) (word : cstring) :
  cli_inv s → _lineBuffer s = Some buf →
  take (_bufferPos s) buf = word → NUL ∉ word →
  (word = [] → _handleTab s = s)
  ∧ (SPACE ∈ word → _handleTab s = serial_write [BEL] s)
  ∧ (word ≠ [] → SPACE ∉ word →
     (∀ i, ¬ entry_starts_with (_commands s) i word) →
     _handleTab s = serial_write [BEL] s).
Proof.
  intros Hinv Hbuf Hword Hnul.
  destruct (handleTab_word s buf word Hinv Hbuf Hword Hnul) as (_ & _ & ->).
  split; [|split].
  - intros ->. reflexivity.
  - intros Hsp. apply strchr_found_elem in Hsp. by rewrite Hsp.
  - intros Hne Hsp Hnone. rewrite (strchr_found_false word SPACE Hsp).
    assert ((length word =? 0) = false) as ->.
    { apply Nat.eqb_neq. destruct word; [done | simpl; lia]. }
    cbv zeta.
    assert (names_starting_with word (_commands s) = []) as ->; [|done].
    destruct (names_starting_with word (_commands s)) as [|n l] eqn:E;
      [done|]. exfalso.
    assert (Hn : n ∈ names_starting_with word (_commands s)).
    { rewrite E. apply elem_of_cons. by left. }
    apply names_starting_with_elem in Hn as [[i Hi] Hp].
    apply (Hnone i). by exists n.
Qed.

(** X19. Tab on a word with which several names start, when the names
    have more in common than the word.  With [lcp] the length of the
    longest common prefix of these names: when
    [lcp < _maxLineLen - 1], the buffer is extended to that prefix,
    terminated, and the cursor moves to its end; no space is added.
    What is echoed is not the part added but the first matching name
    from the end of the word to its own end.  Otherwise the only effect
    is one bell. *)
Theorem handleTab_common_prefix (s : ArduinoCLI) (buf : region)
    (word : cstring) :
  cli_inv s → _lineBuffer s = Some buf →
  take (_bufferPos s) buf = word →
  word ≠ [] → NUL ∉ word → SPACE ∉ word →
  let matches := names_starting_with word (_commands s) in
  let first := hd [] matches in
  let lcp := _findLcp matches (length matches) in
  2 ≤ length matches → length word < lcp →
  (lcp < _maxLineLen s - 1 →
   ∃ buf',
     _lineBuffer (_handleTab s) = Some buf'
     ∧ length buf' = length buf
     ∧ take lcp buf' = take lcp first
     ∧ word `prefix_of` take lcp first
     ∧ buf' !! lcp = Some NUL
     ∧ _bufferPos (_handleTab s) = lcp
     ∧ serial_tx (_handleTab s) = serial_tx s ++ drop (length word) first
     ∧ edit_frame s (_handleTab s))
  ∧ (_maxLineLen s - 1 ≤ lcp → _handleTab s = serial_write [BEL] s).
Proof.
  intros Hinv Hbuf Hword Hne Hnul Hsp matches first lcp Htwo Hlcp.
  destruct (cli_inv_fields s Hinv)
    as (buf0 & av & Hbuf0 & Hargv & Hub & Hpos & Hcap & H64 & Hargs & Hterm).
  assert (buf0 = buf) as -> by congruence.
  destruct (handleTab_word s buf word Hinv Hbuf Hword Hnul)
    as (Hwlen & _ & Hexec).
  rewrite Hexec. clear Hexec.
  rewrite (strchr_found_false word SPACE Hsp).
  assert ((length word =? 0) = false) as ->.
  { apply Nat.eqb_neq. destruct word; [done | simpl; lia]. }
  cbv zeta. fold matches. fold lcp. fold first.
  assert ((length matches =? 0) = false) as -> by (apply Nat.eqb_neq; lia).
  assert ((length matches =? 1) = false) as -> by (apply Nat.eqb_neq; lia).
  assert ((length word <? lcp) = true) as -> by (apply Nat.ltb_lt; lia).
  assert (Hmne : matches ≠ []) by (intros E; rewrite E in Htwo; simpl in Htwo; lia).
  destruct (findLcp_spec matches Hmne) as (L1 & _ & _).
  cbv zeta in L1. fold first lcp in L1.
  assert (Hfirst : word `prefix_of` first).
  { pose proof (names_starting_with_prefix word (_commands s)) as Hall.
    fold matches in Hall. subst first.
    destruct matches as [|m ms]; [done|]. by inversion Hall. }
  destruct Hfirst as [r Hr].
  rewrite (size_sub_small lcp) by lia.
  rewrite (size_sub_small (_maxLineLen s)) by lia.
  replace (_bufferPos s + (lcp - length word)) with lcp by lia.
  assert (Htake : take (_bufferPos s) buf
                  ++ take (lcp - length word) (drop (length word) first)
                  = take lcp first).
  { rewrite Hword, Hr, drop_app_length.
    rewrite take_app_ge by lia. done. }
  split.
  - intros Hroom.
    assert ((lcp <? _maxLineLen s - 1) = true) as ->
      by (apply Nat.ltb_lt; lia).
    pose proof (tab_lcp_stores s buf (drop (length word) first)
                  (_bufferPos s) (lcp - length word) Hbuf) as Hst.
    replace (_bufferPos s + (lcp - length word)) with lcp in Hst by lia.
    rewrite Hst; cycle 1.
    { lia. }
    { rewrite length_drop. lia. }
    rewrite Htake.
    assert (Hl : length (take lcp first) = lcp)
      by (rewrite length_take; lia).
    exists (take lcp first ++ NUL :: drop (lcp + 1) buf). cli_simpl.
    split; [done|]. split.
    { rewrite length_app, Hl. cbn [length]. rewrite length_drop. lia. }
    split; [by rewrite take_app_length'|].
    split.
    { rewrite Hr. rewrite take_app_ge by lia. by exists (take (lcp - length word) r). }
    split; [by rewrite lookup_app_r, Hl, Nat.sub_diag by lia|].
    done.
  - intros Hfull.
    assert ((lcp <? _maxLineLen s - 1) = false) as ->
      by (apply Nat.ltb_ge; lia).
    done.
Qed.

(** X20. Tab on a word with which several names start and which is all
    they have in common.  The names are listed: the stream receives a
    line break, every matching name in table order, each followed by two
    spaces, then the prompt on a new line and the word typed so far.  The
    buffer and the cursor stay as they are. *)
Theorem handleTab_lists (s : ArduinoCLI) (buf : region) (word : cstring) :
  cli_inv s → _lineBuffer s = Some buf →
  take (_bufferPos s) buf = word →
  word ≠ [] → NUL ∉ word → SPACE ∉ word →
  let matches := names_starting_with word (_commands s) in
  2 ≤ length matches →
  _findLcp matches (length matches) ≤ length word →
  _handleTab s
  = serial_write
      ([CR; LF] ++ concat ((λ m, m ++ lit "  ") <$> matches)
       ++ [CR; LF] ++ _prompt s ++ word) s.
Proof.
  intros Hinv Hbuf Hword Hne Hnul Hsp matches Htwo Hlcp.
  destruct (handleTab_word s buf word Hinv Hbuf Hword Hnul)
    as (Hwlen & _ & Hexec).
  rewrite Hexec. clear Hexec.
  rewrite (strchr_found_false word SPACE Hsp).
  assert ((length word =? 0) = false) as ->.
  { apply Nat.eqb_neq. destruct word; [done | simpl; lia]. }
  cbv zeta. fold matches.
  assert ((length matches =? 0) = false) as -> by (apply Nat.eqb_neq; lia).
  assert ((length matches =? 1) = false) as -> by (apply Nat.eqb_neq; lia).
  assert ((length word <? _findLcp matches (length matches)) = false) as ->
    by (apply Nat.ltb_ge; lia).
  rewrite list_matches_state. unfold _printPrompt, serial_println.
  rewrite !serial_write_twice. cli_simpl. reflexivity.
Qed.

(** * [printHelp] *)

Lemma printHelp_entry_state (c : CLI_Command_t) (s : ArduinoCLI) :
  printHelp_entry c s = serial_write (help_line c) s.
Proof.
  unfold printHelp_entry, help_line. destruct (name c) as [n|].
  - cbv zeta. unfold serial_println, serial_print_int, strlen.
    rewrite !serial_write_twice.
    assert (Z.to_nat (if (15 - Z.of_nat (length n) <? 1)%Z then 1%Z
                      else (15 - Z.of_nat (length n))%Z)
            = Nat.max 1 (15 - length n)) as ->.
    { destruct (_ <? _)%Z eqn:E;
        [apply Z.ltb_lt in E | apply Z.ltb_ge in E]; lia. }
    reflexivity.
  - unfold serial_write. rewrite app_nil_r. by destruct s.
Qed.

Lemma printHelp_entries_state (cmds : list CLI_Command_t) :
  ∀ s, foldl (λ acc c, printHelp_entry c acc) s cmds
       = serial_write (concat (help_line <$> cmds)) s.
Proof.
  induction cmds as [|c cmds IH]; intros s.
  - cbn [foldl fmap list_fmap concat]. unfold serial_write.
    rewrite app_nil_r. by destruct s.
  - cbn [foldl]. rewrite IH, printHelp_entry_state, serial_write_twice.
    reflexivity.
Qed.

(** X21. [printHelp] only writes, and what it writes is the heading
    [Available commands:] followed by one line for every entry of the
    table that has a name, in table order: two spaces, the name, spaces
    up to column 17 (at least one), a dash and a space, the help text (nothing
    for a null one), and the entry's [max_args] in parentheses.  Nothing
    else changes. *)
Theorem printHelp_output (s : ArduinoCLI) :
  printHelp s
  = serial_write
      (lit "Available commands:" ++ [CR; LF]
       ++ concat (help_line <$> _commands s)) s
  ∧ ∀ c n, name c = Some n →
      ∃ rest,
        help_line c
        = (lit "  " ++ n ++ replicate (Nat.max 1 (15 - length n)) SPACE)
          ++ lit "- " ++ rest
        ∧ length (lit "  " ++ n ++ replicate (Nat.max 1 (15 - length n)) SPACE)
          = Nat.max 17 (length n + 3).
Proof.
  split.
  - unfold printHelp. rewrite printHelp_entries_state.
    unfold serial_println. rewrite !serial_write_twice.
    by rewrite <- ?app_assoc.
  - intros c n Hn. unfold help_line. rewrite Hn. eexists. split.
    + rewrite <- !app_assoc. reflexivity.
    + rewrite !length_app, length_replicate. cbn [lit length list_ascii_of_string]. lia.
Qed.

(** * Construction and configuration *)

(** X22. What the constructor leaves.  The session is not running, the
    cursor is at 0, the capacities are 64 and 9, the prompt is [> ].
    Either both allocations succeeded: the line buffer has 64 bytes, the
    first of them the terminator, the argument vector has 9 entries, and
    nothing has been written; or one of them failed: then both pointers
    are null and the one line
    [Error: CLI buffer allocation failed!] has been written. *)
Theorem construction_outcome (rx : list ascii) (cmds : list CLI_Command_t)
    (heap_line : option region) (heap_argv : option (list (option nat))) :
  let s := ArduinoCLI_new rx cmds heap_line heap_argv in
  _isRunning s = false ∧ _bufferPos s = 0
  ∧ _maxLineLen s = CLI_DEFAULT_MAX_LINE_LEN
  ∧ _maxArgs s = CLI_DEFAULT_MAX_ARGS + 1
  ∧ _prompt s = lit "> " ∧ _commands s = cmds ∧ serial_rx s = rx
  ∧ undefined s = false ∧ dispatched s = [] ∧ invoked s = []
  ∧ ((∃ buf av,
        heap_line = Some buf ∧ heap_argv = Some av
        ∧ length buf = CLI_DEFAULT_MAX_LINE_LEN
        ∧ length av = CLI_DEFAULT_MAX_ARGS + 1
        ∧ _lineBuffer s = Some (<[0 := NUL]> buf) ∧ _argv s = Some av
        ∧ serial_tx s = [])
     ∨ (_lineBuffer s = None ∧ _argv s = None
        ∧ serial_tx s = lit "Error: CLI buffer allocation failed!" ++ [CR; LF])).
Proof.
  cbv zeta. unfold ArduinoCLI_new, _allocateBuffers, malloc. cbv zeta.
  cli_simpl.
  destruct heap_line as [buf|]; cycle 1.
  { cbv iota. unfold _resetBuffer. cli_simpl. repeat split; try done.
    right. done. }
  destruct (length buf =? CLI_DEFAULT_MAX_LINE_LEN) eqn:Hb; cycle 1.
  { cbv iota. unfold _resetBuffer. cli_simpl. repeat split; try done.
    right. done. }
  apply Nat.eqb_eq in Hb.
  destruct heap_argv as [av|]; cycle 1.
  { cbv iota. unfold _resetBuffer. cli_simpl. repeat split; try done.
    right. done. }
  destruct (length av =? CLI_DEFAULT_MAX_ARGS + 1) eqn:Ha; cycle 1.
  { cbv iota. unfold _resetBuffer. cli_simpl. repeat split; try done.
    right. done. }
  apply Nat.eqb_eq in Ha. cbv iota. cbn [snd].
  unfold _resetBuffer. cli_simpl.
  rewrite (buffer_store_in 0 NUL _ buf);
    [|done | rewrite Hb; unfold CLI_DEFAULT_MAX_LINE_LEN; lia].
  cli_simpl. repeat split; try done.
  left. by exists buf, av.
Qed.

(** X23. The setters after construction.  None of them allocates, so a
    capacity may be lowered but not raised: [setMaxLineLen(len)] keeps
    the invariant when [len] is above the cursor and within the
    allocation (and within the 64 bytes of the local array of
    [_handleTab]); [setMaxArgs(num)] keeps it when [num + 1] entries fit
    the vector allocated.  A zero is ignored by both.  [setPrompt]
    keeps the first 17 characters of its argument and ignores a null
    pointer; the prompt that [start] then prints is that text on a new
    line. *)
Theorem setters_keep_invariant (s : ArduinoCLI) (buf : region)
    (av : list (option nat)) :
  cli_inv s → _lineBuffer s = Some buf → _argv s = Some av →
  (∀ len, _bufferPos s < len → len ≤ length buf →
          len ≤ CLI_DEFAULT_MAX_LINE_LEN →
          cli_inv (setMaxLineLen len s) ∧ _maxLineLen (setMaxLineLen len s) = len)
  ∧ (∀ num, 0 < num → num < length av → num < SIZE_MAX →
            cli_inv (setMaxArgs num s) ∧ _maxArgs (setMaxArgs num s) = num + 1)
  ∧ setMaxLineLen 0 s = s ∧ setMaxArgs 0 s = s
  ∧ (∀ prompt,
       cli_inv (setPrompt prompt s)
       ∧ serial_tx (start (setPrompt prompt s))
         = serial_tx s ++ [CR; LF]
           ++ match prompt with
              | Some p => take 17 p
              | None => _prompt s
              end).
Proof.
  intros Hinv Hbuf Hargv.
  destruct (cli_inv_fields s Hinv)
    as (buf0 & av0 & Hbuf0 & Hargv0 & Hub & Hpos & Hcap & H64 & Hargs & Hterm).
  assert (buf0 = buf) as -> by congruence.
  assert (av0 = av) as -> by congruence.
  split; [|split; [|split; [done|split; [done|]]]].
  - intros len Hlo Hhi H64'. unfold setMaxLineLen.
    assert ((0 <? len) = true) as -> by (apply Nat.ltb_lt; lia).
    split; [|done]. split.
    + split; [done|]. by exists buf, av.
    + by exists buf.
  - intros num H0 Hhi Hmax. unfold setMaxArgs.
    assert ((0 <? num) = true) as -> by (apply Nat.ltb_lt; lia).
    assert (Hadd : size_add num 1 = num + 1).
    { unfold size_add. destruct (num + 1 <=? SIZE_MAX) eqn:E; [done|].
      apply Nat.leb_gt in E. lia. }
    rewrite Hadd. split; [|done]. split.
    + split; [done|]. exists buf, av. cli_simpl. repeat split; (done || lia).
    + by exists buf.
  - intros prompt. split.
    + destruct prompt as [p|]; [|done]. split.
      * split; [done|]. by exists buf, av.
      * by exists buf.
    + destruct prompt as [p|]; cli_simpl; by rewrite <- ?app_assoc.
Qed.

(** * Capacities raised after construction *)

(** A store past the end of [argv_local] is made as soon as [argc]
    reaches its size. *)
Lemma split_loop_overflow (max_args_local : nat) :
  ∀ fuel token m saveptr argv_local argc ub,
    let r := split_loop fuel max_args_local token m saveptr argv_local
               argc ub in
    length argv_local ≤ sr_argc r → sr_undefined r = true.
Proof.
  induction fuel as [|fuel IH];
    intros token m saveptr argv_local argc ub; cbv zeta.
  - cbn [split_loop sr_argc sr_undefined]. intros H.
    assert ((argc <? length argv_local) = false) as ->
      by (apply Nat.ltb_ge; lia).
    apply orb_true_r.
  - cbn [split_loop].
    assert (Hfin : length argv_local ≤ argc →
                   ub || negb (argc <? length argv_local) = true).
    { intros H.
      assert ((argc <? length argv_local) = false) as ->
        by (apply Nat.ltb_ge; lia).
      apply orb_true_r. }
    destruct token as [t|]; [|exact Hfin].
    destruct (argc <? size_sub max_args_local 1); [|exact Hfin].
    destruct (strtok_r m saveptr) as [[token' m'] save'].
    intros H. apply IH. by rewrite length_insert.
Qed.

Lemma splitLine_overflow (m : region) (line : nat)
    (argv_local : list (option nat)) (max_args_local : nat) :
  length argv_local ≤ sr_argc (_splitLine m line argv_local max_args_local) →
  sr_undefined (_splitLine m line argv_local max_args_local) = true.
Proof.
  unfold _splitLine. destruct (strtok_r m line) as [[token m'] save'].
  apply split_loop_overflow.
Qed.

(** X24. [setMaxArgs] after construction with more than the vector
    holds.  The setter stores [num + 1] and allocates nothing; with
    [num] at least the number of entries of the vector allocated, a
    line of as many words as the vector has entries makes the tokenizer
    store a token pointer, or the null sentinel, past its end: undefined
    behaviour. *)
Theorem setMaxArgs_overflow (s : ArduinoCLI) (av : list (option nat))
    (num : nat) (m : region) :
  cli_inv s → _isRunning s = true → _argv s = Some av →
  length av ≤ num → num < SIZE_MAX →
  length av
  ≤ length (tokens_of_line
              (drop (skip_isspace (cstr_at m 0)) (cstr_at m 0))) →
  _argv (setMaxArgs num s) = Some av
  ∧ length av < _maxArgs (setMaxArgs num s)
  ∧ undefined (snd (processInput m (setMaxArgs num s))) = true.
Proof.
  intros Hinv Hrun Hargv Hnum Hmax Hwords.
  destruct (cli_inv_fields s Hinv)
    as (buf & av0 & Hbuf & Hargv0 & Hub & Hpos & Hcap & H64 & Hargs & Hnul).
  assert (av0 = av) as -> by congruence.
  assert (Hset : setMaxArgs num s = set_maxArgs (num + 1) s).
  { unfold setMaxArgs.
    assert ((0 <? num) = true) as -> by (apply Nat.ltb_lt; lia).
    unfold size_add. destruct (num + 1 <=? SIZE_MAX) eqn:E; [done|].
    apply Nat.leb_gt in E. lia. }
  rewrite Hset. cli_simpl. split; [done|]. split; [lia|].
  rewrite processInput_running; [|done | by exists buf | by exists av].
  unfold _parseAndExecute. cli_simpl. rewrite Hbuf, Hargv.
  set (text := cstr_at m 0) in *.
  assert (Hrest : cstr_at m (skip_isspace text)
                  = drop (skip_isspace text) text).
  { apply (cstr_at_shift m 0). apply skip_isspace_le. }
  rewrite <- Hrest in Hwords.
  destruct (cstr_at m (skip_isspace text)) as [|c0 l0] eqn:Hline.
  { cbn [tokens_of_line length] in Hwords. lia. }
  rewrite <- Hline in *. cbv zeta.
  pose proof (splitLine_spec m (skip_isspace text) av (num + 1)) as [Hc _].
  cbv zeta in Hc. rewrite size_sub_small in Hc by lia.
  replace (num + 1 - 1) with num in Hc by lia.
  pose proof (splitLine_overflow m (skip_isspace text) av (num + 1)) as Hov.
  set (r := _splitLine m (skip_isspace text) av (num + 1)) in *.
  rewrite Hov by lia. cbn [flag_undefined].
  set (s1 := set_undefined true _).
  assert (H1 : undefined s1 = true) by done.
  destruct (_ =? 0)%Z; [done|].
  destruct (_findCommand _ _) as [i|].
  - destruct (_commands s1 !! i) as [cmd|]; [|done].
    destruct (_ <? _)%Z.
    + cbn [snd].
      destruct (frame_report_too_many cmd (Z.of_nat (sr_argc r) - 1) s1)
        as (_ & _ & _ & _ & _ & _ & _ & F8 & _). by rewrite F8.
    + destruct (func cmd) as [h|]; [|done]. cbn [snd].
      destruct (frame_call_handler i h (Z.of_nat (sr_argc r))
                  (argv_strings r) (serial_println [] s1))
        as [(_ & _ & _ & _ & _ & _ & _ & F8 & _) _]. by rewrite F8.
  - cbn [snd].
    destruct (frame_report_not_found (hd [] (argv_strings r)) s1)
      as (_ & _ & _ & _ & _ & _ & _ & F8 & _). by rewrite F8.
Qed.

(** A printable byte when the capacity in [_maxLineLen] and the size of
    the allocation both leave room: no invariant is needed for this. *)
Lemma poll_byte_printable_raw (c : ascii) (t : ArduinoCLI) (b : region) :
  isprint c = true → _lineBuffer t = Some b →
  _bufferPos t + 1 < length b → _bufferPos t + 1 < _maxLineLen t →
  poll_byte c t
  = serial_write [c]
      (set_bufferPos (_bufferPos t + 1)
         (set_lineBuffer
            (Some (<[_bufferPos t + 1 := NUL]> (<[_bufferPos t := c]> b)))
            t)).
Proof.
  intros Hc Hb Hlen Hmax.
  rewrite (poll_byte_printable c t Hc), size_sub_small by lia.
  assert ((_bufferPos t <? _maxLineLen t - 1) = true) as ->
    by (apply Nat.ltb_lt; lia).
  rewrite (buffer_store_in _ c t b) by (done || lia).
  rewrite (buffer_store_in _ NUL _ (<[_bufferPos t := c]> b));
    [|done|rewrite length_insert; lia].
  reflexivity.
Qed.

Lemma poll_loop_printable_raw (w : cstring) :
  Forall (λ c, isprint c = true) w →
  ∀ t b,
    _lineBuffer t = Some b →
    _bufferPos t + length w < length b →
    _bufferPos t + length w < _maxLineLen t →
    ∃ b',
      length b' = length b
      ∧ poll_loop (length w) (set_serial_rx w t)
        = set_serial_rx []
            (serial_write w
               (set_bufferPos (_bufferPos t + length w)
                  (set_lineBuffer (Some b') t))).
Proof.
  induction 1 as [|c w Hc Hw IH]; intros t b Hb Hlen Hmax.
  - exists b. split; [done|]. cbn [length poll_loop].
    rewrite Nat.add_0_r.
    rewrite (set_lineBuffer_id t b Hb), (set_bufferPos_id t _ eq_refl).
    unfold serial_write. rewrite app_nil_r. by destruct t.
  - destruct (isprint_not_line_end c Hc) as [Hcr Hlf].
    cbn [length] in Hlen, Hmax.
    cbn [length poll_loop]. cli_simpl.
    change (set_serial_rx ?r (set_serial_rx _ t)) with (set_serial_rx r t).
    rewrite (comm_poll_byte c w t Hcr Hlf).
    rewrite (poll_byte_printable_raw c t b Hc Hb) by lia.
    set (b1 := <[_bufferPos t + 1 := NUL]> (<[_bufferPos t := c]> b)).
    set (t1 := serial_write [c] _).
    destruct (IH t1 b1 eq_refl) as (b' & Hl & Hloop).
    { subst t1 b1. cli_simpl. rewrite !length_insert. lia. }
    { subst t1. cli_simpl. lia. }
    exists b'. split.
    { rewrite Hl. subst b1. by rewrite !length_insert. }
    rewrite Hloop. subst t1. unfold serial_write. cli_simpl.
    replace (_bufferPos t + 1 + length w) with (_bufferPos t + S (length w))
      by lia.
    rewrite <- app_assoc. cbn [app]. by destruct t.
Qed.

(** X25. [setMaxLineLen] after construction with more than the buffer
    holds.  The setter stores [len] and allocates nothing; with [len]
    above the size of the buffer allocated, the printable character that
    fills the last byte of the buffer is accepted, and its terminator is
    stored past the end of the buffer: undefined behaviour. *)
Theorem setMaxLineLen_overflow (s : ArduinoCLI) (buf : region) (len : nat)
    (w : cstring) :
  cli_inv s → _isRunning s = true → _lineBuffer s = Some buf →
  serial_rx s = [] →
  length buf < len →
  Forall (λ c, isprint c = true) w →
  _bufferPos s + length w = length buf →
  _lineBuffer (setMaxLineLen len s) = Some buf
  ∧ length buf < _maxLineLen (setMaxLineLen len s)
  ∧ undefined (poll (serial_receive w (setMaxLineLen len s))) = true.
Proof.
  intros Hinv Hrun Hbuf Hrx Hlen Hw Hfill.
  destruct (cli_inv_fields s Hinv)
    as (buf0 & av & Hbuf0 & Hargv & Hub & Hpos & Hcap & H64 & Hargs & Hnul).
  assert (buf0 = buf) as -> by congruence.
  assert (Hset : setMaxLineLen len s = set_maxLineLen len s).
  { unfold setMaxLineLen.
    by assert ((0 <? len) = true) as -> by (apply Nat.ltb_lt; lia). }
  rewrite Hset. cli_simpl. split; [done|]. split; [done|].
  set (t := set_maxLineLen len s).
  destruct w as [|c w0 _] using rev_ind; [simpl in Hfill; lia|].
  rewrite length_app in Hfill. cbn [length] in Hfill.
  apply Forall_app in Hw as [Hw0 Hc]. apply Forall_cons in Hc as [Hc _].
  assert (Hcr : (CR ∉ w0) ∧ (LF ∉ w0)).
  { split; intros Hin; eapply Forall_forall in Hw0; try exact Hin;
      by destruct (isprint_not_line_end _ Hw0). }
  destruct Hcr as [Hcr Hlf].
  rewrite poll_running; [|done | by exists buf].
  unfold serial_receive. cli_simpl.
  change (serial_rx t) with (serial_rx s). rewrite Hrx. cbn [app].
  change (set_serial_rx ?r (set_maxLineLen len s)) with (set_serial_rx r t).
  rewrite length_app. cbn [length].
  rewrite (poll_loop_app w0 Hcr Hlf t [c] 1).
  destruct (poll_loop_printable_raw w0 Hw0 t buf Hbuf) as (b' & Hl & Hloop).
  { subst t. cli_simpl. lia. }
  { subst t. cli_simpl. lia. }
  rewrite Hloop. cbn [poll_loop]. cli_simpl.
  change (_bufferPos t) with (_bufferPos s).
  set (t1 := set_serial_rx [] _).
  rewrite (poll_byte_printable c t1 Hc).
  change (_bufferPos t1) with (_bufferPos s + length w0).
  change (_maxLineLen t1) with len.
  rewrite size_sub_small by lia.
  assert ((_bufferPos s + length w0 <? len - 1) = true) as ->
    by (apply Nat.ltb_lt; lia).
  rewrite (buffer_store_in _ c t1 b') by (done || lia).
  unfold buffer_store at 1. cli_simpl. rewrite length_insert.
  assert ((_bufferPos s + length w0 + 1 <? length b') = false) as ->
    by (apply Nat.ltb_ge; lia).
  reflexivity.
Qed.

(** * A handler that stops the session *)


(** * The statements at concrete inputs *)

Lemma session_inv (cmds : list CLI_Command_t) (typed : string) :
  cli_inv (session cmds typed).
Proof.
  unfold session. apply poll_inv. apply cli_inv_set_serial_rx.
  unfold start. eapply frame_cli_inv; [apply frame_printPrompt|].
  eapply frame_cli_inv; [apply frame_set_isRunning|].
  by apply ArduinoCLI_new_inv.
Qed.

Lemma not_elem_of_lit (c : ascii) (w : cstring) :
  strchr_found w c = false → c ∉ w.
Proof. intros H Hin. apply strchr_found_elem in Hin. congruence. Qed.

(** C1 at the table [help], [halt]: the full name [help] resolves to its
    entry, and [h], with which both names start, to none. *)
Lemma findCommand_resolution_witness :
  (∃ i, _findCommand help_halt_table (lit "help") = Some i
        ∧ entry_named help_halt_table i (lit "help")
        ∧ ∀ j, entry_named help_halt_table j (lit "help") → j ≤ i)
  ∧ _findCommand help_halt_table (lit "h") = None.
Proof.
  split.
  - destruct (findCommand_resolution help_halt_table (lit "help"))
      as [_ H].
    destruct (H ltac:(discriminate)) as [Hexact _].
    apply Hexact. exists 0. eexists. split; reflexivity.
  - apply (findCommand_resolution help_halt_table (lit "h")) with 0 1.
    + discriminate.
    + intros [[|[|j]] (c & Hc & Hn)]; simpl in Hc; try discriminate.
      * injection Hc as <-. discriminate Hn.
      * injection Hc as <-. discriminate Hn.
    + lia.
    + exists (lit "help"). split; [eexists; split; reflexivity|].
      exists (lit "elp"). reflexivity.
    + exists (lit "halt"). split; [eexists; split; reflexivity|].
      exists (lit "alt"). reflexivity.
Defined.

(** C6 at the line of the specification, with the default sizes. *)
Lemma splitLine_tokenizes_witness :
  argv_strings
    (_splitLine (lit "  set  x 1 " ++ [NUL]) 0 (replicate 9 None) 9)
  = [lit "set"; lit "x"; lit "1"]
  ∧ sr_argc (_splitLine (lit "  set  x 1 " ++ [NUL]) 0 (replicate 9 None) 9)
    = 3.
Proof.
  apply (splitLine_tokenizes (replicate 9 None) 9 (lit "  set  x 1 ") []).
  - simpl. lia.
  - apply not_elem_of_lit. reflexivity.
  - reflexivity.
  - lia.
Defined.



(** C2 at the command [read], whose [max_args] is 2: three arguments are
    refused without a call; two are passed to the handler. *)
Lemma parseAndExecute_arg_count_witness :
  invoked (snd (_parseAndExecute (lit "read a b c" ++ [NUL])
                  (session read_table "")))
  = []
  ∧ invoked (snd (_parseAndExecute (lit "read a b" ++ [NUL])
                    (session read_table "")))
    = [(0, 3%Z, [lit "read"; lit "a"; lit "b"])].
Proof.
  split.
  - destruct (parseAndExecute_arg_count (lit "read a b c" ++ [NUL])
                (session read_table "") (replicate 9 None) 0
                (command "read" handler_ok 2))
      as (n & Hn & Hmany & _).
    + by eexists.
    + reflexivity.
    + simpl. lia.
    + vm_compute. lia.
    + reflexivity.
    + reflexivity.
    + destruct Hmany as (_ & _ & ->); [vm_compute; reflexivity | reflexivity].
  - destruct (parseAndExecute_arg_count (lit "read a b" ++ [NUL])
                (session read_table "") (replicate 9 None) 0
                (command "read" handler_ok 2))
      as (n & Hn & _ & Hfew).
    + by eexists.
    + reflexivity.
    + simpl. lia.
    + vm_compute. lia.
    + reflexivity.
    + reflexivity.
    + destruct (Hfew ltac:(vm_compute; discriminate)) as [Hcall _].
      destruct (Hcall handler_ok eq_refl) as [_ ->].
      reflexivity.
Defined.

(** C4 at the table [read], [reset], [run] after [rea] has been typed:
    the buffer becomes [read ] and [d ] is echoed. *)
Lemma handleTab_single_match_witness :
  ∃ buf',
    _lineBuffer (_handleTab (session read_table "rea")) = Some buf'
    ∧ take 5 buf' = lit "read "
    ∧ buf' !! 5 = Some NUL
    ∧ _bufferPos (_handleTab (session read_table "rea")) = 5
    ∧ serial_tx (_handleTab (session read_table "rea"))
      = serial_tx (session read_table "rea") ++ lit "d ".
Proof.
  destruct (handleTab_single_match (session read_table "rea")
              (lit "rea" ++ replicate 61 NUL) (lit "rea") (lit "read") 0)
    as [Hroom _].
  - apply session_inv.
  - reflexivity.
  - reflexivity.
  - discriminate.
  - apply not_elem_of_lit. reflexivity.
  - apply not_elem_of_lit. reflexivity.
  - eexists. split; reflexivity.
  - exists (lit "d"). reflexivity.
  - intros j (n & (c & Hc & Hn) & [k Hk]).
    destruct j as [|[|[|j]]]; [reflexivity | | |]; simpl in Hc;
      try discriminate; injection Hc as <-; injection Hn as <-;
      discriminate Hk.
  - destruct Hroom as (buf' & H1 & H2 & H3 & H4 & H5 & H6 & H7);
      [vm_compute; lia|].
    exists buf'. repeat split; assumption.
Defined.

(** C5 at the line [read a b] followed by CR LF: one line is dispatched
    and nothing is left unread. *)
Lemma crlf_single_dispatch_witness :
  dispatched (poll (serial_receive [CR; LF] (session read_table "read a b")))
  = [lit "read a b"]
  ∧ serial_rx (poll (serial_receive [CR; LF] (session read_table "read a b")))
    = [].
Proof.
  destruct (crlf_single_dispatch
              (serial_receive [CR; LF] (session read_table "read a b"))
              (lit "read a b" ++ replicate 56 NUL) CR LF) as [H _].
  - apply cli_inv_set_serial_rx, session_inv.
  - reflexivity.
  - reflexivity.
  - vm_compute. lia.
  - left. split; reflexivity.
  - apply (H [] eq_refl). reflexivity.
Defined.

(** C7 at a fresh session: the invariant holds after a byte. *)
Lemma buffer_invariant_preserved_witness :
  cli_inv (poll_byte "a"%char (session read_table "re")).
Proof.
  destruct (proj2 buffer_invariant_preserved (session read_table "re")
              (session_inv read_table "re")) as (_ & H & _).
  exact (H "a"%char).
Defined.


(** C9 at a buffer that holds 63 characters: one more is answered with a
    bell; and at an empty buffer: the character is stored and echoed. *)
Lemma printable_byte_witness :
  poll_byte "y"%char (session read_table (string_of_list_ascii (replicate 63 "x"%char)))
  = serial_write [BEL]
      (session read_table (string_of_list_ascii (replicate 63 "x"%char)))
  ∧ _bufferPos (poll_byte "y"%char (session read_table "")) = 1.
Proof.
  split.
  - apply (printable_byte "y"%char
             (session read_table (string_of_list_ascii (replicate 63 "x"%char)))
             (replicate 63 "x"%char ++ [NUL])).
    + apply session_inv.
    + reflexivity.
    + reflexivity.
    + reflexivity.
  - destruct (printable_byte "y"%char (session read_table "")
                (replicate 64 NUL)) as [_ H].
    + apply session_inv.
    + reflexivity.
    + reflexivity.
    + destruct H as (buf' & _ & _ & _ & _ & H5 & _); [vm_compute; lia|].
      exact H5.
Defined.

(** C10 before [start]: a line handed to [processInput] is dropped. *)
Lemma processInput_guard_witness :
  processInput (lit "read a" ++ [NUL])
    (ArduinoCLI_new [] read_table (Some (replicate 64 NUL))
       (Some (replicate 9 None)))
  = (lit "read a" ++ [NUL],
     ArduinoCLI_new [] read_table (Some (replicate 64 NUL))
       (Some (replicate 9 None))).
Proof.
  destruct (processInput_guard (lit "read a" ++ [NUL])
              (ArduinoCLI_new [] read_table (Some (replicate 64 NUL))
                 (Some (replicate 9 None)))) as [H _].
  apply H. left. reflexivity.
Defined.

(** X1 at the word [read] typed into an empty buffer, and at 70
    characters typed into it: 63 are kept and 7 bells are written. *)
Lemma typed_printable_witness :
  (_bufferPos (poll (serial_receive (lit "read") (session read_table ""))) = 4
   ∧ serial_tx (poll (serial_receive (lit "read") (session read_table "")))
     = serial_tx (session read_table "") ++ lit "read")
  ∧ (_bufferPos (poll (serial_receive (replicate 70 "x"%char)
                         (session read_table ""))) = 63
     ∧ serial_tx (poll (serial_receive (replicate 70 "x"%char)
                          (session read_table "")))
       = serial_tx (session read_table "") ++ replicate 63 "x"%char
         ++ replicate 7 BEL).
Proof.
  split.
  - destruct (typed_printable (session read_table "") (replicate 64 NUL)
                (lit "read")) as (buf' & _ & _ & _ & _ & H5 & H6 & _).
    + apply session_inv.
    + reflexivity.
    + reflexivity.
    + reflexivity.
    + repeat constructor.
    + split; [exact H5 | exact H6].
  - destruct (typed_printable (session read_table "") (replicate 64 NUL)
                (replicate 70 "x"%char)) as (buf' & _ & _ & _ & _ & H5 & H6 & _).
    + apply session_inv.
    + reflexivity.
    + reflexivity.
    + reflexivity.
    + apply Forall_replicate. reflexivity.
    + split; [exact H5 | exact H6].
Defined.

(** X2 after [re] has been typed: a backspace leaves [r]. *)
Lemma backspace_byte_witness :
  ∃ buf',
    _lineBuffer (poll_byte BS (session read_table "re")) = Some buf'
    ∧ take 1 buf' = lit "r"
    ∧ buf' !! 1 = Some NUL
    ∧ _bufferPos (poll_byte BS (session read_table "re")) = 1
    ∧ serial_tx (poll_byte BS (session read_table "re"))
      = serial_tx (session read_table "re") ++ [BS; SPACE; BS].
Proof.
  destruct (backspace_byte BS (session read_table "re")
              (lit "re" ++ replicate 62 NUL)) as [_ H].
  - apply session_inv.
  - left. reflexivity.
  - reflexivity.
  - destruct H as (buf' & H1 & _ & H3 & H4 & H5 & H6 & _);
      [vm_compute; lia|].
    exists buf'. repeat split; assumption.
Defined.

(** X3 after [re] has been typed. *)
Lemma cancel_byte_witness :
  _bufferPos (poll_byte ETX (session read_table "re")) = 0
  ∧ serial_tx (poll_byte ETX (session read_table "re"))
    = serial_tx (session read_table "re") ++ lit "^C" ++ [CR; LF]
      ++ [CR; LF] ++ lit "> ".
Proof.
  destruct (cancel_byte (session read_table "re")
              (lit "re" ++ replicate 62 NUL))
    as (_ & _ & H3 & H4 & _).
  - apply session_inv.
  - reflexivity.
  - split; [exact H3 | exact H4].
Defined.

(** X4 at an escape and a byte above 127 that arrive after [re]. *)
Lemma ignored_bytes_witness :
  poll (serial_receive ["027"%char; "200"%char] (session read_table "re"))
  = session read_table "re".
Proof.
  apply (ignored_bytes (session read_table "re")).
  - reflexivity.
  - by eexists.
  - reflexivity.
  - repeat constructor; apply not_elem_of_lit; reflexivity.
Defined.


(** X6 at [ad] typed after [re] and erased with a backspace and a
    DEL. *)
Lemma type_then_erase_witness :
  ∃ buf',
    _lineBuffer (poll (serial_receive (lit "ad" ++ [BS; DEL])
                         (session read_table "re"))) = Some buf'
    ∧ cstr_at buf' 0 = lit "re"
    ∧ _bufferPos (poll (serial_receive (lit "ad" ++ [BS; DEL])
                          (session read_table "re"))) = 2.
Proof.
  destruct (type_then_erase (session read_table "re")
              (lit "re" ++ replicate 62 NUL) (lit "ad") [BS; DEL])
    as (buf' & H1 & _ & _ & _ & H5 & H6 & _).
  - apply session_inv.
  - reflexivity.
  - reflexivity.
  - reflexivity.
  - repeat constructor.
  - vm_compute. lia.
  - constructor; [by left|]. constructor; [by right|]. constructor.
  - reflexivity.
  - exists buf'. repeat split; assumption.
Defined.

(** X7 at the word [read], arriving as [re] and [ad]. *)
Lemma poll_chunks_witness :
  poll (serial_receive (lit "ad")
          (poll (serial_receive (lit "re") (session read_table ""))))
  = poll (serial_receive (lit "re" ++ lit "ad") (session read_table "")).
Proof.
  apply (poll_chunks (session read_table "") (lit "re") (lit "ad")).
  - apply session_inv.
  - reflexivity.
  - apply not_elem_of_lit. reflexivity.
  - apply not_elem_of_lit. reflexivity.
Defined.

(** X8 at a session that receives a line and more. *)
Lemma poll_reads_everything_witness :
  serial_rx (poll (serial_receive (lit "read" ++ [CR] ++ lit "re")
                     (session read_table ""))) = [].
Proof.
  destruct (poll_reads_everything
              (serial_receive (lit "read" ++ [CR] ++ lit "re")
                 (session read_table ""))) as [H _].
  - reflexivity.
  - by eexists.
  - exact H.
Defined.

(** X9 at the table [read], [reset], [run] and the token [rea]. *)
Lemma findCommand_sound_witness :
  entry_starts_with read_table 0 (lit "rea")
  ∧ (entry_named read_table 0 (lit "rea")
     ∨ ∀ j, entry_starts_with read_table j (lit "rea") → j = 0).
Proof.
  destruct (findCommand_sound read_table (lit "rea") 0)
    as (_ & _ & H3 & H4).
  - reflexivity.
  - split; [exact H3 | exact H4].
Defined.

(** X10 at the line [r 1]: the names [read], [reset] and [run] start
    with [r]. *)
Lemma processInput_not_found_witness :
  serial_tx (snd (processInput (lit "r 1" ++ [NUL]) (session read_table "")))
  = serial_tx (session read_table "") ++ [CR; LF]
    ++ lit "Error: Ambiguous command '" ++ lit "r" ++ lit "'." ++ [CR; LF].
Proof.
  destruct (processInput_not_found (lit "r 1" ++ [NUL])
              (session read_table "") (lit "r") [lit "1"])
    as (_ & _ & H & _).
  - apply session_inv.
  - reflexivity.
  - reflexivity.
  - reflexivity.
  - apply H. exists 0, 1. split; [discriminate|].
    split; eexists; (split; [eexists; split; reflexivity|]).
    + by exists (lit "ead").
    + by exists (lit "eset").
Defined.

(** X11 at a line of three spaces. *)
Lemma processInput_blank_witness :
  serial_tx (snd (processInput (lit "   " ++ [NUL]) (session read_table "")))
  = serial_tx (session read_table "")
  ∧ invoked (snd (processInput (lit "   " ++ [NUL]) (session read_table "")))
    = [].
Proof.
  destruct (processInput_blank (lit "   " ++ [NUL]) (session read_table "")
              (lit "   ") []) as (H1 & H2 & _).
  - apply session_inv.
  - reflexivity.
  - reflexivity.
  - repeat constructor.
  - constructor.
  - split; [exact H1 | exact H2].
Defined.

(** X12 at the call made for the line [read a b]. *)
Lemma handler_contract_witness :
  entry_starts_with read_table 0 (lit "read")
  ∧ ∃ cmd h, read_table !! 0 = Some cmd ∧ func cmd = Some h
             ∧ (3 - 1 ≤ max_args cmd)%Z.
Proof.
  destruct (handler_contract (lit "read a b" ++ [NUL]) (session read_table "")
              0 3%Z [lit "read"; lit "a"; lit "b"])
    as [Hin | (_ & _ & _ & _ & _ & H6 & cmd & h & H7 & H8 & H9 & _)].
  - apply session_inv.
  - apply list_elem_of_here.
  - apply elem_of_nil in Hin. destruct Hin.
  - split; [exact H6|]. exists cmd, h. repeat split; assumption.
Defined.

(** X13 at a command that accepts eight arguments and is given eight:
    the handler sees seven. *)
Lemma extra_words_dropped_witness :
  invoked (snd (processInput (lit "sum 1 2 3 4 5 6 7 8" ++ [NUL])
                  (session sum_table "")))
  = [(0, 8%Z, [lit "sum"; lit "1"; lit "2"; lit "3"; lit "4"; lit "5";
               lit "6"; lit "7"])].
Proof.
  destruct (extra_words_dropped (lit "sum 1 2 3 4 5 6 7 8" ++ [NUL])
              (session sum_table "") 0 (command "sum" handler_ok 8)
              handler_ok) as [H _].
  - apply session_inv.
  - reflexivity.
  - discriminate.
  - reflexivity.
  - reflexivity.
  - reflexivity.
  - vm_compute. discriminate.
  - exact H.
Defined.

(** X15 at the line [read 1 2] typed into a fresh session. *)
Lemma typed_command_runs_witness :
  dispatched (poll (serial_receive (lit "read 1 2" ++ [CR])
                      (session read_table "")))
  = [lit "read 1 2"]
  ∧ invoked (poll (serial_receive (lit "read 1 2" ++ [CR])
                     (session read_table "")))
    = [(0, 3%Z, [lit "read"; lit "1"; lit "2"])].
Proof.
  destruct (typed_command_runs (session read_table "") (lit "read 1 2") CR
              0 (command "read" handler_ok 2) handler_ok)
    as (H1 & H2 & _).
  - apply session_inv.
  - reflexivity.
  - reflexivity.
  - reflexivity.
  - repeat constructor.
  - vm_compute. lia.
  - by left.
  - discriminate.
  - reflexivity.
  - reflexivity.
  - reflexivity.
  - vm_compute. discriminate.
  - split; [exact H1 | exact H2].
Defined.

(** X16 at 70 characters typed into a fresh session. *)
Lemma overlong_line_cut_witness :
  dispatched (poll (serial_receive (replicate 70 "x"%char ++ [CR])
                      (session read_table "")))
  = [replicate 63 "x"%char].
Proof.
  destruct (overlong_line_cut (session read_table "") (replicate 70 "x"%char)
              CR) as (H1 & _).
  - apply session_inv.
  - reflexivity.
  - reflexivity.
  - reflexivity.
  - apply Forall_replicate. reflexivity.
  - vm_compute. lia.
  - vm_compute. lia.
  - by left.
  - exact H1.
Defined.

(** X17 at [read] and [reset]: the common prefix [re] is not longer
    than what [_findLcp] returns. *)
Lemma findLcp_longest_witness :
  2 ≤ _findLcp [lit "read"; lit "reset"] 2.
Proof.
  destruct (findLcp_longest [lit "read"; lit "reset"]) as (_ & _ & H & _).
  - discriminate.
  - apply (H (lit "re")). intros m Hm.
    apply elem_of_cons in Hm as [-> | Hm]; [by exists (lit "ad")|].
    apply list_elem_of_singleton in Hm as ->. by exists (lit "set").
Defined.

(** X18 at a tab after [read ]: the cursor is past the command word. *)
Lemma handleTab_rejects_witness :
  _handleTab (session read_table "read ")
  = serial_write [BEL] (session read_table "read ").
Proof.
  destruct (handleTab_rejects (session read_table "read ")
              (lit "read " ++ replicate 59 NUL) (lit "read "))
    as (_ & H & _).
  - apply session_inv.
  - reflexivity.
  - reflexivity.
  - apply not_elem_of_lit. reflexivity.
  - apply H. apply strchr_found_elem. reflexivity.
Defined.

(** X19 at the table [reset], [restart] after [r] has been typed: the
    buffer becomes [res], and [eset] is echoed. *)
Lemma handleTab_common_prefix_witness :
  ∃ buf',
    _lineBuffer (_handleTab (session restart_table "r")) = Some buf'
    ∧ take 3 buf' = lit "res"
    ∧ buf' !! 3 = Some NUL
    ∧ _bufferPos (_handleTab (session restart_table "r")) = 3
    ∧ serial_tx (_handleTab (session restart_table "r"))
      = serial_tx (session restart_table "r") ++ lit "eset".
Proof.
  destruct (handleTab_common_prefix (session restart_table "r")
              (lit "r" ++ replicate 63 NUL) (lit "r")) as [H _].
  - apply session_inv.
  - reflexivity.
  - reflexivity.
  - discriminate.
  - apply not_elem_of_lit. reflexivity.
  - apply not_elem_of_lit. reflexivity.
  - vm_compute. lia.
  - vm_compute. lia.
  - destruct H as (buf' & H1 & _ & H3 & _ & H5 & H6 & H7 & _);
      [vm_compute; lia|].
    exists buf'. repeat split; assumption.
Defined.

(** X20 at the table [read], [reset], [run] after [re] has been typed. *)
Lemma handleTab_lists_witness :
  _handleTab (session read_table "re")
  = serial_write
      ([CR; LF] ++ lit "read  reset  " ++ [CR; LF] ++ lit "> " ++ lit "re")
      (session read_table "re").
Proof.
  apply (handleTab_lists (session read_table "re")
           (lit "re" ++ replicate 62 NUL) (lit "re")).
  - apply session_inv.
  - reflexivity.
  - reflexivity.
  - discriminate.
  - apply not_elem_of_lit. reflexivity.
  - apply not_elem_of_lit. reflexivity.
  - vm_compute. lia.
  - vm_compute. lia.
Defined.

(** X23 at a fresh session: the line capacity is lowered to 32. *)
Lemma setters_keep_invariant_witness :
  cli_inv (setMaxLineLen 32 (session read_table ""))
  ∧ _maxLineLen (setMaxLineLen 32 (session read_table "")) = 32.
Proof.
  destruct (setters_keep_invariant (session read_table "")
              (replicate 64 NUL) (replicate 9 None)) as [H _].
  - apply session_inv.
  - reflexivity.
  - reflexivity.
  - apply (H 32); vm_compute; lia.
Defined.

(** X24 at a fresh session with the default vector of nine entries,
    after [setMaxArgs(16)], on a line of nine words. *)
Lemma setMaxArgs_overflow_witness :
  _argv (setMaxArgs 16 (session read_table "")) = Some (replicate 9 None)
  ∧ 9 < _maxArgs (setMaxArgs 16 (session read_table ""))
  ∧ undefined (snd (processInput (lit "a b c d e f g h i" ++ [NUL])
                      (setMaxArgs 16 (session read_table "")))) = true.
Proof.
  apply (setMaxArgs_overflow (session read_table "") (replicate 9 None) 16
           (lit "a b c d e f g h i" ++ [NUL])).
  - apply session_inv.
  - reflexivity.
  - reflexivity.
  - vm_compute. lia.
  - unfold SIZE_MAX. lia.
  - vm_compute. lia.
Defined.

(** X25 at a fresh session with the default buffer of 64 bytes, after
    [setMaxLineLen(128)], when 64 characters are typed. *)
Lemma setMaxLineLen_overflow_witness :
  _lineBuffer (setMaxLineLen 128 (session read_table ""))
  = Some (replicate 64 NUL)
  ∧ 64 < _maxLineLen (setMaxLineLen 128 (session read_table ""))
  ∧ undefined (poll (serial_receive (replicate 64 "x"%char)
                       (setMaxLineLen 128 (session read_table "")))) = true.
Proof.
  apply (setMaxLineLen_overflow (session read_table "") (replicate 64 NUL) 128
           (replicate 64 "x"%char)).
  - apply session_inv.
  - reflexivity.
  - reflexivity.
  - reflexivity.
  - vm_compute. lia.
  - apply Forall_replicate. reflexivity.
  - reflexivity.
Defined.

